(** * mne_g3d.viz: colour transfer functions and the live-update handlers

    A shallow embedding of [src/mne_g3d/viz.py]:
    - [plot_brain_mesh] (alpha ramps of the 'hot' and 'mne' colour maps, the
      split of the activation data between the hemispheres),
    - [plot_source_estimates] (argument validation, the figure loop, the time
      viewer and the colour bar),
    - the two callbacks [slider_handler] and [on_update].

    Numbers.  numpy arrays of floats and Python floats are modelled by
    rationals [Q]; arithmetic is exact, so the statements are about the
    formulas of the code and not about rounding.  Equality of rationals is
    [==] ([Qeq]).  Where rounding decides a property (the bound of the alpha
    ramp), the loop is modelled a second time on IEEE doubles (module
    [AlphaF]).  A division by zero of Python floats raises
    [ZeroDivisionError] and is modelled as such where the operands are Python
    floats (the widget values of [on_update]); on numpy scalars it does not
    raise but gives [inf] and [nan], which [Q] does not have: every theorem
    that reads such a quotient carries the hypothesis that makes the divisor
    non-zero. *)

From Stdlib Require Import QArith Qabs Qround ZArith Lia Lqa Floats.
From stdpp Require Import gmap strings list.

Local Open Scope Q_scope.

(** ** Comparisons of floats, as booleans *)

Definition Qltb (x y : Q) : bool := negb (Qle_bool y x).
Definition Qleb (x y : Q) : bool := Qle_bool x y.

(** [float(i)] for a loop index. *)
Definition Qnat (i : nat) : Q := inject_Z (Z.of_nat i).

(** A three-point sequence: [ctrl_pts] = (fmin, fmid, fmax) and
    [scale_pts]; [pts_last] is the index [-1]. *)
Record pts := Pts { pts0 : Q; pts1 : Q; pts2 : Q }.
Definition pts_last (p : pts) : Q := pts2 p.

(** [np.clip(a, lo, hi)]: a NEW array; the argument is left as it is. *)
Definition clip1 (lo hi x : Q) : Q :=
  if Qltb x lo then lo else if Qltb hi x then hi else x.
Definition np_clip (a : list Q) (lo hi : Q) : list Q := map (clip1 lo hi) a.

(** ** The alpha ramps of [plot_brain_mesh] *)

Module Alpha.

(** Lines 98-111: the 'hot' colour map.  [alphas = np.ones(N)], then the loop
    over [range(0, N)] writes [alphas[i]] in place.  In exact arithmetic:
    this gives the formulas of the ramp; whether an alpha can leave [0, 1]
    depends on rounding and is settled on doubles, in [AlphaF]. *)
Definition hot_body (N : nat) (ctrl_pts scale_pts : pts)
    (alphas : list Q) (i : nat) : list Q :=
  let step := pts_last scale_pts / Qnat N in
  let k := 1 / (pts1 ctrl_pts - pts0 ctrl_pts) in
  let b := - pts0 ctrl_pts * k in
  let curr_pos := Qnat i * step in
  if Qltb curr_pos (pts0 ctrl_pts) then <[i := 0]> alphas
  else if Qleb (pts0 ctrl_pts) curr_pos && Qltb curr_pos (pts1 ctrl_pts)
       then <[i := k * curr_pos + b]> alphas
       else alphas.

Definition hot_alphas (N : nat) (ctrl_pts scale_pts : pts) : list Q :=
  let alphas := repeat 1 N in
  let alphas := fold_left (hot_body N ctrl_pts scale_pts) (seq 0 N) alphas in
  (* line 132: np.clip(alphas, 0, 1), the result is dropped *)
  let _ := np_clip alphas 0 1 in
  alphas.

(** Lines 114-130: the two-tailed 'mne' colour map. *)
Definition mne_pos (N : nat) (scale_pts : pts) (i : nat) : Q :=
  let step := (pts_last scale_pts - pts0 scale_pts) / Qnat N in
  Qnat i * step + pts0 scale_pts.

Definition mne_body (N : nat) (ctrl_pts scale_pts : pts)
    (alphas : list Q) (i : nat) : list Q :=
  let k_pos := 1 / (pts1 ctrl_pts - pts0 ctrl_pts) in
  let k_neg := - k_pos in
  let b := - pts0 ctrl_pts * k_pos in
  let curr_pos := mne_pos N scale_pts i in
  if Qltb (- pts0 ctrl_pts) curr_pos && Qltb curr_pos (pts0 ctrl_pts)
  then <[i := 0]> alphas
  else if Qleb (pts0 ctrl_pts) curr_pos && Qltb curr_pos (pts1 ctrl_pts)
  then <[i := k_pos * curr_pos + b]> alphas
  else if Qleb curr_pos (- pts0 ctrl_pts) && Qltb (- pts1 ctrl_pts) curr_pos
  then <[i := k_neg * curr_pos + b]> alphas
  else alphas.

Definition mne_alphas (N : nat) (ctrl_pts scale_pts : pts) : list Q :=
  let alphas := repeat 1 N in
  let alphas := fold_left (mne_body N ctrl_pts scale_pts) (seq 0 N) alphas in
  let _ := np_clip alphas 0 1 in
  alphas.

End Alpha.

(** ** The 'hot' ramp on IEEE doubles *)

Module AlphaF.

(** [float(i)] for a loop index. *)
Definition of_nat (i : nat) : float :=
  PrimFloat.of_uint63 (Uint63.of_Z (Z.of_nat i)).

Record pts := Pts { pts0 : float; pts1 : float; pts2 : float }.
Definition pts_last (p : pts) : float := pts2 p.

(** [np.clip(a, lo, hi)] *)
Definition clip1 (lo hi x : float) : float :=
  if (x <? lo)%float then lo else if (hi <? x)%float then hi else x.
Definition np_clip (a : list float) (lo hi : float) : list float :=
  map (clip1 lo hi) a.

(** Lines 98-111 and 132, with the operations of binary64. *)
Definition hot_body (N : nat) (ctrl_pts scale_pts : pts)
    (alphas : list float) (i : nat) : list float :=
  let step := (pts_last scale_pts / of_nat N)%float in
  let k := (1 / (pts1 ctrl_pts - pts0 ctrl_pts))%float in
  let b := (- pts0 ctrl_pts * k)%float in
  let curr_pos := (of_nat i * step)%float in
  if (curr_pos <? pts0 ctrl_pts)%float then <[i := 0%float]> alphas
  else if (pts0 ctrl_pts <=? curr_pos)%float
          && (curr_pos <? pts1 ctrl_pts)%float
       then <[i := (k * curr_pos + b)%float]> alphas
       else alphas.

Definition hot_alphas (N : nat) (ctrl_pts scale_pts : pts) : list float :=
  let alphas := repeat 1%float N in
  let alphas := fold_left (hot_body N ctrl_pts scale_pts) (seq 0 N) alphas in
  (* line 132: np.clip(alphas, 0, 1), the result is dropped *)
  let _ := np_clip alphas 0 1 in
  alphas.

End AlphaF.

(** ** Python values, exceptions and the widget world *)

Inductive exn :=
| ValueError | NotImplementedError | TypeError | KeyError | IndexError
| ZeroDivisionError | UnboundLocalError | AttributeError | TraitError
| LibraryError.   (* whatever a call into mne / the file readers raises *)

Inductive result (A : Type) :=
| Ok (a : A)
| Raise (e : exn).
Arguments Ok {A} a.
Arguments Raise {A} e.

(** An RGBA row of a colour table and a matplotlib colour map: [cm_N] is its
    attribute [N]. *)
Record rgba := RGBA { c_r : Q; c_g : Q; c_b : Q; c_a : Q }.
Record colormap := Colormap {
  cm_N : nat;
  cm_call : Q -> rgba;               (* called on a float *)
  cm_index : nat -> rgba }.          (* called on an integer: a table row *)

(** [cmap(data)] on an array of floats. *)
Definition cmap_apply (cmap : colormap) (data : list Q) : list rgba :=
  map (cm_call cmap) data.

(** The colour map returned by [_limits_to_control_points(..., fmt=
    'matplotlib')]: the string 'hot', or the colour map object of 'mne'. *)
Inductive lim_cmap :=
| CmapName (name : string)
| CmapObj (cm : colormap).

Definition is_str (c : lim_cmap) : bool :=
  match c with CmapName _ => true | CmapObj _ => false end.

Definition vertices := list (Q * Q * Q).
Definition faces := list (nat * nat * nat).

(** The [color] argument of a mesh: a colour name or an array. *)
Inductive color :=
| ColorName (s : string)
| ColorGrey (values : list Q)        (* curvature values of read_morph *)
| ColorArray (rows : list rgba).

(** The [ShaderMaterial] of the overlay (lines 228-235). *)
Record material := Material {
  alphaTest : Q;
  blending : string; blendDst : string; blendEquation : string;
  blendSrc : string;
  mat_transparent : bool;
  side : string }.

Record mesh := Mesh {
  m_x : list Q; m_y : list Q; m_z : list Q;
  m_triangles : faces;
  m_color : color;
  m_material : option material }.

Record figure := Figure {
  f_width : Z; f_height : Z;
  f_lighting : bool;
  f_animation : option Z;
  f_meshes : list nat;               (* indices into [w_meshes] *)
  f_box : bool; f_axes : bool;
  f_background : option string;
  f_view : option (Z * Z);           (* (azimuth, elevation) *)
  f_squarelim : bool }.

(** The bqplot heat map of the colour bar. *)
Record heatmap := HeatMap {
  hm_x : list Q;
  hm_color : list (list Q);
  hm_colors : list string }.         (* ColorScale(colors=...) *)

#[warnings="-register-all"]
Inductive widget :=
| HTML (value : string)
| FigureW (fig : nat)
| HBox (children : list widget)
| VBox (children : list widget)
| Play
| Slider
| Label
| CbarFigure
| BoundedFloatText (description : string)
| Button (description : string).

(** ** Arguments and the library calls the module makes *)

(** A surface source estimate: [times], [data] as rows of length
    [len(times)] (one row per source vertex), [vertices], [subject]. *)
Record source_estimate := SourceEstimate {
  stc_subject : option string;
  stc_times : list Q;
  stc_data : list (list Q);
  stc_vertices : list (list nat) }.

(** [stc.data[:, t]]; numpy raises [IndexError] past the last column. *)
Definition data_column (stc : source_estimate) (t : nat) : result (list Q) :=
  if (t <? length (stc_times stc))%nat
  then Ok (map (fun row => nth t row 0) (stc_data stc))
  else Raise IndexError.

(** [stc.data.ravel()] *)
Definition data_ravel (stc : source_estimate) : list Q := concat (stc_data stc).

(** The [time_label] once [_handle_time] has resolved 'auto'. *)
Inductive time_label :=
| TLStr (fmt : string)
| TLCallable (f : Q -> string)
| TLNone.

Inductive clim :=
| ClimAuto
| ClimDict (kind : string) (lims : pts).

(** What is imported from mne, matplotlib, os.path and from the modules
    [._utils] and [.io] of the package.  The functions that read files or the
    environment may raise. *)
Record lib := Lib {
  get_subjects_dir : option string -> result string;
  _check_subject : option string -> option string -> result string;
  _handle_time : time_label -> string -> list Q -> result (time_label * list Q);
  _limits_to_control_points :
    clim -> list Q -> string -> option bool
    -> result (pts * lim_cmap * pts * option bool);
  compute_morph_matrix :
    string -> list (list nat) -> nat -> nat -> nat -> string
    -> result (list Q -> list Q);     (* the result is [morph_mat.dot] *)
  read_brain_mesh : string -> result (option vertices * option faces);
  read_morph : string -> result color;
  offset_hemi : vertices -> string -> option Q -> vertices;
  offset_hemi_default : vertices -> string -> vertices;
  _calculate_cmap : lim_cmap -> Q -> pts -> pts -> colormap;
  cm_get_cmap : string -> colormap;
  ListedColormap : list rgba -> colormap;
  path_join : string -> string -> string -> string;
  str_mod : string -> Q -> string;    (* [fmt % x] *)
  capitalize : string -> string }.

(** What the two callbacks capture from [plot_source_estimates] and only
    read. *)
Record closure := Closure {
  cl_lib : lib;
  cl_stc : source_estimate;
  cl_morph_mat : list Q -> list Q;          (* morph_mat.dot *)
  cl_n_lh : nat;                            (* len(hemi_vertices['lh']) *)
  cl_views : list string;
  cl_hemis : list string;
  cl_hemi_meshes : gmap string (option nat);
  cl_time_label : time_label;
  cl_times : list Q;
  cl_lim_cmap : lim_cmap;
  cl_alpha : Q }.

(** The colour bar: what [on_update] captures ([cbar_data], [cbar_ticks],
    [color], [bg_color]), the values of the three inputs with their bounds,
    and [cbar_fig.marks]. *)
Record colorbar := Colorbar {
  cb_data : list Q;
  cb_ticks : list Q;
  cb_color : list (list Q);
  cb_bg_color : list (Q * Q * Q);
  cb_min : Q; cb_max : Q;
  cb_fmin : Q; cb_fmid : Q; cb_fmax : Q;
  cb_marks : list heatmap }.

(** The time viewer: the captured variables, the cells [cmap], [k], [b] that
    the callbacks declare [nonlocal], [label.value], [slider.value] and the
    colour bar when there is one. *)
Record viewer := Viewer {
  v_env : closure;
  v_cmap : colormap; v_k : Q; v_b : Q;
  v_label : string;
  v_slider : nat;
  v_cbar : option colorbar }.

(** The state of ipyvolume and of the notebook container. *)
Record world := World {
  w_figures : list figure;           (* by creation order *)
  w_current : option nat;            (* ipv's current figure *)
  w_meshes : list mesh;              (* by creation order *)
  w_children : list widget;          (* ipv.gcc().children *)
  w_shown : bool;                    (* ipv.show() was called *)
  w_viewer : option viewer }.

(** ** State and exception monad *)

Definition M (A : Type) : Type := world -> result A * world.

Definition ret {A} (a : A) : M A := fun w => (Ok a, w).
Definition raise {A} (e : exn) : M A := fun w => (Raise e, w).
Definition bind {A B} (c : M A) (k : A -> M B) : M B :=
  fun w => match c w with
           | (Ok a, w') => k a w'
           | (Raise e, w') => (Raise e, w')
           end.
Definition get_world : M world := fun w => (Ok w, w).
Definition modify (f : world -> world) : M unit := fun w => (Ok tt, f w).
Definition lift {A} (r : result A) : M A := fun w => (r, w).

Notation "'let*' x ':=' c 'in' k" := (bind c (fun x => k))
  (at level 10, x pattern, c at level 100, k at level 200).
Notation "'run' c 'in' k" := (bind c (fun _ => k))
  (at level 10, c at level 100, k at level 200).

(** [for x in xs: body], with the loop-carried variables in [acc]. *)
Fixpoint for_each {A S} (xs : list A) (body : A -> S -> M S) (acc : S) : M S :=
  match xs with
  | [] => ret acc
  | x :: xs' => let* acc' := body x acc in for_each xs' body acc'
  end.

(** ** ipyvolume's pylab-style calls *)

Definition set_figures (fs : list figure) (w : world) : world :=
  World fs (w_current w) (w_meshes w) (w_children w) (w_shown w) (w_viewer w).
Definition set_current (c : option nat) (w : world) : world :=
  World (w_figures w) c (w_meshes w) (w_children w) (w_shown w) (w_viewer w).
Definition set_meshes (ms : list mesh) (w : world) : world :=
  World (w_figures w) (w_current w) ms (w_children w) (w_shown w) (w_viewer w).
Definition set_children (cs : list widget) (w : world) : world :=
  World (w_figures w) (w_current w) (w_meshes w) cs (w_shown w) (w_viewer w).
Definition set_shown (b : bool) (w : world) : world :=
  World (w_figures w) (w_current w) (w_meshes w) (w_children w) b (w_viewer w).
Definition set_viewer (v : option viewer) (w : world) : world :=
  World (w_figures w) (w_current w) (w_meshes w) (w_children w) (w_shown w) v.

(** [ipv.figure(width=, height=, lighting=True)]: a new figure, which
    becomes the current one. *)
Definition new_figure (width height : Z) : figure :=
  Figure width height true None [] true true None None false.

Definition ipv_figure (width height : Z) : M nat :=
  fun w =>
    let id := length (w_figures w) in
    (Ok id, set_current (Some id)
              (set_figures (w_figures w ++ [new_figure width height]) w)).

(** [ipv.gcf()]: the current figure, created when there is none. *)
Definition ipv_gcf : M nat :=
  fun w => match w_current w with
           | Some id => (Ok id, w)
           | None => ipv_figure 400 500 w
           end.

Definition update_figure (id : nat) (f : figure -> figure) : M unit :=
  modify (fun w => set_figures (alter f id (w_figures w)) w).

(** [fig.animation = 0] *)
Definition set_animation (id : nat) (a : Z) : M unit :=
  update_figure id (fun f =>
    Figure (f_width f) (f_height f) (f_lighting f) (Some a) (f_meshes f)
           (f_box f) (f_axes f) (f_background f) (f_view f) (f_squarelim f)).

Definition add_mesh (m : nat) (f : figure) : figure :=
  Figure (f_width f) (f_height f) (f_lighting f) (f_animation f)
         (f_meshes f ++ [m])
         (f_box f) (f_axes f) (f_background f) (f_view f) (f_squarelim f).

(** [ipv.plot_trisurf(x, y, z, triangles=, color=)]: a new mesh, added to
    the current figure. *)
Definition ipv_plot_trisurf (x y z : list Q) (triangles : faces) (c : color)
  : M nat :=
  let* fig := ipv_gcf in
  let* w := get_world in
  let id := length (w_meshes w) in
  run modify (set_meshes (w_meshes w ++ [Mesh x y z triangles c None])) in
  run update_figure fig (add_mesh id) in
  ret id.

Definition ipv_style_box_off : M unit :=
  let* fig := ipv_gcf in
  update_figure fig (fun f =>
    Figure (f_width f) (f_height f) (f_lighting f) (f_animation f) (f_meshes f)
           false (f_axes f) (f_background f) (f_view f) (f_squarelim f)).

Definition ipv_style_axes_off : M unit :=
  let* fig := ipv_gcf in
  update_figure fig (fun f =>
    Figure (f_width f) (f_height f) (f_lighting f) (f_animation f) (f_meshes f)
           (f_box f) false (f_background f) (f_view f) (f_squarelim f)).

Definition ipv_style_background_color (c : string) : M unit :=
  let* fig := ipv_gcf in
  update_figure fig (fun f =>
    Figure (f_width f) (f_height f) (f_lighting f) (f_animation f) (f_meshes f)
           (f_box f) (f_axes f) (Some c) (f_view f) (f_squarelim f)).

Definition ipv_view (azimuth elevation : Z) : M unit :=
  let* fig := ipv_gcf in
  update_figure fig (fun f =>
    Figure (f_width f) (f_height f) (f_lighting f) (f_animation f) (f_meshes f)
           (f_box f) (f_axes f) (f_background f) (Some (azimuth, elevation))
           (f_squarelim f)).

Definition ipv_squarelim : M unit :=
  let* fig := ipv_gcf in
  update_figure fig (fun f =>
    Figure (f_width f) (f_height f) (f_lighting f) (f_animation f) (f_meshes f)
           (f_box f) (f_axes f) (f_background f) (f_view f) true).

Definition ipv_show : M unit := modify (set_shown true).

(** [mesh.material = mat] and [mesh.color = c] on an existing mesh. *)
Definition set_material (id : nat) (mat : material) : M unit :=
  modify (fun w => set_meshes (alter (fun m =>
    Mesh (m_x m) (m_y m) (m_z m) (m_triangles m) (m_color m) (Some mat))
    id (w_meshes w)) w).

Definition paint (c : color) (m : mesh) : mesh :=
  Mesh (m_x m) (m_y m) (m_z m) (m_triangles m) c (m_material m).

Definition set_mesh_color (id : nat) (c : color) : M unit :=
  modify (fun w => set_meshes (alter (paint c) id (w_meshes w)) w).

(** ** [plot_hemisphere_mesh] (lines 183-239) *)

Definition overlay_material : material :=
  Material (1 # 10) "CustomBlending" "OneMinusSrcAlphaFactor" "AddEquation"
           "SrcAlphaFactor" true "DoubleSide".

Definition plot_hemisphere_mesh (vs : vertices) (fs : faces) (c : color)
    (act_colors : option (list rgba)) : M (nat * option nat) :=
  let x := map (fun v => fst (fst v)) vs in
  let y := map (fun v => snd (fst v)) vs in
  let z := map snd vs in
  let* mesh_widget := ipv_plot_trisurf x y z fs c in
  match act_colors with
  | Some colors =>
      let* mesh_overlay := ipv_plot_trisurf x y z fs (ColorArray colors) in
      run set_material mesh_overlay overlay_material in
      ret (mesh_widget, Some mesh_overlay)
  | None => ret (mesh_widget, None)
  end.

(** ** [plot_brain_mesh] (lines 19-180) *)

(** [a.min()] and [a.max()]; numpy raises [ValueError] on an empty array. *)
Definition Qmin' (x y : Q) : Q := if Qltb y x then y else x.
Definition Qmax' (x y : Q) : Q := if Qltb x y then y else x.
Definition array_min (a : list Q) : result Q :=
  match a with
  | [] => Raise ValueError
  | x :: a' => Ok (fold_left Qmin' a' x)
  end.
Definition array_max (a : list Q) : result Q :=
  match a with
  | [] => Raise ValueError
  | x :: a' => Ok (fold_left Qmax' a' x)
  end.

(** [cmap[:, -1] = alphas] *)
Definition set_alpha_column (rows : list rgba) (alphas : list Q) : list rgba :=
  zip_with (fun c a => RGBA (c_r c) (c_g c) (c_b c) a) rows alphas.

(** Lines 94-134: the colour map with its alpha ramp. *)
Definition brain_cmap (L : lib) (ctrl_pts scale_pts : pts) (rgb_cmap : lim_cmap)
  : colormap :=
  match rgb_cmap with
  | CmapName name =>
      let rgb_cmap := cm_get_cmap L name in
      let cmap := map (cm_index rgb_cmap) (seq 0 (cm_N rgb_cmap)) in
      let alphas := Alpha.hot_alphas (cm_N rgb_cmap) ctrl_pts scale_pts in
      ListedColormap L (set_alpha_column cmap alphas)
  | CmapObj rgb_cmap =>
      let cmap := map (cm_index rgb_cmap) (seq 0 (cm_N rgb_cmap)) in
      let alphas := Alpha.mne_alphas (cm_N rgb_cmap) ctrl_pts scale_pts in
      ListedColormap L (set_alpha_column cmap alphas)
  end.

(** Lines 438-439 (and 139-140, 649-650 on numpy values).  For
    [dt_max = dt_min] numpy computes [inf], where the quotient of [Q] is 0:
    what a theorem says of [k] and [b] is said under the hypothesis
    [dt_max - dt_min <> 0]. *)
Definition linear_coefficients (dt_min dt_max : Q) : Q * Q :=
  let k := 1 / (dt_max - dt_min) in
  let b := 1 - k * dt_max in
  (k, b).

(** [data = k * data + b; np.clip(data, 0, 1)] (lines 142-143, 468-469,
    553-554, 659-660): the clipped array is not bound to a name. *)
Definition rescale (k b : Q) (data : list Q) : list Q :=
  let data := map (fun x => k * x + b) data in
  let _ := np_clip data 0 1 in
  data.

Record brain_args := BrainArgs {
  rh_vertices : option vertices;
  lh_vertices : option vertices;
  rh_faces : option faces;
  lh_faces : option faces;
  rh_color : color;
  lh_color : color;
  act_data : option (list Q);
  cmap_str : string;
  offset : option Q;
  fig_size : Z * Z;
  azimuth : Z;
  elevation : Z }.

(** Lines 86-152: the activation colours of the two hemispheres, [None] for
    names that the [else] branch leaves unbound. *)
Definition brain_act_colors (L : lib) (a : brain_args)
  : result (option (list rgba) * option (list rgba)) :=
  match act_data a with
  | Some act_data =>
      match _limits_to_control_points L ClimAuto act_data (cmap_str a)
                                      (Some false) with
      | Raise e => Raise e
      | Ok (ctrl_pts, rgb_cmap, scale_pts, _) =>
          let cmap := brain_cmap L ctrl_pts scale_pts rgb_cmap in
          match array_min act_data, array_max act_data with
          | Ok dt_min, Ok dt_max =>
              let '(k, b) := linear_coefficients dt_min dt_max in
              let act_data := rescale k b act_data in
              match lh_vertices a with
              | None => Raise TypeError          (* len(None) *)
              | Some lh =>
                  let lh_act_data := take (length lh) act_data in
                  let rh_act_data := drop (length lh) act_data in
                  let lh_act_colors := cmap_apply cmap lh_act_data in
                  let rh_act_colors := cmap_apply cmap rh_act_data in
                  Ok (Some rh_act_colors, Some lh_act_colors)
              end
          | Raise e, _ => Raise e
          | _, Raise e => Raise e
          end
      end
  | None => Ok (None, None)
  end.

Definition plot_brain_mesh (L : lib) (a : brain_args)
  : M (nat * option nat * option nat) :=
  let* fig := ipv_figure (fst (fig_size a)) (snd (fig_size a)) in
  let* (rh_act_colors, lh_act_colors) := lift (brain_act_colors L a) in
  let* rh_mesh :=
    match rh_vertices a, rh_faces a with
    | Some vs, Some fs =>
        let vs := match offset a with
                  | Some o => offset_hemi L vs "rh" (Some o)
                  | None => vs
                  end in
        match rh_act_colors with
        | None => raise UnboundLocalError        (* rh_act_colors *)
        | Some colors =>
            let* (m, _) := plot_hemisphere_mesh vs fs (rh_color a) (Some colors) in
            ret (Some m)
        end
    | _, _ => ret None
    end in
  let* lh_mesh :=
    match lh_vertices a, lh_faces a with
    | Some vs, Some fs =>
        let vs := match offset a with
                  | Some o => offset_hemi L vs "lh" (Some o)
                  | None => vs
                  end in
        match lh_act_colors with
        | None => raise UnboundLocalError        (* lh_act_colors *)
        | Some colors =>
            let* (m, _) := plot_hemisphere_mesh vs fs (lh_color a) (Some colors) in
            ret (Some m)
        end
    | _, _ => ret None
    end in
  run ipv_style_box_off in
  run ipv_style_axes_off in
  run ipv_style_background_color "black" in
  run ipv_view (azimuth a) (elevation a) in
  run ipv_squarelim in
  run ipv_show in
  ret (fig, rh_mesh, lh_mesh).

(** ** Small numeric and string helpers of numpy and Python *)

(** [np.linspace(start, stop, num)] *)
Definition linspace (start stop : Q) (num : nat) : list Q :=
  match num with
  | 0%nat => []
  | 1%nat => [start]
  | _ => map (fun i => start + Qnat i * ((stop - start) / Qnat (num - 1)))
             (seq 0 num)
  end.

(** [np.argmin]: the first index of the least entry. *)
Fixpoint argmin_from (a : list Q) (i best_i : nat) (best : Q) : nat :=
  match a with
  | [] => best_i
  | x :: a' => if Qltb x best then argmin_from a' (S i) i x
               else argmin_from a' (S i) best_i best
  end.
Definition argmin (a : list Q) : result nat :=
  match a with
  | [] => Raise ValueError
  | x :: a' => Ok (argmin_from a' 1 0 x)
  end.

(** [round(x, 2)], halves to even. *)
Definition round_half_even (q : Q) : Z :=
  let f := Qfloor q in
  let r := q - inject_Z f in
  if Qltb r (1 # 2) then f
  else if Qltb (1 # 2) r then (f + 1)%Z
  else if Z.even f then f else (f + 1)%Z.
Definition round2 (q : Q) : Q := inject_Z (round_half_even (q * 100)) / 100.

(** [astype(int)]: towards zero. *)
Definition Qtrunc (q : Q) : Z := if Qltb q 0 then Qceiling q else Qfloor q.

(** ['%02x' % n] *)
Definition hex_digit (d : Z) : string :=
  String.substring (Z.to_nat d) 1 "0123456789abcdef".
Fixpoint hex_digits (fuel : nat) (n : Z) : string :=
  match fuel with
  | O => hex_digit n
  | S fuel' => if (n <? 16)%Z then hex_digit n
               else hex_digits fuel' (n / 16) +:+ hex_digit (n mod 16)
  end.
Definition format_02x (n : Z) : string :=
  if (n <? 0)%Z then "-" +:+ hex_digits (Z.to_nat (- n)) (- n)
  else let s := hex_digits (Z.to_nat n) n in
       if (String.length s <? 2)%nat then "0" +:+ s else s.

(** Lines 573-582 and 664-672: the colours of the bar, blended over the grey
    background, as '#rrggbb'. *)
Definition blend (a c bg : Q) : Z := Qtrunc (255 * (a * c + (1 - a) * bg)).
Definition colorbar_colors (cmap : colormap) (cbar_data : list Q)
    (bg_color : list (Q * Q * Q)) : list string :=
  let colors := cmap_apply cmap cbar_data in
  zip_with (fun c bg =>
              let '(bg_r, bg_g, bg_b) := bg in
              "#" +:+ format_02x (blend (c_a c) (c_r c) bg_r)
                  +:+ format_02x (blend (c_a c) (c_g c) bg_g)
                  +:+ format_02x (blend (c_a c) (c_b c) bg_b))
           colors bg_color.

(** The value a [BoundedFloatText] keeps: clamped into [min, max]. *)
Definition bounded (lo hi v : Q) : Q :=
  if Qltb v lo || Qltb hi v then Qmin' (Qmax' v lo) hi else v.

(** ** The callbacks *)

Definition get_viewer : M viewer :=
  fun w => match w_viewer w with
           | Some v => (Ok v, w)
           | None => (Raise UnboundLocalError, w)   (* no time viewer *)
           end.

Definition put_viewer (v : viewer) : M unit := modify (set_viewer (Some v)).

Definition set_cmap (c : colormap) (v : viewer) : viewer :=
  Viewer (v_env v) c (v_k v) (v_b v) (v_label v) (v_slider v) (v_cbar v).
Definition set_k (k : Q) (v : viewer) : viewer :=
  Viewer (v_env v) (v_cmap v) k (v_b v) (v_label v) (v_slider v) (v_cbar v).
Definition set_b (b : Q) (v : viewer) : viewer :=
  Viewer (v_env v) (v_cmap v) (v_k v) b (v_label v) (v_slider v) (v_cbar v).
Definition set_label (l : string) (v : viewer) : viewer :=
  Viewer (v_env v) (v_cmap v) (v_k v) (v_b v) l (v_slider v) (v_cbar v).
Definition set_slider (t : nat) (v : viewer) : viewer :=
  Viewer (v_env v) (v_cmap v) (v_k v) (v_b v) (v_label v) t (v_cbar v).
Definition set_cbar (c : option colorbar) (v : viewer) : viewer :=
  Viewer (v_env v) (v_cmap v) (v_k v) (v_b v) (v_label v) (v_slider v) c.
Definition set_marks (ms : list heatmap) (c : colorbar) : colorbar :=
  Colorbar (cb_data c) (cb_ticks c) (cb_color c) (cb_bg_color c)
           (cb_min c) (cb_max c) (cb_fmin c) (cb_fmid c) (cb_fmax c) ms.

Definition update_viewer (f : viewer -> viewer) : M unit :=
  modify (fun w => set_viewer (f <$> w_viewer w) w).

(** [stc_data[:n]] for 'lh', [stc_data[n:]] otherwise. *)
Definition hemi_data (h : string) (n_lh : nat) (stc_data : list Q) : list Q :=
  if String.eqb h "lh" then take n_lh stc_data else drop n_lh stc_data.

(** The body of the two loops (lines 548-556 and 654-662); [cmap], [k] and
    [b] are read from their cells. *)
Definition recolor (stc_data : list Q) (view h : string) : M unit :=
  let* v := get_viewer in
  let cl := v_env v in
  let data := hemi_data h (cl_n_lh cl) stc_data in
  let data := rescale (v_k v) (v_b v) data in
  let act_color_new := cmap_apply (v_cmap v) data in
  match cl_hemi_meshes cl !! (h +:+ "_" +:+ view) with
  | None => raise KeyError
  | Some None => raise AttributeError
  | Some (Some m) => set_mesh_color m (ColorArray act_color_new)
  end.

Definition recolor_all (stc_data : list Q) (views hemis : list string)
  : M unit :=
  for_each views (fun view _ =>
    for_each hemis (fun h _ => recolor stc_data view h) tt) tt.

(** [times[t]] *)
Definition time_at (times : list Q) (t : nat) : result Q :=
  match times !! t with
  | Some x => Ok x
  | None => Raise IndexError
  end.

(** Lines 538-562. *)
Definition slider_handler (change_new : nat) : M unit :=
  let* v := get_viewer in
  let cl := v_env v in
  let time_idx_new := change_new in
  let* column := lift (data_column (cl_stc cl) time_idx_new) in
  let stc_data := cl_morph_mat cl column in
  run recolor_all stc_data (cl_views cl) (cl_hemis cl) in
  match cl_time_label cl with
  | TLStr fmt =>
      let* t := lift (time_at (cl_times cl) time_idx_new) in
      update_viewer (set_label (str_mod (cl_lib cl) fmt t))
  | TLCallable f =>
      let* t := lift (time_at (cl_times cl) time_idx_new) in
      update_viewer (set_label (f t))
  | TLNone => ret tt
  end.

(** Lines 622-678. *)
Definition on_update : M unit :=
  let* v := get_viewer in
  let cl := v_env v in
  match v_cbar v with
  | None => raise UnboundLocalError              (* no colour bar *)
  | Some cb =>
      let ctrl_pts := Pts (cb_fmin cb) (cb_fmid cb) (cb_fmax cb) in
      let time_idx_new := v_slider v in
      let* column := lift (data_column (cl_stc cl) time_idx_new) in
      let stc_data := cl_morph_mat cl column in
      if negb (Qltb (pts0 ctrl_pts) (pts1 ctrl_pts)
               && Qltb (pts1 ctrl_pts) (pts2 ctrl_pts))
      then raise ValueError
      else
        let '(scale_pts, dt_min, dt_max) :=
          if is_str (cl_lim_cmap cl)
          then (ctrl_pts, cb_fmin cb, cb_fmax cb)
          else (Pts (- pts_last ctrl_pts) 0 (pts_last ctrl_pts),
                - cb_fmax cb, cb_fmax cb) in
        let cmap := _calculate_cmap (cl_lib cl) (cl_lim_cmap cl) (cl_alpha cl)
                                    ctrl_pts scale_pts in
        run update_viewer (set_cmap cmap) in
        (* Python floats: 1 / 0.0 raises *)
        if Qeq_bool (dt_max - dt_min) 0 then raise ZeroDivisionError
        else
          let k := 1 / (dt_max - dt_min) in
          run update_viewer (set_k k) in
          let b := 1 - k * dt_max in
          run update_viewer (set_b b) in
          run recolor_all stc_data (cl_views cl) (cl_hemis cl) in
          let colors := colorbar_colors cmap (cb_data cb) (cb_bg_color cb) in
          let heat := HeatMap (cb_ticks cb) (cb_color cb) colors in
          update_viewer (fun v => set_cbar (set_marks [heat] <$> v_cbar v) v)
  end.

(** ** [plot_source_estimates] (lines 242-695) *)

Inductive stc_arg :=
| IsSourceEstimate (stc : source_estimate)
| NotSourceEstimate.

Inductive views_arg :=
| ViewsOne (view : string)             (* neither a list nor a tuple *)
| ViewsSeq (views : list string).

Inductive colormap_arg :=
| ColormapStr (name : string)
| ColormapArray (table : list rgba).

Inductive cortex_arg :=
| CortexStr (name : string)
| CortexOther.                         (* a tuple, a dict, None *)

Inductive size_arg :=
| SizeInt (n : Z)
| SizePair (w h : Z).

Record args := Args {
  a_stc : stc_arg;
  a_subject : option string;
  a_surface : string;
  a_hemi : string;
  a_colormap : colormap_arg;
  a_time_label : time_label;
  a_smoothing_steps : nat;
  a_transparent : option bool;
  a_alpha : Q;
  a_time_viewer : bool;
  a_subjects_dir : option string;
  a_figure : option nat;
  a_views : views_arg;
  a_colorbar : bool;
  a_clim : clim;
  a_cortex : cortex_arg;
  a_size : size_arg;
  a_background : string;
  a_foreground : option string;
  a_initial_time : option Q;
  a_time_unit : string }.

(** Lines 351-358, as (elev, azim). *)
Definition views_dict : list (string * (Z * Z)) :=
  [ ("lat", (5, 0)); ("med", (5, 180)); ("fos", (5, 90)); ("cau", (5, -90));
    ("dor", (90, 0)); ("ven", (-90, 0)); ("fro", (5, 110));
    ("par", (5, -110)) ]%Z.

Fixpoint dict_get {V} (d : list (string * V)) (key : string) : option V :=
  match d with
  | [] => None
  | (k, v) :: d' => if String.eqb k key then Some v else dict_get d' key
  end.

Definition str_in (s : string) (l : list string) : bool :=
  existsb (String.eqb s) l.

(** An entry of the returned list: a figure, or the row of figures of a
    'split' view. *)
Inductive fig_entry :=
| OneFig (fig : nat)
| FigRow (row : list nat).

(** The names the figure loop rebinds. *)
Record loop_vars := LoopVars {
  lv_figs : list fig_entry;
  lv_fig : option nat;                       (* unbound before the first one *)
  lv_figs_row : option (list nat);
  lv_hemi_meshes : gmap string (option nat) }.

(** What the loop reads. *)
Record loop_env := LoopEnv {
  le_lib : lib;
  le_hemi : string;
  le_hemis : list string;
  le_subjects_dir : string;
  le_subject : string;
  le_background : string;
  le_fig_w : Z; le_fig_h : Z;
  le_hemi_vertices : list (string * option vertices);
  le_hemi_faces : list (string * option faces);
  le_n_lh : nat;
  le_stc_data : list Q;
  le_cmap : colormap; le_k : Q; le_b : Q }.

(** Lines 461-506. *)
Definition hemi_body (E : loop_env) (view h : string) (lv : loop_vars)
  : M loop_vars :=
  let data := hemi_data h (le_n_lh E) (le_stc_data E) in
  if (0 <? length data)%nat then
    let data := rescale (le_k E) (le_b E) data in
    let act_colors := cmap_apply (le_cmap E) data in
    let morph_folder := "surf/" +:+ h +:+ ".curv" in
    let morph_path :=
      path_join (le_lib E) (le_subjects_dir E) (le_subject E) morph_folder in
    let* brain_vertices :=
      match dict_get (le_hemi_vertices E) h with
      | Some vs => ret vs | None => raise KeyError end in
    let* brain_faces :=
      match dict_get (le_hemi_faces E) h with
      | Some fs => ret fs | None => raise KeyError end in
    let* brain_color := lift (read_morph (le_lib E) morph_path) in
    match brain_vertices, brain_faces with
    | Some brain_vertices, Some brain_faces =>
        let brain_vertices := offset_hemi_default (le_lib E) brain_vertices h in
        let* lv :=
          if String.eqb (le_hemi E) "split" then
            let* fig := ipv_figure (le_fig_w E) (le_fig_h E) in
            run set_animation fig 0 in
            let figs_row := match lv_figs_row lv with
                            | None => [fig]
                            | Some row => row ++ [fig]
                            end in
            ret (LoopVars (lv_figs lv) (Some fig) (Some figs_row)
                          (lv_hemi_meshes lv))
          else ret lv in
        let* (_, hemi_mesh) :=
          plot_hemisphere_mesh brain_vertices brain_faces brain_color
                               (Some act_colors) in
        run ipv_style_box_off in
        run ipv_style_axes_off in
        run ipv_style_background_color (le_background E) in
        let* (elev, azim) :=
          match dict_get views_dict view with
          | Some ea => ret ea | None => raise KeyError end in
        run ipv_view azim elev in
        run ipv_squarelim in
        ret (LoopVars (lv_figs lv) (lv_fig lv) (lv_figs_row lv)
                      (<[h +:+ "_" +:+ view := hemi_mesh]> (lv_hemi_meshes lv)))
    | _, _ => ret lv
    end
  else ret lv.

(** Lines 453-510. *)
Definition view_body (E : loop_env) (view : string) (lv : loop_vars)
  : M loop_vars :=
  let lv := LoopVars (lv_figs lv) (lv_fig lv) None (lv_hemi_meshes lv) in
  let* lv :=
    if negb (String.eqb (le_hemi E) "split") then
      let* fig := ipv_figure (le_fig_w E) (le_fig_h E) in
      run set_animation fig 0 in
      ret (LoopVars (lv_figs lv) (Some fig) (lv_figs_row lv)
                    (lv_hemi_meshes lv))
    else ret lv in
  let* lv := for_each (le_hemis E) (hemi_body E view) lv in
  match lv_figs_row lv with
  | Some figs_row =>
      ret (LoopVars (lv_figs lv ++ [FigRow figs_row]) (lv_fig lv)
                    (lv_figs_row lv) (lv_hemi_meshes lv))
  | None =>
      match lv_fig lv with
      | Some fig =>
          ret (LoopVars (lv_figs lv ++ [OneFig fig]) (lv_fig lv)
                        (lv_figs_row lv) (lv_hemi_meshes lv))
      | None => raise UnboundLocalError             (* fig *)
      end
  end.

(** The double quote character, for the HTML of the title. *)
Definition dq : string := String (Ascii.ascii_of_nat 34) EmptyString.

Definition cortex_is_classic (c : cortex_arg) : bool :=
  match c with
  | CortexStr name => String.eqb name "classic"
  | CortexOther => false
  end.

(** [len(x)] of an array that may be [None]. *)
Definition len_opt {A} (x : option (list A)) : result nat :=
  match x with
  | Some l => Ok (length l)
  | None => Raise TypeError
  end.

(** Lines 512-521: the children of the container. *)
Definition scene_children (hemi title foreground : string)
    (figs : list fig_entry) : result (list widget) :=
  let title_w := HTML ("<p style=" +:+ dq +:+ "color: " +:+ foreground +:+ dq
                       +:+ ">" +:+ "<b>" +:+ title +:+ "</b></p>") in
  if String.eqb hemi "split" then
    let hbox entry := match entry with
                      | FigRow figs_row => Some (HBox (map FigureW figs_row))
                      | OneFig _ => None
                      end in
    match mapM hbox figs with
    | Some hboxes => Ok (title_w :: hboxes)
    | None => Raise TraitError            (* HBox(fig) of a bare figure *)
    end
  else
    let child entry := match entry with
                       | OneFig fig => Some (FigureW fig)
                       | FigRow _ => None
                       end in
    match mapM child figs with
    | Some figs => Ok (title_w :: figs)
    | None => Raise TraitError
    end.

(** The six widgets of the colour bar and the three-part control of the
    time viewer. *)
Definition control_widget : widget := HBox [Play; Slider; Label].
Definition info_widget : widget :=
  VBox [control_widget; CbarFigure; BoundedFloatText "Fmin:";
        BoundedFloatText "Fmid:"; BoundedFloatText "Fmax:";
        Button "Update mesh"].

(** Lines 569-620: the cells of a new colour bar. *)
Definition new_colorbar (cmap : colormap) (dt_min dt_max : Q) (ctrl_pts : pts)
  : colorbar :=
  let cbar_data := linspace 0 1 (cm_N cmap) in
  let cbar_ticks := linspace dt_min dt_max (cm_N cmap) in
  let color := [cbar_data; cbar_data] in
  let alphas := map c_a (cmap_apply cmap cbar_data) in
  let bg_color := repeat (1 # 2, 1 # 2, 1 # 2) (length alphas) in
  let colors := colorbar_colors cmap cbar_data bg_color in
  let heat := HeatMap cbar_ticks color colors in
  Colorbar cbar_data cbar_ticks color bg_color dt_min dt_max
           (bounded dt_min dt_max (round2 (pts0 ctrl_pts)))
           (bounded dt_min dt_max (round2 (pts1 ctrl_pts)))
           (bounded dt_min dt_max (round2 (pts2 ctrl_pts)))
           [heat].

(** What lines 348-447 compute before the first figure is created. *)
Record setup := Setup {
  s_stc : source_estimate;
  s_views : list string;
  s_subjects_dir : string;
  s_subject : string;
  s_foreground : string;
  s_time_idx : nat;
  s_time_label : time_label;
  s_times : list Q;
  s_hemi_vertices : list (string * option vertices);
  s_hemi_faces : list (string * option faces);
  s_n_lh : nat;
  s_morph_mat : list Q -> list Q;
  s_stc_data : list Q;
  s_fig_w : Z; s_fig_h : Z;
  s_ctrl_pts : pts;
  s_lim_cmap : lim_cmap;
  s_scale_pts : pts;
  s_cmap : colormap;
  s_dt_min : Q; s_dt_max : Q;
  s_k : Q; s_b : Q;
  s_hemis : list string;
  s_title : string }.

Definition rbind {A B} (r : result A) (k : A -> result B) : result B :=
  match r with
  | Ok a => k a
  | Raise e => Raise e
  end.
Notation "'let?' x ':=' c 'in' k" := (rbind c (fun x => k))
  (at level 10, x pattern, c at level 100, k at level 200).

(** Lines 363-367. *)
Fixpoint check_views (views : list string) : result unit :=
  match views with
  | [] => Ok tt
  | view :: views' =>
      match dict_get views_dict view with
      | Some _ => check_views views'
      | None => Raise ValueError
      end
  end.

(** Lines 402-410. *)
Fixpoint read_hemispheres (L : lib) (subjects_dir subject surface : string)
    (hs : list string)
    (acc : list (string * option vertices) * list (string * option faces))
  : result (list (string * option vertices) * list (string * option faces)) :=
  match hs with
  | [] => Ok acc
  | h :: hs' =>
      let mesh_folder := "surf/" +:+ h +:+ "." +:+ surface in
      let mesh_path := path_join L subjects_dir subject mesh_folder in
      let? (brain_vertices, brain_faces) := read_brain_mesh L mesh_path in
      read_hemispheres L subjects_dir subject surface hs'
        ((h, brain_vertices) :: fst acc, (h, brain_faces) :: snd acc)
  end.

(** Lines 360-361: a single view becomes a one-element tuple. *)
Definition views_of (a : args) : list string :=
  match a_views a with
  | ViewsOne view => [view]
  | ViewsSeq views => views
  end.

(** Lines 348-447: no call into ipyvolume or ipywidgets is made here. *)
Definition prepare (L : lib) (a : args) : result setup :=
  match a_stc a with
  | NotSourceEstimate => Raise ValueError
  | IsSourceEstimate stc =>
  let views := views_of a in
  let? _ := check_views views in
  let? subjects_dir := get_subjects_dir L (a_subjects_dir a) in
  let? subject := _check_subject L (stc_subject stc) (a_subject a) in
  match a_colormap a with
  | ColormapArray _ => Raise NotImplementedError
  | ColormapStr colormap =>
  if negb (cortex_is_classic (a_cortex a)) then Raise NotImplementedError else
  if bool_decide (is_Some (a_figure a)) then Raise NotImplementedError else
  let foreground := default "black" (a_foreground a) in
  if negb (str_in (a_hemi a) ["lh"; "rh"; "split"; "both"])
  then Raise ValueError else
  let scaler := if String.eqb (a_time_unit a) "ms" then 1000 else 1 in
  let? time_idx :=
    match a_initial_time a with
    | None => Ok 0%nat
    | Some initial_time =>
        argmin (map (fun t => Qabs (t - initial_time / scaler))
                    (stc_times stc))
    end in
  let? (time_label, times) :=
    _handle_time L (a_time_label a) (a_time_unit a) (stc_times stc) in
  let? (hemi_vertices, hemi_faces) :=
    read_hemispheres L subjects_dir subject (a_surface a) ["lh"; "rh"]
                     ([], []) in
  let? n_lh := len_opt (dict_get hemi_vertices "lh" ≫= id) in
  let? n_rh := len_opt (dict_get hemi_vertices "rh" ≫= id) in
  let? morph_mat :=
    compute_morph_matrix L subject (stc_vertices stc) n_lh n_rh
                         (a_smoothing_steps a) subjects_dir in
  let? column := data_column stc time_idx in
  let stc_data := morph_mat column in
  let '(fig_w, fig_h) := match a_size a with
                         | SizeInt size => (size, size)
                         | SizePair w h => (w, h)
                         end in
  let? (ctrl_pts, lim_cmap, scale_pts, transparent) :=
    _limits_to_control_points L (a_clim a) (data_ravel stc) colormap
                              (a_transparent a) in
  let cmap := _calculate_cmap L lim_cmap (a_alpha a) ctrl_pts scale_pts in
  let dt_max := pts_last scale_pts in
  let dt_min := pts0 scale_pts in
  let '(k, b) := linear_coefficients dt_min dt_max in
  let hemis := if str_in (a_hemi a) ["both"; "split"]
               then ["lh"; "rh"] else [a_hemi a] in
  let title := if (1 <? length hemis)%nat then subject
               else subject +:+ " - " +:+ hd "" hemis in
  let title := capitalize L title in
  Ok (Setup stc views subjects_dir subject foreground time_idx time_label
            times hemi_vertices hemi_faces n_lh morph_mat stc_data fig_w fig_h
            ctrl_pts lim_cmap scale_pts cmap dt_min dt_max k b hemis title)
  end end.

Definition loop_env_of (L : lib) (a : args) (s : setup) : loop_env :=
  LoopEnv L (a_hemi a) (s_hemis s) (s_subjects_dir s) (s_subject s)
          (a_background a) (s_fig_w s) (s_fig_h s) (s_hemi_vertices s)
          (s_hemi_faces s) (s_n_lh s) (s_stc_data s) (s_cmap s) (s_k s) (s_b s).

(** Lines 523-691: the time viewer, with the colour bar nested in it. *)
Definition time_viewer_block (L : lib) (a : args) (s : setup)
    (hemi_meshes : gmap string (option nat)) : M unit :=
  if a_time_viewer a then
    let* label :=
      match s_time_label s with
      | TLStr fmt => let* t := lift (time_at (s_times s) (s_time_idx s)) in
                     ret (Some (str_mod L fmt t))
      | TLCallable f => let* t := lift (time_at (s_times s) (s_time_idx s)) in
                        ret (Some (f t))
      | TLNone => ret None
      end in
    match label with
    | None => raise UnboundLocalError              (* label, line 565 *)
    | Some label =>
        let cl := Closure L (s_stc s) (s_morph_mat s) (s_n_lh s) (s_views s)
                          (s_hemis s) hemi_meshes (s_time_label s) (s_times s)
                          (s_lim_cmap s) (a_alpha a) in
        if a_colorbar a then
          let cb := new_colorbar (s_cmap s) (s_dt_min s) (s_dt_max s)
                                 (s_ctrl_pts s) in
          run put_viewer (Viewer cl (s_cmap s) (s_k s) (s_b s) label
                                 (s_time_idx s) (Some cb)) in
          modify (fun w => set_children (w_children w ++ [info_widget]) w)
        else
          run put_viewer (Viewer cl (s_cmap s) (s_k s) (s_b s) label
                                 (s_time_idx s) None) in
          modify (fun w => set_children (w_children w ++ [control_widget]) w)
    end
  else ret tt.

Definition plot_source_estimates (L : lib) (a : args) : M (list fig_entry) :=
  let* s := lift (prepare L a) in
  (* lines 449-510 *)
  let* lv := for_each (s_views s) (view_body (loop_env_of L a s))
                      (LoopVars [] None None ∅) in
  let figs := lv_figs lv in
  (* lines 512-521 *)
  let* children :=
    lift (scene_children (a_hemi a) (s_title s) (s_foreground s) figs) in
  run modify (set_children children) in
  run time_viewer_block L a s (lv_hemi_meshes lv) in
  run ipv_show in
  ret figs.

(** ** What the user does to the widgets *)

(** Typing a value into one of the three inputs: the widget keeps it
    clamped into its bounds. *)
Definition enter_thresholds (fmin fmid fmax : Q) : M unit :=
  update_viewer (fun v =>
    set_cbar ((fun c =>
      Colorbar (cb_data c) (cb_ticks c) (cb_color c) (cb_bg_color c)
               (cb_min c) (cb_max c)
               (bounded (cb_min c) (cb_max c) fmin)
               (bounded (cb_min c) (cb_max c) fmid)
               (bounded (cb_min c) (cb_max c) fmax)
               (cb_marks c)) <$> v_cbar v) v).

(** Moving the slider: the widget stores the value, then calls the
    observer. *)
Definition move_slider (t : nat) : M unit :=
  run update_viewer (set_slider t) in
  slider_handler t.

(** ** Notions used to state the properties *)

(** The key of a mesh in [hemi_meshes]. *)
Definition mesh_key (h view : string) : string := h +:+ "_" +:+ view.

(** The pairs the two nested loops go through, in order. *)
Definition loop_pairs (views hemis : list string) : list (string * string) :=
  flat_map (fun view => map (fun h => (view, h)) hemis) views.

(** The colours of hemisphere [h] for the morphed data [stc_data], with the
    colour map and the coefficients of the viewer [v]. *)
Definition hemi_colors (v : viewer) (stc_data : list Q) (h : string) : color :=
  ColorArray
    (cmap_apply (v_cmap v)
       (map (fun x => v_k v * x + v_b v)
            (hemi_data h (cl_n_lh (v_env v)) stc_data))).

(** Every pair of the loops has a mesh, and a mesh belongs to one
    hemisphere. *)
Definition meshes_complete (cl : closure) (n_meshes : nat) : Prop :=
  (forall view h, In (view, h) (loop_pairs (cl_views cl) (cl_hemis cl)) ->
     exists m, cl_hemi_meshes cl !! mesh_key h view = Some (Some m)
               /\ (m < n_meshes)%nat) /\
  (forall view h view' h' m,
     In (view, h) (loop_pairs (cl_views cl) (cl_hemis cl)) ->
     In (view', h') (loop_pairs (cl_views cl) (cl_hemis cl)) ->
     cl_hemi_meshes cl !! mesh_key h view = Some (Some m) ->
     cl_hemi_meshes cl !! mesh_key h' view' = Some (Some m) ->
     h = h').

(** [ms'] is [ms] after the loops went through the pairs [ps]: a mesh that
    no pair owns is as it was, the others were painted with the colours of
    the hemisphere of one of their pairs. *)
Definition Painted (v : viewer) (stc_data : list Q)
    (ps : list (string * string)) (ms ms' : list mesh) : Prop :=
  length ms' = length ms /\
  forall m,
    (exists view h, In (view, h) ps /\
       cl_hemi_meshes (v_env v) !! mesh_key h view = Some (Some m) /\
       ms' !! m = paint (hemi_colors v stc_data h) <$> ms !! m)
    \/ ((forall view h, In (view, h) ps ->
           cl_hemi_meshes (v_env v) !! mesh_key h view <> Some (Some m)) /\
        ms' !! m = ms !! m).

(** A figure made for [view]: still empty, or seen from the azimuth and
    elevation that [views_dict] gives for [view]. *)
Definition fig_for_view (view : string) (f : figure) : Prop :=
  f_meshes f = [] \/
  f_view f = (fun ea : Z * Z => (snd ea, fst ea)) <$> dict_get views_dict view.

(** The text of the label at time [t], when the label format is a string or
    a callable. *)
Definition label_text (cl : closure) (t : Q) : option string :=
  match cl_time_label cl with
  | TLStr fmt => Some (str_mod (cl_lib cl) fmt t)
  | TLCallable f => Some (f t)
  | TLNone => None
  end.

(** ** Notions used to state the properties of the scene *)

(** The two meshes of a hemisphere that has its vertices and its faces. *)
Definition hemisphere_meshes (L : lib) (offset : option Q) (h : string)
    (vs : option vertices) (fs : option faces) (c : color)
    (colors : list rgba) : list mesh :=
  match vs, fs with
  | Some vs, Some fs =>
      let vs := match offset with
                | Some o => offset_hemi L vs h (Some o)
                | None => vs
                end in
      let x := map (fun v => fst (fst v)) vs in
      let y := map (fun v => snd (fst v)) vs in
      let z := map snd vs in
      [Mesh x y z fs c None;
       Mesh x y z fs (ColorArray colors) (Some overlay_material)]
  | _, _ => []
  end.

(** The figure that lines 458-459 and 485-488 create. *)
Definition loop_figure (E : loop_env) : figure :=
  Figure (le_fig_w E) (le_fig_h E) true (Some 0%Z) [] true true None None
         false.

(** A figure after a hemisphere was drawn on it: the cortex [n] and the
    overlay [S n] are added, and the style and the camera are set. *)
Definition drawn_figure (background : string) (azim elev : Z) (n : nat)
    (f : figure) : figure :=
  Figure (f_width f) (f_height f) (f_lighting f) (f_animation f)
         (f_meshes f ++ [n; S n]) false false (Some background)
         (Some (azim, elev)) true.




(** The colours of hemisphere [h] in the figure loop. *)
Definition loop_colors (E : loop_env) (h : string) : list rgba :=
  cmap_apply (le_cmap E)
    (rescale (le_k E) (le_b E) (hemi_data h (le_n_lh E) (le_stc_data E))).

(** The cortex and the overlay that the loop draws for hemisphere [h]. *)
Definition loop_meshes (E : loop_env) (h : string) (vs : vertices)
    (fs : faces) (brain_color : color) : list mesh :=
  let vs := offset_hemi_default (le_lib E) vs h in
  let x := map (fun v => fst (fst v)) vs in
  let y := map (fun v => snd (fst v)) vs in
  let z := map snd vs in
  [Mesh x y z fs brain_color None;
   Mesh x y z fs (ColorArray (loop_colors E h)) (Some overlay_material)].

(** The meshes that the loop draws for hemisphere [h]: the cortex, coloured
    by the curvature read from 'surf/h.curv', and the overlay. *)
Definition hemi_scene (E : loop_env) (h : string) : list mesh :=
  match dict_get (le_hemi_vertices E) h, dict_get (le_hemi_faces E) h,
        read_morph (le_lib E)
          (path_join (le_lib E) (le_subjects_dir E) (le_subject E)
                     ("surf/" +:+ h +:+ ".curv")) with
  | Some (Some vs), Some (Some fs), Ok brain_color =>
      loop_meshes E h vs fs brain_color
  | _, _, _ => []
  end.

(** Hemisphere [h] has data and geometry: the loop draws it. *)
Definition drawable (E : loop_env) (h : string) : Prop :=
  (0 < length (hemi_data h (le_n_lh E) (le_stc_data E)))%nat /\
  (exists vs, dict_get (le_hemi_vertices E) h = Some (Some vs)) /\
  (exists fs, dict_get (le_hemi_faces E) h = Some (Some fs)).

(** What [hemi_meshes] holds during the loop: under a key made of a
    hemisphere of the loop and a view, an overlay with the colours of this
    hemisphere; no overlay is under two keys. *)
Definition booked (E : loop_env) (hm : gmap string (option nat))
    (ms : list mesh) : Prop :=
  (forall key om, hm !! key = Some om ->
     exists h view m,
       key = mesh_key h view /\ In h (le_hemis E) /\ om = Some m /\
       m_color <$> ms !! m = Some (ColorArray (loop_colors E h))) /\
  (forall key key' m,
     hm !! key = Some (Some m) -> hm !! key' = Some (Some m) -> key = key').

(** The closure of the two handlers. *)
Definition closure_of (L : lib) (a : args) (s : setup)
    (hemi_meshes : gmap string (option nat)) : closure :=
  Closure L (s_stc s) (s_morph_mat s) (s_n_lh s) (s_views s) (s_hemis s)
          hemi_meshes (s_time_label s) (s_times s) (s_lim_cmap s) (a_alpha a).

(** The widget that shows an entry of [figs] in the container. *)
Definition entry_widget (entry : fig_entry) : widget :=
  match entry with
  | OneFig fig => FigureW fig
  | FigRow figs_row => HBox (map FigureW figs_row)
  end.

(** The viewer after [on_update] accepted the entered values. *)
Definition updated_viewer (v : viewer) (cb : colorbar) : viewer :=
  let cl := v_env v in
  let ctrl_pts := Pts (cb_fmin cb) (cb_fmid cb) (cb_fmax cb) in
  let dt_min := if is_str (cl_lim_cmap cl) then cb_fmin cb else - cb_fmax cb in
  let scale_pts := if is_str (cl_lim_cmap cl) then ctrl_pts
                   else Pts (- cb_fmax cb) 0 (cb_fmax cb) in
  let cmap := _calculate_cmap (cl_lib cl) (cl_lim_cmap cl) (cl_alpha cl)
                              ctrl_pts scale_pts in
  let k := 1 / (cb_fmax cb - dt_min) in
  let b := 1 - k * cb_fmax cb in
  let heat := HeatMap (cb_ticks cb) (cb_color cb)
                      (colorbar_colors cmap (cb_data cb) (cb_bg_color cb)) in
  Viewer cl cmap k b (v_label v) (v_slider v) (Some (set_marks [heat] cb)).

(** ** A small concrete setting, to run the model on *)

Module Demo.

(** A colour map that shows the float it is called on in every channel. *)
Definition probe_cmap : colormap :=
  Colormap 4 (fun x => RGBA x x x x) (fun i => RGBA (Qnat i) 0 0 1).

(** Two source vertices and three time samples. *)
Definition stc : source_estimate :=
  SourceEstimate (Some "sample") [0; 1 # 10; 2 # 10]
                 [[0; 2; 4]; [1; 3; 5]] [[0%nat]; [0%nat]].

Definition triangle : vertices := [(0, 0, 0)].

(** One vertex per hemisphere, identity morphing, limits (1, 2, 3); the
    colour map is the string 'hot' unless 'mne' is asked for. *)
Definition L : lib :=
  Lib (fun d => Ok (default "/subjects" d))
      (fun from_stc given =>
         match given, from_stc with
         | Some s, _ => Ok s
         | None, Some s => Ok s
         | None, None => Raise ValueError
         end)
      (fun tl _ times =>
         Ok (match tl with TLStr "auto" => TLStr "time=%0.2f ms" | _ => tl end,
             times))
      (fun _ _ name tr =>
         if String.eqb name "mne"
         then Ok (Pts 1 2 3, CmapObj probe_cmap, Pts (-3) 0 3, tr)
         else Ok (Pts 1 2 3, CmapName "hot", Pts 1 2 3, tr))
      (fun _ _ _ _ _ _ => Ok (fun column => column))
      (fun _ => Ok (Some triangle, Some [(0, 0, 0)%nat]))
      (fun _ => Ok (ColorGrey [1 # 2]))
      (fun vs _ _ => vs)
      (fun vs _ => vs)
      (fun _ alpha ctrl_pts scale_pts =>
         Colormap 4 (fun x => RGBA x (pts0 ctrl_pts) (pts2 scale_pts) alpha)
                  (fun i => RGBA (Qnat i) 0 0 1))
      (fun _ => probe_cmap)
      (fun rows => Colormap (length rows) (fun x => RGBA x x x x)
                            (fun i => nth i rows (RGBA 0 0 0 0)))
      (fun a b c => a +:+ "/" +:+ b +:+ "/" +:+ c)
      (fun fmt _ => fmt)
      (fun s => s).

Definition a0 : args :=
  Args (IsSourceEstimate stc) None "inflated" "both" (ColormapStr "hot")
       (TLStr "auto") 10 None 1 false None None (ViewsSeq ["lat"; "med"])
       false ClimAuto (CortexStr "classic") (SizeInt 800) "black" None None
       "s".

Definition with_viewer (time_viewer colorbar : bool) (a : args) : args :=
  Args (a_stc a) (a_subject a) (a_surface a) (a_hemi a) (a_colormap a)
       (a_time_label a) (a_smoothing_steps a) (a_transparent a) (a_alpha a)
       time_viewer (a_subjects_dir a) (a_figure a) (a_views a) colorbar
       (a_clim a) (a_cortex a) (a_size a) (a_background a) (a_foreground a)
       (a_initial_time a) (a_time_unit a).

Definition with_hemi_cortex (hemi : string) (cortex : cortex_arg) (a : args)
  : args :=
  Args (a_stc a) (a_subject a) (a_surface a) hemi (a_colormap a)
       (a_time_label a) (a_smoothing_steps a) (a_transparent a) (a_alpha a)
       (a_time_viewer a) (a_subjects_dir a) (a_figure a) (a_views a)
       (a_colorbar a) (a_clim a) cortex (a_size a) (a_background a)
       (a_foreground a) (a_initial_time a) (a_time_unit a).

Definition with_colormap (c : colormap_arg) (a : args) : args :=
  Args (a_stc a) (a_subject a) (a_surface a) (a_hemi a) c
       (a_time_label a) (a_smoothing_steps a) (a_transparent a) (a_alpha a)
       (a_time_viewer a) (a_subjects_dir a) (a_figure a) (a_views a)
       (a_colorbar a) (a_clim a) (a_cortex a) (a_size a) (a_background a)
       (a_foreground a) (a_initial_time a) (a_time_unit a).

Definition with_views (views : list string) (a : args) : args :=
  Args (a_stc a) (a_subject a) (a_surface a) (a_hemi a) (a_colormap a)
       (a_time_label a) (a_smoothing_steps a) (a_transparent a) (a_alpha a)
       (a_time_viewer a) (a_subjects_dir a) (a_figure a) (ViewsSeq views)
       (a_colorbar a) (a_clim a) (a_cortex a) (a_size a) (a_background a)
       (a_foreground a) (a_initial_time a) (a_time_unit a).

Definition w0 : world := World [] None [] [] false None.

(** The world after a plot with the time viewer and the colour bar. *)
Definition w_hot : world :=
  snd (plot_source_estimates L (with_viewer true true a0) w0).
Definition w_mne : world :=
  snd (plot_source_estimates L
         (with_colormap (ColormapStr "mne") (with_viewer true true a0)) w0).

(** The world after a plot with the time viewer and without the colour
    bar, and the same with the view 'lat' requested twice. *)
Definition w_slider : world :=
  snd (plot_source_estimates L (with_viewer true false a0) w0).
Definition a_twice : args :=
  with_views ["lat"; "lat"] (with_viewer true false a0).
Definition w_twice : world := snd (plot_source_estimates L a_twice w0).

(** The viewer of a world that has one (the first argument otherwise). *)
Definition no_viewer : viewer :=
  Viewer (Closure L stc (fun column => column) 0 [] [] ∅ TLNone []
                  (CmapName "hot") 1)
         probe_cmap 0 0 "" 0 None.
Definition no_colorbar : colorbar :=
  Colorbar [] [] [] [] 0 0 0 0 0 [].
Definition viewer_of (w : world) : viewer := default no_viewer (w_viewer w).
Definition colorbar_of (w : world) : colorbar :=
  default no_colorbar (v_cbar (viewer_of w)).

(** The user types thresholds in the wrong order, then, with the 'mne'
    colour map, thresholds that end at zero. *)
Definition w_wrong_order : world := snd (enter_thresholds 3 2 1 w_hot).
Definition w_zero_fmax : world :=
  snd (enter_thresholds (-2) (-1) 0 w_mne).

(** Activation data, vertices and faces for [plot_brain_mesh]. *)
Definition brain : brain_args :=
  BrainArgs (Some triangle) (Some triangle) (Some [(0, 0, 0)%nat])
            (Some [(0, 0, 0)%nat]) (ColorName "grey") (ColorName "grey")
            (Some [0; 4]) "hot" (Some 0) (500, 500)%Z 90 90.
Definition brain_right_only : brain_args :=
  BrainArgs (Some triangle) None (Some [(0, 0, 0)%nat]) None
            (ColorName "grey") (ColorName "grey")
            (Some [0; 4]) "hot" (Some 0) (500, 500)%Z 90 90.

End Demo.

(** ** Further settings, made from the first one *)

Module Scenes.

(** What [prepare] returns for the library of [Demo]. *)
Definition no_setup : setup :=
  Setup Demo.stc [] "" "" "" 0 TLNone [] [] [] 0 (fun column => column) []
        0 0 (Pts 0 0 0) (CmapName "") (Pts 0 0 0) Demo.probe_cmap 0 0 0 0
        [] "".
Definition setup_of (a : args) : setup :=
  match prepare Demo.L a with
  | Ok s => s
  | Raise _ => no_setup
  end.

(** The plot of [Demo] with the time viewer, then with 'split', with one
    hemisphere and with no label. *)
Definition a_viewer : args := Demo.with_viewer true false Demo.a0.
Definition a_left : args :=
  Demo.with_hemi_cortex "lh" (CortexStr "classic") Demo.a0.

(** [plot_brain_mesh] without activation data. *)
Definition brain_no_data : brain_args :=
  BrainArgs (Some Demo.triangle) (Some Demo.triangle) (Some [(0, 0, 0)%nat])
            (Some [(0, 0, 0)%nat]) (ColorName "grey") (ColorName "grey")
            None "auto" (Some 0) (500, 500)%Z 90 90.

(** A colour map of one colour. *)
Definition flat_cmap : colormap :=
  Colormap 4 (fun _ => RGBA 1 (1 # 2) 0 (1 # 2)) (fun _ => RGBA 1 (1 # 2) 0 1).


(** The library of [Demo] with a colour map whose channels stay within
    [0, 1], as those of matplotlib do, and the plot with the time viewer and
    the colour bar. *)
Definition L_unit : lib :=
  Lib (get_subjects_dir Demo.L) (_check_subject Demo.L) (_handle_time Demo.L)
      (_limits_to_control_points Demo.L) (compute_morph_matrix Demo.L)
      (read_brain_mesh Demo.L) (read_morph Demo.L) (offset_hemi Demo.L)
      (offset_hemi_default Demo.L)
      (fun _ alpha _ _ =>
         Colormap 4 (fun x => RGBA (clip1 0 1 x) (1 # 2) (1 # 4) alpha)
                  (fun i => RGBA (Qnat i / 4) 0 0 1))
      (cm_get_cmap Demo.L) (ListedColormap Demo.L) (path_join Demo.L)
      (str_mod Demo.L) (capitalize Demo.L).
Definition w_bar : world :=
  snd (plot_source_estimates L_unit (Demo.with_viewer true true Demo.a0)
                             Demo.w0).

End Scenes.

(** * Properties *)

(** ** Comparisons *)

Lemma Qltb_lt x y : Qltb x y = true <-> x < y.
Proof.
  unfold Qltb. rewrite negb_true_iff. split.
  - intros H. apply Qnot_le_lt. intros Hle.
    apply Qle_bool_iff in Hle. congruence.
  - intros H. destruct (Qle_bool y x) eqn:E; [|reflexivity].
    apply Qle_bool_iff in E. apply Qle_not_lt in E. contradiction.
Qed.

Lemma Qltb_ge x y : Qltb x y = false <-> y <= x.
Proof.
  unfold Qltb. rewrite negb_false_iff. apply Qle_bool_iff.
Qed.


Lemma Qleb_gt x y : Qleb x y = false <-> y < x.
Proof.
  unfold Qleb. split.
  - intros H. apply Qnot_le_lt. intros Hle.
    apply Qle_bool_iff in Hle. congruence.
  - intros H. destruct (Qle_bool x y) eqn:E; [|reflexivity].
    apply Qle_bool_iff in E. apply Qle_not_lt in E. contradiction.
Qed.


(** ** Loops that write one array entry per index *)

Section PointwiseLoop.
Variable body : list Q -> nat -> list Q.
Variable val : nat -> Q -> Q.
Hypothesis body_length : forall l i, length (body l i) = length l.
Hypothesis body_other :
  forall l i j, j <> i -> body l i !! j = l !! j.
Hypothesis body_at :
  forall l i x, l !! i = Some x -> body l i !! i = Some (val i x).

Lemma fold_left_pointwise len : forall s l i x,
  l !! i = Some x ->
  fold_left body (seq s len) l !! i
  = Some (if decide (s <= i < s + len)%nat then val i x else x).
Proof using body_other body_at.
  induction len as [|len IH]; intros s l i x Hx; simpl.
  - rewrite Hx. case_decide; [lia | reflexivity].
  - destruct (decide (i = s)) as [->|Hne].
    + rewrite (IH (S s) (body l s) s (val s x)) by (apply body_at; exact Hx).
      repeat case_decide; try lia. reflexivity.
    + rewrite (IH (S s) (body l s) i x)
        by (rewrite body_other by exact Hne; exact Hx).
      repeat case_decide; try lia; reflexivity.
Qed.
End PointwiseLoop.

Lemma repeat_lookup {A} (x : A) n i : (i < n)%nat -> repeat x n !! i = Some x.
Proof.
  revert i. induction n as [|n IH]; intros [|i] H; simpl; try lia; auto.
  apply IH. lia.
Qed.

Lemma Qnat_pos n : (0 < n)%nat -> 0 < Qnat n.
Proof.
  intros H. unfold Qnat. change 0 with (inject_Z 0).
  rewrite <- Zlt_Qlt. lia.
Qed.

Lemma insert_cases (l : list Q) i j v x :
  l !! j = Some x ->
  <[i := v]> l !! j = Some (if decide (i = j) then v else x).
Proof.
  intros H. case_decide as E.
  - subst. apply list_lookup_insert_eq. eapply lookup_lt_Some; eauto.
  - rewrite list_lookup_insert_ne by exact E. exact H.
Qed.

(** The value the 'hot' loop leaves in entry [i]. *)
Lemma hot_alphas_lookup N ctrl_pts scale_pts i :
  (i < N)%nat ->
  Alpha.hot_alphas N ctrl_pts scale_pts !! i
  = Some (let step := pts_last scale_pts / Qnat N in
          let k := 1 / (pts1 ctrl_pts - pts0 ctrl_pts) in
          let b := - pts0 ctrl_pts * k in
          let curr_pos := Qnat i * step in
          if Qltb curr_pos (pts0 ctrl_pts) then 0
          else if Qleb (pts0 ctrl_pts) curr_pos
                  && Qltb curr_pos (pts1 ctrl_pts)
               then k * curr_pos + b else 1).
Proof.
  intros Hi. unfold Alpha.hot_alphas. cbv zeta.
  set (val := fun (i : nat) (x : Q) =>
       if Qltb (Qnat i * (pts_last scale_pts / Qnat N)) (pts0 ctrl_pts) then 0
       else if Qleb (pts0 ctrl_pts) (Qnat i * (pts_last scale_pts / Qnat N))
               && Qltb (Qnat i * (pts_last scale_pts / Qnat N)) (pts1 ctrl_pts)
            then 1 / (pts1 ctrl_pts - pts0 ctrl_pts)
                 * (Qnat i * (pts_last scale_pts / Qnat N))
                 + - pts0 ctrl_pts * (1 / (pts1 ctrl_pts - pts0 ctrl_pts))
            else x).
  assert (Hother : forall l a j, j <> a ->
            Alpha.hot_body N ctrl_pts scale_pts l a !! j = l !! j).
  { intros l a j Hne. unfold Alpha.hot_body. cbv zeta.
    repeat case_match; try reflexivity;
      apply list_lookup_insert_ne; congruence. }
  assert (Hat : forall l a x, l !! a = Some x ->
            Alpha.hot_body N ctrl_pts scale_pts l a !! a = Some (val a x)).
  { intros l a x Hx. unfold Alpha.hot_body, val. cbv zeta.
    repeat case_match; try exact Hx;
      apply list_lookup_insert_eq; eapply lookup_lt_Some; eauto. }
  rewrite (fold_left_pointwise _ val Hother Hat N 0 (repeat 1 N) i 1)
    by (apply repeat_lookup, Hi).
  case_decide; [reflexivity | lia].
Qed.

Lemma set_alpha_column_row rows alphas i c a :
  rows !! i = Some c -> alphas !! i = Some a ->
  set_alpha_column rows alphas !! i = Some (RGBA (c_r c) (c_g c) (c_b c) a).
Proof.
  intros Hc Ha. unfold set_alpha_column.
  rewrite lookup_zip_with, Hc. simpl. rewrite Ha. reflexivity.
Qed.

Lemma table_rows_lookup (cm : colormap) i :
  (i < cm_N cm)%nat ->
  map (cm_index cm) (seq 0 (cm_N cm)) !! i = Some (cm_index cm i).
Proof.
  intros Hi. rewrite list_lookup_fmap, lookup_seq_lt by exact Hi. reflexivity.
Qed.

Lemma hot_body_length N c s l i : length (Alpha.hot_body N c s l i) = length l.
Proof.
  unfold Alpha.hot_body. cbv zeta.
  repeat case_match; rewrite ?length_insert; reflexivity.
Qed.


Lemma fold_left_length {A B} (f : list A -> B -> list A) :
  (forall l i, length (f l i) = length l) ->
  forall xs l, length (fold_left f xs l) = length l.
Proof.
  intros Hf. induction xs as [|x xs IH]; intros l; simpl; [reflexivity|].
  rewrite IH. apply Hf.
Qed.

Lemma hot_alphas_length N c s : length (Alpha.hot_alphas N c s) = N.
Proof.
  unfold Alpha.hot_alphas. cbv zeta.
  rewrite fold_left_length by apply hot_body_length. apply repeat_length.
Qed.


Lemma alpha_table_length (cm : colormap) (alphas : list Q) :
  length alphas = cm_N cm ->
  length (set_alpha_column (map (cm_index cm) (seq 0 (cm_N cm))) alphas)
  = cm_N cm.
Proof.
  intros H. unfold set_alpha_column.
  rewrite length_zip_with, length_map, length_seq, H. lia.
Qed.

(** The ramp of the 'hot' colour map, in exact arithmetic.  With
    [ctrl_pts[0] < ctrl_pts[1]], the table that [plot_brain_mesh] hands to
    [ListedColormap] when [rgb_cmap] is a string has the rows of
    [cm.get_cmap(rgb_cmap)] with a new alpha: row [i], at position
    [p = i * scale_pts[-1] / N], gets alpha 0 when [p < ctrl_pts[0]], the
    linear ramp [(p - ctrl_pts[0]) / (ctrl_pts[1] - ctrl_pts[0])] when
    [ctrl_pts[0] <= p < ctrl_pts[1]] and 1 when [p >= ctrl_pts[1]]. *)
Lemma hot_alpha_ramp (L : lib) (name : string) (ctrl_pts scale_pts : pts)
    (i : nat) :
  pts0 ctrl_pts < pts1 ctrl_pts ->
  (i < cm_N (cm_get_cmap L name))%nat ->
  let rgb_cmap := cm_get_cmap L name in
  let N := cm_N rgb_cmap in
  let p := Qnat i * pts_last scale_pts / Qnat N in
  exists table a,
    brain_cmap L ctrl_pts scale_pts (CmapName name) = ListedColormap L table /\
    length table = N /\
    table !! i = Some (RGBA (c_r (cm_index rgb_cmap i))
                            (c_g (cm_index rgb_cmap i))
                            (c_b (cm_index rgb_cmap i)) a) /\
    Alpha.hot_alphas N ctrl_pts scale_pts !! i = Some a /\
    (p < pts0 ctrl_pts -> a == 0) /\
    (pts0 ctrl_pts <= p < pts1 ctrl_pts ->
       a == (p - pts0 ctrl_pts) / (pts1 ctrl_pts - pts0 ctrl_pts)) /\
    (pts1 ctrl_pts <= p -> a == 1).
Proof.
  intros Hc Hi rgb_cmap N p. eexists. eexists.
  split; [reflexivity|].
  split; [apply alpha_table_length, hot_alphas_length|].
  split.
  { apply set_alpha_column_row;
      [apply table_rows_lookup, Hi | apply hot_alphas_lookup, Hi]. }
  split; [apply hot_alphas_lookup, Hi|].
  cbv zeta. fold rgb_cmap N.
  assert (HN : ~ Qnat N == 0).
  { intros E. pose proof (Qnat_pos N ltac:(unfold N, rgb_cmap; lia)) as HP.
    rewrite E in HP. apply Qlt_irrefl in HP. exact HP. }
  assert (Hd : ~ pts1 ctrl_pts - pts0 ctrl_pts == 0) by (intros E; lra).
  assert (Hp : Qnat i * (pts_last scale_pts / Qnat N) == p)
    by (unfold p; field; exact HN).
  set (q := Qnat i * (pts_last scale_pts / Qnat N)) in *.
  assert (Hramp : 1 / (pts1 ctrl_pts - pts0 ctrl_pts) * q
                  + - pts0 ctrl_pts * (1 / (pts1 ctrl_pts - pts0 ctrl_pts))
                  == (p - pts0 ctrl_pts) / (pts1 ctrl_pts - pts0 ctrl_pts))
    by (rewrite Hp; field; exact Hd).
  destruct (Qltb q (pts0 ctrl_pts)) eqn:E1.
  - apply Qltb_lt in E1. rewrite Hp in E1.
    repeat split; intros; try lra.
  - apply Qltb_ge in E1. rewrite Hp in E1.
    destruct (Qleb (pts0 ctrl_pts) q) eqn:E2;
      [|apply Qleb_gt in E2; rewrite Hp in E2; lra].
    destruct (Qltb q (pts1 ctrl_pts)) eqn:E3; simpl.
    + apply Qltb_lt in E3. rewrite Hp in E3.
      repeat split; intros; try lra; exact Hramp.
    + apply Qltb_ge in E3. rewrite Hp in E3.
      repeat split; intros; try lra.
Qed.

(** C3 fails on the code in its last part, that every alpha lies in
    [0, 1].  The loop of lines 105-111 works on doubles, and just below
    [ctrl_pts[1]] the rounded ramp [k * curr_pos + b] can exceed 1; line 132
    calls [np.clip(alphas, 0, 1)] and drops the array it returns.  With
    [ctrl_pts = scale_pts = (2.9180340276239765, 31.15327363871206,
    46.63881901468004)] and the 256 entries of 'hot', entry 171 lies in the
    ramp branch and gets the alpha 1.0000000000000002; the clipped array,
    which is not used, holds 1 there. *)
Theorem hot_alpha_above_one :
  let c := AlphaF.Pts 0x1.75822396a14c4p+1 0x1.f273cf0f19b73p+4
                      0x1.751c4d24c0e8ep+5 in
  let curr_pos := (AlphaF.of_nat 171 * (AlphaF.pts_last c / AlphaF.of_nat 256))%float in
  let alphas := AlphaF.hot_alphas 256 c c in
  (AlphaF.pts0 c <? AlphaF.pts1 c)%float = true /\
  (AlphaF.pts0 c <=? curr_pos)%float = true /\
  (curr_pos <? AlphaF.pts1 c)%float = true /\
  alphas !! 171%nat = Some 0x1.0000000000001p+0%float /\
  (1 <? 0x1.0000000000001p+0)%float = true /\
  AlphaF.np_clip alphas 0 1 !! 171%nat = Some 1%float /\
  Forall (fun a => (0 <=? a)%float && (a <=? 1)%float = true)
         (AlphaF.np_clip alphas 0 1).
Proof.
  vm_compute. repeat split. repeat constructor.
Qed.




(** ** The monad *)

Lemma bind_ok {A B} (c : M A) (k : A -> M B) w a w1 :
  c w = (Ok a, w1) -> bind c k w = k a w1.
Proof. intros H. unfold bind. rewrite H. reflexivity. Qed.

Lemma bind_raise {A B} (c : M A) (k : A -> M B) w e w1 :
  c w = (Raise e, w1) -> bind c k w = (Raise e, w1).
Proof. intros H. unfold bind. rewrite H. reflexivity. Qed.

Lemma bind_inv {A B} (c : M A) (k : A -> M B) w b w' :
  bind c k w = (Ok b, w') ->
  exists a w1, c w = (Ok a, w1) /\ k a w1 = (Ok b, w').
Proof.
  unfold bind. destruct (c w) as [[a|e] w1]; intros H; [eauto | discriminate].
Qed.

(** ** Recolouring the meshes *)

Lemma in_loop_pairs views hemis view h :
  In (view, h) (loop_pairs views hemis) <-> In view views /\ In h hemis.
Proof.
  unfold loop_pairs. rewrite in_flat_map. split.
  - intros (v' & Hv & Hin). apply in_map_iff in Hin as (h' & E & Hh).
    inversion E; subst. auto.
  - intros [Hv Hh]. exists view. split; [exact Hv|].
    apply in_map_iff. eauto.
Qed.

Lemma paint_paint c c' (o : option mesh) :
  paint c <$> (paint c' <$> o) = paint c <$> o.
Proof. destruct o; reflexivity. Qed.

Lemma Painted_nil v sd ms : Painted v sd [] ms ms.
Proof. split; [reflexivity|]. intros m. right. split; [intros ? ? []|reflexivity]. Qed.

Lemma Painted_one v sd view h m ms :
  cl_hemi_meshes (v_env v) !! mesh_key h view = Some (Some m) ->
  Painted v sd [(view, h)] ms (alter (paint (hemi_colors v sd h)) m ms).
Proof.
  intros Hm. split; [apply length_alter|]. intros m'.
  destruct (decide (m' = m)) as [->|Hne].
  - left. exists view, h. split; [left; reflexivity|]. split; [exact Hm|].
    apply list_lookup_alter_eq.
  - right. split.
    + intros view' h' [E|[]]. inversion E; subst. rewrite Hm. congruence.
    + apply list_lookup_alter_ne. congruence.
Qed.

Lemma Painted_app v sd ps1 ps2 ms ms1 ms2 :
  Painted v sd ps1 ms ms1 -> Painted v sd ps2 ms1 ms2 ->
  Painted v sd (ps1 ++ ps2) ms ms2.
Proof.
  intros [L1 P1] [L2 P2]. split; [congruence|]. intros m.
  destruct (P2 m) as [(view & h & Hin & Hk & E2) | [N2 E2]].
  - left. exists view, h. split; [apply in_or_app; auto|]. split; [exact Hk|].
    rewrite E2. destruct (P1 m) as [(? & ? & _ & _ & E1) | [_ E1]]; rewrite E1.
    + apply paint_paint.
    + reflexivity.
  - destruct (P1 m) as [(view & h & Hin & Hk & E1) | [N1 E1]].
    + left. exists view, h. split; [apply in_or_app; auto|]. split; [exact Hk|].
      congruence.
    + right. split; [|congruence].
      intros view h Hin. apply in_app_or in Hin as [Hin|Hin]; auto.
Qed.

Lemma recolor_run w v sd view h m :
  w_viewer w = Some v ->
  cl_hemi_meshes (v_env v) !! mesh_key h view = Some (Some m) ->
  recolor sd view h w
  = (Ok tt, set_meshes (alter (paint (hemi_colors v sd h)) m (w_meshes w)) w).
Proof.
  intros Hv Hm. unfold recolor, bind, get_viewer. rewrite Hv.
  unfold mesh_key in Hm. rewrite Hm. reflexivity.
Qed.

Lemma recolor_hemis v sd view : forall hs w,
  w_viewer w = Some v ->
  (forall h, In h hs ->
     exists m, cl_hemi_meshes (v_env v) !! mesh_key h view = Some (Some m)) ->
  exists ms',
    for_each hs (fun h _ => recolor sd view h) tt w = (Ok tt, set_meshes ms' w)
    /\ Painted v sd (map (fun h => (view, h)) hs) (w_meshes w) ms'.
Proof.
  induction hs as [|h hs IH]; intros w Hv Hk.
  - exists (w_meshes w). split; [destruct w; reflexivity | apply Painted_nil].
  - destruct (Hk h (or_introl eq_refl)) as [m Hm].
    destruct (IH (set_meshes (alter (paint (hemi_colors v sd h)) m (w_meshes w)) w))
      as (ms' & Hrun & Hp); [exact Hv | intros; apply Hk; right; assumption|].
    exists ms'. split.
    + simpl. erewrite bind_ok by (eapply recolor_run; eauto).
      rewrite Hrun. reflexivity.
    + change (map (fun h0 => (view, h0)) (h :: hs))
        with ([(view, h)] ++ map (fun h0 => (view, h0)) hs).
      eapply Painted_app; [apply Painted_one; exact Hm | exact Hp].
Qed.

Lemma recolor_views v sd hemis : forall views w,
  w_viewer w = Some v ->
  (forall view h, In view views -> In h hemis ->
     exists m, cl_hemi_meshes (v_env v) !! mesh_key h view = Some (Some m)) ->
  exists ms',
    recolor_all sd views hemis w = (Ok tt, set_meshes ms' w)
    /\ Painted v sd (loop_pairs views hemis) (w_meshes w) ms'.
Proof.
  induction views as [|view views IH]; intros w Hv Hk.
  - exists (w_meshes w). split; [destruct w; reflexivity | apply Painted_nil].
  - destruct (recolor_hemis v sd view hemis w Hv) as (ms1 & Hrun1 & Hp1).
    { intros h Hh. apply Hk; [left; reflexivity | exact Hh]. }
    destruct (IH (set_meshes ms1 w)) as (ms' & Hrun & Hp);
      [exact Hv | intros; apply Hk; [right|]; assumption|].
    exists ms'. split.
    + unfold recolor_all in *. simpl. erewrite bind_ok by exact Hrun1.
      rewrite Hrun. reflexivity.
    + unfold loop_pairs. simpl. eapply Painted_app; [exact Hp1 | exact Hp].
Qed.

(** After the two loops every mesh of a pair has the colours of its
    hemisphere, and a mesh of no pair is as it was. *)
Lemma recolor_all_spec w v sd :
  w_viewer w = Some v ->
  meshes_complete (v_env v) (length (w_meshes w)) ->
  exists ms',
    recolor_all sd (cl_views (v_env v)) (cl_hemis (v_env v)) w
    = (Ok tt, set_meshes ms' w) /\
    length ms' = length (w_meshes w) /\
    (forall view h m,
       In view (cl_views (v_env v)) -> In h (cl_hemis (v_env v)) ->
       cl_hemi_meshes (v_env v) !! mesh_key h view = Some (Some m) ->
       ms' !! m = paint (hemi_colors v sd h) <$> w_meshes w !! m
       /\ is_Some (ms' !! m)) /\
    (forall m,
       (forall view h,
          In view (cl_views (v_env v)) -> In h (cl_hemis (v_env v)) ->
          cl_hemi_meshes (v_env v) !! mesh_key h view <> Some (Some m)) ->
       ms' !! m = w_meshes w !! m).
Proof.
  intros Hv [Hall Huniq].
  destruct (recolor_views v sd (cl_hemis (v_env v)) (cl_views (v_env v)) w Hv)
    as (ms' & Hrun & Hlen & Hp).
  { intros view h Hvw Hh.
    destruct (Hall view h) as (m & Hm & _); [apply in_loop_pairs; auto|eauto]. }
  exists ms'. split; [exact Hrun|]. split; [exact Hlen|]. split.
  - intros view h m Hvw Hh Hm.
    assert (E : ms' !! m = paint (hemi_colors v sd h) <$> w_meshes w !! m).
    { destruct (Hp m) as [(view' & h' & Hin & Hk & E) | [N _]].
      - rewrite E.
        rewrite (Huniq view h view' h' m); auto. apply in_loop_pairs; auto.
      - exfalso. apply (N view h); [apply in_loop_pairs; auto | exact Hm]. }
    split; [exact E|]. rewrite E.
    destruct (Hall view h) as (m' & Hm' & Hlt); [apply in_loop_pairs; auto|].
    assert (m' = m) by congruence. subst m'.
    destruct (lookup_lt_is_Some_2 _ _ Hlt) as [x Hx]. rewrite Hx. eauto.
  - intros m Hno. destruct (Hp m) as [(view' & h' & Hin & Hk & _) | [_ E]].
    + apply in_loop_pairs in Hin as [? ?]. exfalso. eapply Hno; eauto.
    + exact E.
Qed.

(** ** The callbacks *)

Lemma data_column_ok stc t :
  (t < length (stc_times stc))%nat ->
  data_column stc t = Ok (map (fun row => nth t row 0) (stc_data stc)).
Proof.
  intros H. unfold data_column.
  destruct (Nat.ltb_spec t (length (stc_times stc))); [reflexivity | lia].
Qed.

(** C6, as the code has it: a move of the time slider to [t] recolours the
    meshes that [hemi_meshes] holds, one under each key [h_view]: the mesh
    of hemisphere [h] and view [view] keeps its geometry and its material
    and gets the current colour map applied to [k * data + b], where [data]
    is the part of hemisphere [h] of the morphed column [t] of the source
    estimate.  The label shows the time of sample [t].  Nothing else
    changes: the colour map, [k], [b], the slider value, the colour bar
    with its threshold inputs, the figures, the container and every mesh
    that is under no key of a requested view and hemisphere. *)
Theorem slider_handler_frame (w : world) (v : viewer) (t : nat) (x : Q)
    (txt : string) :
  w_viewer w = Some v ->
  meshes_complete (v_env v) (length (w_meshes w)) ->
  (t < length (stc_times (cl_stc (v_env v))))%nat ->
  cl_times (v_env v) !! t = Some x ->
  label_text (v_env v) x = Some txt ->
  let cl := v_env v in
  let stc_data :=
    cl_morph_mat cl (map (fun row => nth t row 0) (stc_data (cl_stc cl))) in
  exists w',
    slider_handler t w = (Ok tt, w') /\
    w_viewer w'
    = Some (Viewer cl (v_cmap v) (v_k v) (v_b v) txt (v_slider v) (v_cbar v)) /\
    w_figures w' = w_figures w /\
    w_current w' = w_current w /\
    w_children w' = w_children w /\
    w_shown w' = w_shown w /\
    length (w_meshes w') = length (w_meshes w) /\
    (forall view h m,
       In view (cl_views cl) -> In h (cl_hemis cl) ->
       cl_hemi_meshes cl !! (h +:+ "_" +:+ view) = Some (Some m) ->
       exists old,
         w_meshes w !! m = Some old /\
         w_meshes w' !! m
         = Some (Mesh (m_x old) (m_y old) (m_z old) (m_triangles old)
                   (ColorArray
                      (map (cm_call (v_cmap v))
                         (map (fun d => v_k v * d + v_b v)
                            (if String.eqb h "lh"
                             then take (cl_n_lh cl) stc_data
                             else drop (cl_n_lh cl) stc_data))))
                   (m_material old))) /\
    (forall m,
       (forall view h,
          In view (cl_views cl) -> In h (cl_hemis cl) ->
          cl_hemi_meshes cl !! (h +:+ "_" +:+ view) <> Some (Some m)) ->
       w_meshes w' !! m = w_meshes w !! m).
Proof.
  intros Hv Hc Ht Hx Htxt. cbv zeta.
  pose proof (data_column_ok _ _ Ht) as Hcol.
  set (column := map (fun row => nth t row 0) (stc_data (cl_stc (v_env v))))
    in *.
  destruct (recolor_all_spec w v (cl_morph_mat (v_env v) column) Hv Hc)
    as (ms' & Hrun & Hlen & Hpaint & Hframe).
  exists (set_viewer (Some (set_label txt v)) (set_meshes ms' w)).
  split.
  { unfold slider_handler.
    erewrite bind_ok by (unfold get_viewer; rewrite Hv; reflexivity).
    erewrite bind_ok by (unfold lift; rewrite Hcol; reflexivity).
    erewrite bind_ok by exact Hrun.
    unfold label_text in Htxt. unfold time_at, lift, bind, update_viewer, modify.
    destruct (cl_time_label (v_env v)); try discriminate;
      rewrite Hx; injection Htxt as <-; destruct w; simpl in *; subst;
      reflexivity. }
  do 5 (split; [reflexivity|]).
  split; [exact Hlen|]. split.
  - intros view h m Hview Hh Hm.
    destruct (Hpaint view h m Hview Hh Hm) as [E [new Hnew]].
    cbn [w_meshes set_viewer set_meshes].
    destruct (w_meshes w !! m) as [old|]; [|rewrite Hnew in E; discriminate].
    exists old. split; [reflexivity|]. exact E.
  - intros m Hno. apply Hframe. exact Hno.
Qed.

(** C5: when the three entered values are not in the order
    [fmin < fmid < fmax], a click on the update button raises [ValueError]
    and every part of the display is as before: the colour map, [k], [b],
    the colours of the meshes and the colour bar. *)
Theorem on_update_rejects (w : world) (v : viewer) (cb : colorbar) :
  w_viewer w = Some v ->
  v_cbar v = Some cb ->
  (v_slider v < length (stc_times (cl_stc (v_env v))))%nat ->
  ~ (cb_fmin cb < cb_fmid cb /\ cb_fmid cb < cb_fmax cb) ->
  on_update w = (Raise ValueError, w).
Proof.
  intros Hv Hcb Ht Hbad. unfold on_update.
  erewrite bind_ok by (unfold get_viewer; rewrite Hv; reflexivity).
  rewrite Hcb.
  erewrite bind_ok
    by (unfold lift; rewrite (data_column_ok _ _ Ht); reflexivity).
  cbn [pts0 pts1 pts2].
  destruct (Qltb (cb_fmin cb) (cb_fmid cb)) eqn:E1;
    destruct (Qltb (cb_fmid cb) (cb_fmax cb)) eqn:E2; try reflexivity.
  exfalso. apply Hbad. split; apply Qltb_lt; assumption.
Qed.

Lemma update_viewer_run (f : viewer -> viewer) w v :
  w_viewer w = Some v ->
  update_viewer f w = (Ok tt, set_viewer (Some (f v)) w).
Proof. intros H. unfold update_viewer, modify. rewrite H. reflexivity. Qed.

(** The entered values are accepted: the new colour map, the new
    coefficients, the new colours of the meshes and of the bar.  With the
    'mne' colour map the interval is [-fmax, fmax], of width zero when
    [fmax] is zero. *)
Lemma on_update_accepts (w : world) (v : viewer) (cb : colorbar) :
  w_viewer w = Some v ->
  v_cbar v = Some cb ->
  (v_slider v < length (stc_times (cl_stc (v_env v))))%nat ->
  meshes_complete (v_env v) (length (w_meshes w)) ->
  cb_fmin cb < cb_fmid cb -> cb_fmid cb < cb_fmax cb ->
  (is_str (cl_lim_cmap (v_env v)) = false -> ~ cb_fmax cb == 0) ->
  let cl := v_env v in
  let ctrl_pts := Pts (cb_fmin cb) (cb_fmid cb) (cb_fmax cb) in
  let dt_min := if is_str (cl_lim_cmap cl) then cb_fmin cb else - cb_fmax cb in
  let dt_max := cb_fmax cb in
  let scale_pts := if is_str (cl_lim_cmap cl) then ctrl_pts
                   else Pts (- cb_fmax cb) 0 (cb_fmax cb) in
  let cmap := _calculate_cmap (cl_lib cl) (cl_lim_cmap cl) (cl_alpha cl)
                              ctrl_pts scale_pts in
  let heat := HeatMap (cb_ticks cb) (cb_color cb)
                      (colorbar_colors cmap (cb_data cb) (cb_bg_color cb)) in
  exists column k b ms',
    data_column (cl_stc cl) (v_slider v) = Ok column /\
    let v' := Viewer cl cmap k b (v_label v) (v_slider v) (v_cbar v) in
    on_update w
    = (Ok tt, set_viewer (Some (set_cbar (Some (set_marks [heat] cb)) v'))
                (set_meshes ms' w)) /\
    k * dt_min + b == 0 /\
    k * dt_max + b == 1 /\
    length ms' = length (w_meshes w) /\
    (forall view h m,
       In view (cl_views cl) -> In h (cl_hemis cl) ->
       cl_hemi_meshes cl !! mesh_key h view = Some (Some m) ->
       ms' !! m
       = paint (hemi_colors v' (cl_morph_mat cl column) h) <$> w_meshes w !! m
       /\ is_Some (ms' !! m)) /\
    (forall m,
       (forall view h, In view (cl_views cl) -> In h (cl_hemis cl) ->
          cl_hemi_meshes cl !! mesh_key h view <> Some (Some m)) ->
       ms' !! m = w_meshes w !! m).
Proof.
  intros Hv Hcb Ht Hc H01 H12 Hmne. cbv zeta.
  pose proof (data_column_ok _ _ Ht) as Hcol.
  set (column := map (fun row => nth (v_slider v) row 0)
                     (stc_data (cl_stc (v_env v)))) in *.
  set (dt_min := if is_str (cl_lim_cmap (v_env v))
                 then cb_fmin cb else - cb_fmax cb).
  set (scale_pts := if is_str (cl_lim_cmap (v_env v))
                    then Pts (cb_fmin cb) (cb_fmid cb) (cb_fmax cb)
                    else Pts (- cb_fmax cb) 0 (cb_fmax cb)).
  set (cmap := _calculate_cmap _ _ _ _ scale_pts).
  assert (Hd : ~ cb_fmax cb - dt_min == 0).
  { unfold dt_min. destruct (is_str (cl_lim_cmap (v_env v))) eqn:Es.
    - intros E. lra.
    - intros E. apply Hmne; [reflexivity | lra]. }
  set (k := 1 / (cb_fmax cb - dt_min)).
  set (b := 1 - k * cb_fmax cb).
  set (v' := Viewer (v_env v) cmap k b (v_label v) (v_slider v) (v_cbar v)).
  destruct (recolor_all_spec (set_viewer (Some v') w) v'
              (cl_morph_mat (v_env v) column) eq_refl Hc)
    as (ms' & Hrun & Hlen & Hpaint & Hframe).
  exists column, k, b, ms'. split; [exact Hcol|].
  split; [|split; [|split; [|split; [exact Hlen |
                                     split; [exact Hpaint | exact Hframe]]]]].
  - unfold on_update.
    erewrite bind_ok by (unfold get_viewer; rewrite Hv; reflexivity).
    rewrite Hcb.
    erewrite bind_ok by (unfold lift; rewrite Hcol; reflexivity).
    cbn [pts0 pts1 pts2 pts_last].
    apply Qltb_lt in H01, H12. rewrite H01, H12. cbn [andb negb].
    assert (Hz : Qeq_bool (cb_fmax cb - dt_min) 0 = false).
    { destruct (Qeq_bool (cb_fmax cb - dt_min) 0) eqn:E; [|reflexivity].
      apply Qeq_bool_iff in E. contradiction. }
    assert (Hstep :
      (let* _ := update_viewer (set_cmap cmap) in
       if Qeq_bool (cb_fmax cb - dt_min) 0 then raise ZeroDivisionError
       else
         let k := 1 / (cb_fmax cb - dt_min) in
         let* _ := update_viewer (set_k k) in
         let b := 1 - k * cb_fmax cb in
         let* _ := update_viewer (set_b b) in
         let* _ := recolor_all (cl_morph_mat (v_env v) column)
                     (cl_views (v_env v)) (cl_hemis (v_env v)) in
         let colors := colorbar_colors cmap (cb_data cb) (cb_bg_color cb) in
         let heat := HeatMap (cb_ticks cb) (cb_color cb) colors in
         update_viewer (fun v => set_cbar (set_marks [heat] <$> v_cbar v) v)) w
      = (Ok tt,
         set_viewer
           (Some (set_cbar
                    (Some (set_marks
                             [HeatMap (cb_ticks cb) (cb_color cb)
                                (colorbar_colors cmap (cb_data cb)
                                                 (cb_bg_color cb))] cb)) v'))
           (set_meshes ms' w))).
    { erewrite bind_ok by (apply update_viewer_run; exact Hv).
      rewrite Hz. cbv zeta.
      erewrite bind_ok by (apply update_viewer_run; reflexivity).
      erewrite bind_ok by (apply update_viewer_run; reflexivity).
      erewrite bind_ok by exact Hrun.
      erewrite update_viewer_run by reflexivity.
      cbn [v_cbar v']. rewrite Hcb. reflexivity. }
    unfold dt_min, scale_pts, cmap in *.
    destruct (is_str (cl_lim_cmap (v_env v))); exact Hstep.
  - unfold b, k. field. exact Hd.
  - unfold b, k. field. exact Hd.
Qed.

(** ** ipyvolume's calls on a world with a current figure *)

Lemma gcf_update_run (g : figure -> figure) w c :
  w_current w = Some c ->
  (let* fig := ipv_gcf in update_figure fig g) w
  = (Ok tt, set_figures (alter g c (w_figures w)) w).
Proof.
  intros Hc. unfold bind, ipv_gcf, update_figure, modify. rewrite Hc.
  reflexivity.
Qed.

Lemma plot_trisurf_run x y z fs c w cur :
  w_current w = Some cur ->
  ipv_plot_trisurf x y z fs c w
  = (Ok (length (w_meshes w)),
     set_figures (alter (add_mesh (length (w_meshes w))) cur (w_figures w))
       (set_meshes (w_meshes w ++ [Mesh x y z fs c None]) w)).
Proof.
  intros Hc. unfold ipv_plot_trisurf, bind, ipv_gcf, get_world, update_figure,
    modify, ret. rewrite Hc. reflexivity.
Qed.

Lemma alter_last {A} (f : A -> A) (l : list A) (a b : A) :
  alter f (S (length l)) ((l ++ [a]) ++ [b]) = l ++ [a; f b].
Proof.
  rewrite <- app_assoc. simpl.
  rewrite alter_app_r_alt by lia.
  replace (S (length l) - length l)%nat with 1%nat by lia. reflexivity.
Qed.

(** [plot_hemisphere_mesh] with activation colours adds two meshes to the
    current figure: the cortex and, after it, the overlay. *)
Lemma plot_hemisphere_mesh_run vs fs c colors w cur :
  w_current w = Some cur ->
  let n := length (w_meshes w) in
  let x := map (fun v => fst (fst v)) vs in
  let y := map (fun v => snd (fst v)) vs in
  let z := map snd vs in
  plot_hemisphere_mesh vs fs c (Some colors) w
  = (Ok (n, Some (S n)),
     set_figures (alter (add_mesh (S n)) cur
                    (alter (add_mesh n) cur (w_figures w)))
       (set_meshes (w_meshes w ++ [Mesh x y z fs c None;
                                   Mesh x y z fs (ColorArray colors)
                                        (Some overlay_material)]) w)).
Proof.
  intros Hc. cbv zeta. unfold plot_hemisphere_mesh.
  erewrite bind_ok by (apply plot_trisurf_run; exact Hc).
  erewrite bind_ok by (apply plot_trisurf_run; exact Hc).
  unfold bind, set_material, modify, ret. cbn.
  rewrite length_app. cbn. rewrite Nat.add_1_r.
  rewrite alter_last. reflexivity.
Qed.

Lemma lookup_overlay (ms : list mesh) (a b : mesh) :
  (ms ++ [a; b]) !! S (length ms) = Some b.
Proof.
  rewrite lookup_app_r by lia.
  replace (S (length ms) - length ms)%nat with 1%nat by lia. reflexivity.
Qed.

Lemma lookup_overlay_before (ms : list mesh) (a b c d : mesh) :
  ((ms ++ [a; b]) ++ [c; d]) !! S (length ms) = Some b.
Proof.
  rewrite lookup_app_l by (rewrite length_app; simpl; lia).
  apply lookup_overlay.
Qed.

(** ** [plot_brain_mesh]: the split of the activation data *)

(** C8: [plot_brain_mesh] given activation data rescales it and splits it at
    [len(lh_vertices)]: the overlay of the left hemisphere gets the colours
    of the first [len(lh_vertices)] values, that of the right hemisphere
    the colours of the rest; when [lh_vertices] is [None] the split raises
    [TypeError], also when only the right hemisphere was given.  The
    colours are those of [k * act_data + b] when the data is not constant;
    constant data makes the divisor of line 139 zero, and numpy then fills
    the rescaled array with [nan]. *)
Theorem brain_mesh_split (L : lib) (a : brain_args) (act : list Q)
    (ctrl_pts scale_pts : pts) (rgb_cmap : lim_cmap) (tr : option bool)
    (dt_min dt_max : Q) :
  act_data a = Some act ->
  _limits_to_control_points L ClimAuto act (cmap_str a) (Some false)
  = Ok (ctrl_pts, rgb_cmap, scale_pts, tr) ->
  array_min act = Ok dt_min ->
  array_max act = Ok dt_max ->
  let cmap := brain_cmap L ctrl_pts scale_pts rgb_cmap in
  let k := 1 / (dt_max - dt_min) in
  let b := 1 - k * dt_max in
  let scaled := map (fun x => k * x + b) act in
  match lh_vertices a with
  | None =>
      forall w, exists w', plot_brain_mesh L a w = (Raise TypeError, w')
  | Some lh =>
      let lh_colors := cmap_apply cmap (take (length lh) scaled) in
      let rh_colors := cmap_apply cmap (drop (length lh) scaled) in
      (~ dt_max - dt_min == 0 ->
       brain_act_colors L a = Ok (Some rh_colors, Some lh_colors)) /\
      forall w, exists fig rh_mesh lh_mesh w',
        plot_brain_mesh L a w = (Ok (fig, rh_mesh, lh_mesh), w') /\
        (forall fs, lh_faces a = Some fs ->
           exists m, lh_mesh = Some m /\
             (~ dt_max - dt_min == 0 ->
              m_color <$> w_meshes w' !! S m = Some (ColorArray lh_colors))) /\
        (forall vs fs, rh_vertices a = Some vs -> rh_faces a = Some fs ->
           exists m, rh_mesh = Some m /\
             (~ dt_max - dt_min == 0 ->
              m_color <$> w_meshes w' !! S m = Some (ColorArray rh_colors)))
  end.
Proof.
  intros Hact Hlim Hmin Hmax. cbv zeta.
  assert (Hcolors : brain_act_colors L a
    = match lh_vertices a with
      | None => Raise TypeError
      | Some lh =>
          Ok (Some (cmap_apply (brain_cmap L ctrl_pts scale_pts rgb_cmap)
                      (drop (length lh)
                         (map (fun x => 1 / (dt_max - dt_min) * x
                                        + (1 - 1 / (dt_max - dt_min) * dt_max))
                              act))),
              Some (cmap_apply (brain_cmap L ctrl_pts scale_pts rgb_cmap)
                      (take (length lh)
                         (map (fun x => 1 / (dt_max - dt_min) * x
                                        + (1 - 1 / (dt_max - dt_min) * dt_max))
                              act))))
      end).
  { unfold brain_act_colors. rewrite Hact, Hlim, Hmin, Hmax.
    destruct (lh_vertices a); reflexivity. }
  destruct (lh_vertices a) as [lh|] eqn:Hlh.
  - split; [intros _; exact Hcolors|]. intros w.
    unfold plot_brain_mesh.
    erewrite bind_ok by reflexivity.
    erewrite bind_ok by (unfold lift; rewrite Hcolors; reflexivity).
    rewrite Hlh.
    set (w1 := set_current _ _).
    assert (Hc1 : w_current w1 = Some (length (w_figures w))) by reflexivity.
    destruct (rh_vertices a) as [rv|], (rh_faces a) as [rf|],
             (lh_faces a) as [lf|];
      repeat first
        [ erewrite bind_ok by (erewrite bind_ok
            by (apply plot_hemisphere_mesh_run; reflexivity); reflexivity)
        | erewrite bind_ok by reflexivity ];
      unfold ipv_style_box_off, ipv_style_axes_off, ipv_style_background_color,
        ipv_view, ipv_squarelim;
      repeat (erewrite bind_ok by (apply gcf_update_run; reflexivity));
      unfold ipv_show, modify, bind, ret;
      do 4 eexists; (split; [reflexivity|]);
      (split; [intros ? E | intros ? ? E1 E2]); try discriminate;
      eexists; (split; [reflexivity|]); intros _; cbn;
      first [ rewrite lookup_overlay_before | rewrite lookup_overlay ];
      reflexivity.
  - intros w. unfold plot_brain_mesh.
    erewrite bind_ok by reflexivity.
    erewrite bind_raise by (unfold lift; rewrite Hcolors; reflexivity).
    eauto.
Qed.

(** ** [plot_source_estimates]: the checks of the arguments *)

Lemma check_views_cons v views :
  check_views (v :: views)
  = match dict_get views_dict v with
    | Some _ => check_views views
    | None => Raise ValueError
    end.
Proof. reflexivity. Qed.

Lemma check_views_bad views :
  (exists view, In view views /\ dict_get views_dict view = None) ->
  check_views views = Raise ValueError.
Proof.
  induction views as [|v views IH]; intros (view & Hin & Hbad).
  - destruct Hin.
  - rewrite check_views_cons.
    destruct (dict_get views_dict v) eqn:E; [|reflexivity].
    apply IH. destruct Hin as [->|Hin]; [congruence | eauto].
Qed.

Lemma check_views_result views :
  check_views views = Ok tt \/ check_views views = Raise ValueError.
Proof.
  induction views as [|v views IH]; [left; reflexivity|].
  rewrite check_views_cons. destruct (dict_get views_dict v); auto.
Qed.

Lemma plot_raises_in_prepare L a w e :
  prepare L a = Raise e -> plot_source_estimates L a w = (Raise e, w).
Proof.
  intros H. unfold plot_source_estimates.
  apply bind_raise. unfold lift. rewrite H. reflexivity.
Qed.

(** C9: every check of the arguments comes before the first figure or
    widget, so a call with a bad argument raises and leaves the world as it
    was.  With the earlier checks passed, a [stc] that is no source
    estimate, a view outside the eight names and a bad [hemi] raise
    [ValueError]; a [colormap] that is no string, a [cortex] other than
    'classic' and a given [figure] raise [NotImplementedError].  The checks
    run in the order [stc], [views], the look-up of the subjects directory
    and of the subject, [colormap], [cortex], [figure], [hemi]. *)
Theorem validation_first_failure (L : lib) (a : args) (w : world) :
  (a_stc a = NotSourceEstimate \/
   (exists view, In view (views_of a) /\ dict_get views_dict view = None) \/
   (exists table, a_colormap a = ColormapArray table) \/
   cortex_is_classic (a_cortex a) = false \/
   is_Some (a_figure a) \/
   str_in (a_hemi a) ["lh"; "rh"; "split"; "both"] = false ->
   exists e, plot_source_estimates L a w = (Raise e, w)) /\
  (a_stc a = NotSourceEstimate ->
   plot_source_estimates L a w = (Raise ValueError, w)) /\
  (forall stc, a_stc a = IsSourceEstimate stc ->
   (exists view, In view (views_of a) /\ dict_get views_dict view = None) ->
   plot_source_estimates L a w = (Raise ValueError, w)) /\
  (forall stc subjects_dir subject,
   a_stc a = IsSourceEstimate stc ->
   check_views (views_of a) = Ok tt ->
   get_subjects_dir L (a_subjects_dir a) = Ok subjects_dir ->
   _check_subject L (stc_subject stc) (a_subject a) = Ok subject ->
   ((exists table, a_colormap a = ColormapArray table) ->
    plot_source_estimates L a w = (Raise NotImplementedError, w)) /\
   (forall name, a_colormap a = ColormapStr name ->
    (cortex_is_classic (a_cortex a) = false ->
     plot_source_estimates L a w = (Raise NotImplementedError, w)) /\
    (cortex_is_classic (a_cortex a) = true ->
     (is_Some (a_figure a) ->
      plot_source_estimates L a w = (Raise NotImplementedError, w)) /\
     (a_figure a = None ->
      str_in (a_hemi a) ["lh"; "rh"; "split"; "both"] = false ->
      plot_source_estimates L a w = (Raise ValueError, w))))).
Proof.
  split; [|split; [|split]].
  - intros Hbad.
    assert (H : exists e, prepare L a = Raise e).
    { unfold prepare.
      destruct (a_stc a) as [stc|]; [|eauto].
      destruct (check_views_result (views_of a)) as [Hv|Hv]; rewrite Hv;
        [|cbn [rbind]; eauto].
      cbn [rbind].
      destruct (get_subjects_dir L (a_subjects_dir a)); [|cbn [rbind]; eauto].
      cbn [rbind].
      destruct (_check_subject L (stc_subject stc) (a_subject a));
        [|cbn [rbind]; eauto].
      cbn [rbind].
      destruct (a_colormap a) as [name|table]; [|eauto].
      destruct (cortex_is_classic (a_cortex a)) eqn:Ec; [|cbn [negb]; eauto].
      cbn [negb].
      destruct (a_figure a) as [fig|] eqn:Ef.
      { rewrite bool_decide_true by eauto. eauto. }
      rewrite bool_decide_false by (intros [? ?]; discriminate).
      destruct (str_in (a_hemi a) ["lh"; "rh"; "split"; "both"]) eqn:Eh;
        [|cbn [negb]; eauto].
      exfalso.
      destruct Hbad as [Hb|[Hb|[[? Hb]|[Hb|[[? Hb]|Hb]]]]]; try discriminate.
      rewrite (check_views_bad _ Hb) in Hv. discriminate. }
    destruct H as [e He]. exists e. apply plot_raises_in_prepare, He.
  - intros Hs. apply plot_raises_in_prepare. unfold prepare. rewrite Hs.
    reflexivity.
  - intros stc Hs Hb. apply plot_raises_in_prepare. unfold prepare.
    rewrite Hs, (check_views_bad _ Hb). reflexivity.
  - intros stc sd subj Hs Hv Hd Hsub.
    split.
    + intros [table Hc]. apply plot_raises_in_prepare. unfold prepare.
      rewrite Hs, Hv. cbn [rbind]. rewrite Hd. cbn [rbind]. rewrite Hsub.
        cbn [rbind].
      rewrite Hc. reflexivity.
    + intros name Hc. split; [|intros Hcl; split].
      * intros Hcx. apply plot_raises_in_prepare. unfold prepare.
        rewrite Hs, Hv. cbn [rbind]. rewrite Hd. cbn [rbind]. rewrite Hsub.
        cbn [rbind].
        rewrite Hc, Hcx. reflexivity.
      * intros Hf. apply plot_raises_in_prepare. unfold prepare.
        rewrite Hs, Hv. cbn [rbind]. rewrite Hd. cbn [rbind]. rewrite Hsub.
        cbn [rbind].
        rewrite Hc, Hcl. cbn [negb]. rewrite bool_decide_true by exact Hf.
        reflexivity.
      * intros Hf Hh. apply plot_raises_in_prepare. unfold prepare.
        rewrite Hs, Hv. cbn [rbind]. rewrite Hd. cbn [rbind]. rewrite Hsub.
        cbn [rbind].
        rewrite Hc, Hcl. cbn [negb].
        rewrite bool_decide_false by (rewrite Hf; intros [? ?]; discriminate).
        rewrite Hh. reflexivity.
Qed.

(** ** [plot_source_estimates]: the container, the time viewer, the bar *)

Lemma lift_inv {A} (r : result A) w a w' :
  lift r w = (Ok a, w') -> r = Ok a /\ w' = w.
Proof. unfold lift. intros H. inversion H. auto. Qed.

Lemma scene_children_no_vbox hemi title foreground figs children ws :
  scene_children hemi title foreground figs = Ok children ->
  ~ In (VBox ws) children.
Proof.
  unfold scene_children. intros H Hin.
  destruct (String.eqb hemi "split");
    match type of H with
    | match mapM ?f figs with _ => _ end = _ =>
        destruct (mapM f figs) as [l|] eqn:E; [|discriminate]
    end;
    injection H as <-;
    (destruct Hin as [Hin|Hin]; [discriminate|]);
    apply mapM_Some in E;
    apply list_elem_of_In, list_elem_of_lookup_1 in Hin;
    destruct Hin as [i Hi];
    destruct (Forall2_lookup_r _ _ _ _ _ E Hi) as (x & _ & Hx);
    destruct x; discriminate.
Qed.

Lemma time_viewer_block_ok L a s hm w w' :
  time_viewer_block L a s hm w = (Ok tt, w') ->
  if a_time_viewer a then
    exists label,
      let cl := Closure L (s_stc s) (s_morph_mat s) (s_n_lh s) (s_views s)
                        (s_hemis s) hm (s_time_label s) (s_times s)
                        (s_lim_cmap s) (a_alpha a) in
      w' = set_children
             (w_children w
              ++ [if a_colorbar a then info_widget else control_widget])
             (set_viewer
                (Some (Viewer cl (s_cmap s) (s_k s) (s_b s) label
                         (s_time_idx s)
                         (if a_colorbar a
                          then Some (new_colorbar (s_cmap s) (s_dt_min s)
                                       (s_dt_max s) (s_ctrl_pts s))
                          else None))) w)
  else w' = w.
Proof.
  unfold time_viewer_block. destruct (a_time_viewer a).
  - intros H. apply bind_inv in H as (label & w1 & Hl & H).
    assert (w1 = w) as ->.
    { destruct (s_time_label s);
        [apply bind_inv in Hl as (t & w2 & Ht & Hl);
         apply lift_inv in Ht as [_ ->]; inversion Hl; reflexivity ..
        | inversion Hl; reflexivity]. }
    destruct label as [label|]; [|discriminate].
    exists label. destruct (a_colorbar a); inversion H; reflexivity.
  - intros H. inversion H. reflexivity.
Qed.

(** The colour bar needs the time viewer: with [colorbar=True] the colour
    bar (the heat map figure, the inputs Fmin, Fmid and Fmax and the update
    button) is on the scene exactly when [time_viewer] is true as well; it
    is then the last child of the container, below the figures. *)
Lemma colorbar_with_time_viewer (L : lib) (a : args) (w w' : world)
    (figs : list fig_entry) :
  a_colorbar a = true ->
  plot_source_estimates L a w = (Ok figs, w') ->
  (In info_widget (w_children w') <-> a_time_viewer a = true) /\
  (a_time_viewer a = true ->
   last (w_children w') = Some info_widget /\
   exists v cb, w_viewer w' = Some v /\ v_cbar v = Some cb).
Proof.
  intros Hcb H. unfold plot_source_estimates in H.
  apply bind_inv in H as (s & w1 & _ & H).
  apply bind_inv in H as (lv & w2 & _ & H).
  apply bind_inv in H as (children & w3 & Hch & H).
  apply lift_inv in Hch as [Hch ->].
  apply bind_inv in H as ([] & w4 & Hset & H).
  inversion Hset; subst w4; clear Hset.
  apply bind_inv in H as ([] & w5 & Htv & H).
  apply time_viewer_block_ok in Htv.
  inversion H; subst; clear H.
  rewrite Hcb in Htv. destruct (a_time_viewer a).
  - destruct Htv as [label ->]. cbn. split; [|intros _; split].
    + split; [reflexivity|]. intros _. apply in_or_app. right. left.
      reflexivity.
    + apply last_snoc.
    + eauto.
  - subst w5. cbn. split; [|discriminate]. split; [|discriminate].
    intros Hin. exfalso.
    eapply scene_children_no_vbox; [exact Hch | exact Hin].
Qed.

(** ** [plot_source_estimates]: the figure loop without 'split' *)

Section FigureLoop.
Variable E : loop_env.
Hypothesis not_split : String.eqb (le_hemi E) "split" = false.

(** One hemisphere: no figure is created, and only the current figure,
    the one of [view], is touched. *)
Lemma hemi_body_keeps view h lv w lv' w' c :
  w_current w = Some c ->
  hemi_body E view h lv w = (Ok lv', w') ->
  lv_figs lv' = lv_figs lv /\ lv_fig lv' = lv_fig lv /\
  lv_figs_row lv' = lv_figs_row lv /\
  w_current w' = Some c /\
  length (w_figures w') = length (w_figures w) /\
  (forall j, j <> c -> w_figures w' !! j = w_figures w !! j) /\
  (forall f, w_figures w !! c = Some f -> fig_for_view view f ->
     exists f', w_figures w' !! c = Some f' /\ fig_for_view view f').
Proof using not_split.
  intros Hc H. unfold hemi_body in H.
  destruct (0 <? length (hemi_data h (le_n_lh E) (le_stc_data E)))%nat;
    [|injection H as <- <-; eauto 10].
  apply bind_inv in H as (bv & w1 & H1 & H).
  destruct (dict_get (le_hemi_vertices E) h); [|discriminate].
  injection H1 as <- <-.
  apply bind_inv in H as (bf & w1 & H1 & H).
  destruct (dict_get (le_hemi_faces E) h); [|discriminate].
  injection H1 as <- <-.
  apply bind_inv in H as (brain_color & w1 & H1 & H).
  apply lift_inv in H1 as [_ ->].
  destruct o as [vs|]; [|injection H as <- <-; eauto 10].
  destruct o0 as [fs|]; [|injection H as <- <-; eauto 10].
  rewrite not_split in H.
  apply bind_inv in H as (lv1 & w1 & H1 & H).
  injection H1 as <- <-.
  erewrite bind_ok in H by (apply plot_hemisphere_mesh_run; exact Hc).
  unfold ipv_style_box_off, ipv_style_axes_off, ipv_style_background_color
    in H.
  destruct w as [figs cur ms ch sh vw]. cbn in Hc. subst cur.
  do 3 (erewrite bind_ok in H by (apply gcf_update_run; reflexivity)).
  apply bind_inv in H as ([elev azim] & w1 & H1 & H).
  destruct (dict_get views_dict view) as [[elev' azim']|] eqn:Hview;
    [|discriminate].
  injection H1 as <- <- <-.
  unfold ipv_view, ipv_squarelim in H.
  do 2 (erewrite bind_ok in H by (apply gcf_update_run; reflexivity)).
  injection H as <- <-.
  cbn [w_current w_figures set_figures set_meshes lv_figs lv_fig
       lv_figs_row].
  repeat split.
  - rewrite !length_alter. reflexivity.
  - intros j Hj. rewrite !list_lookup_alter_ne by congruence. reflexivity.
  - intros f Hf _. rewrite !list_lookup_alter_eq, Hf.
    eexists. split; [reflexivity|]. right.
    cbn [f_view add_mesh]. rewrite Hview. reflexivity.
Qed.

Lemma hemis_loop_keeps view : forall hs lv w lv' w' c,
  w_current w = Some c ->
  for_each hs (hemi_body E view) lv w = (Ok lv', w') ->
  lv_figs lv' = lv_figs lv /\ lv_fig lv' = lv_fig lv /\
  lv_figs_row lv' = lv_figs_row lv /\
  w_current w' = Some c /\
  length (w_figures w') = length (w_figures w) /\
  (forall j, j <> c -> w_figures w' !! j = w_figures w !! j) /\
  (forall f, w_figures w !! c = Some f -> fig_for_view view f ->
     exists f', w_figures w' !! c = Some f' /\ fig_for_view view f').
Proof using not_split.
  induction hs as [|h hs IH]; intros lv w lv' w' c Hc H.
  - injection H as <- <-. eauto 10.
  - cbn [for_each] in H. apply bind_inv in H as (lv1 & w1 & H1 & H).
    destruct (hemi_body_keeps _ _ _ _ _ _ _ Hc H1)
      as (A1 & A2 & A3 & A4 & A5 & A6 & A7).
    destruct (IH _ _ _ _ _ A4 H) as (B1 & B2 & B3 & B4 & B5 & B6 & B7).
    repeat split; try congruence.
    + intros j Hj. rewrite B6, A6 by exact Hj. reflexivity.
    + intros f Hf Hfv. destruct (A7 f Hf Hfv) as (f1 & Hf1 & Hfv1).
      exact (B7 f1 Hf1 Hfv1).
Qed.

(** One view: one new figure, appended to [figs]. *)
Lemma view_body_adds view lv w lv' w' :
  view_body E view lv w = (Ok lv', w') ->
  let n := length (w_figures w) in
  lv_figs lv' = lv_figs lv ++ [OneFig n] /\
  length (w_figures w') = S n /\
  (forall j, (j < n)%nat -> w_figures w' !! j = w_figures w !! j) /\
  (exists f, w_figures w' !! n = Some f /\ fig_for_view view f).
Proof using not_split.
  intros H. cbv zeta. unfold view_body in H. rewrite not_split in H.
  cbn [negb] in H.
  apply bind_inv in H as (lv1 & w1 & H1 & H).
  apply bind_inv in H1 as (fig & w2 & Hfig & H1).
  injection Hfig as <- <-.
  apply bind_inv in H1 as ([] & w3 & Hanim & H1).
  injection Hanim as <-.
  injection H1 as <- <-.
  apply bind_inv in H as (lv2 & w4 & Hloop & H).
  eapply hemis_loop_keeps in Hloop; [|reflexivity].
  destruct Hloop as (A1 & A2 & A3 & A4 & A5 & A6 & A7).
  cbn in A1, A2, A3, A5, A6, A7.
  rewrite A3, A2 in H. injection H as <- <-. cbn.
  rewrite length_alter, length_app, Nat.add_1_r in A5.
  repeat split.
  - rewrite A1. reflexivity.
  - exact A5.
  - intros j Hj. rewrite A6 by lia.
    rewrite list_lookup_alter_ne by lia.
    apply lookup_app_l. exact Hj.
  - apply (A7 (Figure (le_fig_w E) (le_fig_h E) true (Some 0%Z) [] true
                      true None None false)).
    + rewrite list_lookup_alter_eq.
      rewrite lookup_app_r by lia. rewrite Nat.sub_diag. reflexivity.
    + left. reflexivity.
Qed.

Lemma views_loop_adds : forall views lv w lv' w',
  for_each views (view_body E) lv w = (Ok lv', w') ->
  let n := length (w_figures w) in
  lv_figs lv' = lv_figs lv ++ map OneFig (seq n (length views)) /\
  length (w_figures w') = (n + length views)%nat /\
  (forall j, (j < n)%nat -> w_figures w' !! j = w_figures w !! j) /\
  (forall i view, views !! i = Some view ->
     exists f, w_figures w' !! (n + i)%nat = Some f /\ fig_for_view view f).
Proof using not_split.
  induction views as [|view views IH]; intros lv w lv' w' H; cbv zeta.
  - injection H as <- <-. cbn. rewrite app_nil_r, Nat.add_0_r.
    repeat split; auto. intros i view Hi. discriminate.
  - cbn [for_each] in H. apply bind_inv in H as (lv1 & w1 & H1 & H).
    apply view_body_adds in H1. cbv zeta in H1.
    destruct H1 as (A1 & A2 & A3 & f0 & A4 & A5).
    apply IH in H. cbv zeta in H. destruct H as (B1 & B2 & B3 & B4).
    rewrite A2 in B1, B2, B3, B4.
    repeat split.
    + rewrite B1, A1, <- app_assoc. reflexivity.
    + rewrite B2. cbn. lia.
    + intros j Hj. rewrite B3 by lia. apply A3, Hj.
    + intros [|i] v Hi.
      * cbn in Hi. inversion Hi; subst. rewrite Nat.add_0_r.
        rewrite B3 by lia. eauto.
      * cbn in Hi. destruct (B4 i v Hi) as (f & Hf & Hfv).
        exists f. split; [|exact Hfv].
        rewrite <- Hf. f_equal. lia.
Qed.
End FigureLoop.

(** C10: with [hemi] one of 'lh', 'rh' and 'both', a call that returns
    gives the list of the figures created for the requested views, one per
    view and in the order of the views: entry [i] is the [i]-th figure
    created by the call, the one made for view [i]. *)
Theorem one_figure_per_view (L : lib) (a : args) (w w' : world)
    (figs : list fig_entry) :
  In (a_hemi a) ["lh"; "rh"; "both"] ->
  plot_source_estimates L a w = (Ok figs, w') ->
  let n := length (w_figures w) in
  figs = map OneFig (seq n (length (views_of a))) /\
  length (w_figures w') = (n + length (views_of a))%nat /\
  (forall i view, views_of a !! i = Some view ->
     figs !! i = Some (OneFig (n + i)) /\
     exists f, w_figures w' !! (n + i)%nat = Some f /\ fig_for_view view f).
Proof.
  intros Hhemi H. cbv zeta. unfold plot_source_estimates in H.
  apply bind_inv in H as (s & w1 & Hs & H).
  apply lift_inv in Hs as [Hs ->].
  assert (Hviews : s_views s = views_of a).
  { unfold prepare in Hs.
    repeat match type of Hs with
           | match ?x with _ => _ end = Ok _ =>
               destruct x eqn:?; try discriminate
           | rbind ?x _ = Ok _ => destruct x eqn:?; try discriminate;
                                  cbn [rbind] in Hs
           | (if ?x then _ else _) = Ok _ => destruct x eqn:?;
                                             try discriminate
           | (let '(_, _) := ?x in _) = Ok _ => destruct x eqn:?
           end.
    inversion Hs; subst. reflexivity. }
  apply bind_inv in H as (lv & w2 & Hloop & H).
  apply views_loop_adds in Hloop.
  2:{ cbn. destruct Hhemi as [<-|[<-|[<-|[]]]]; reflexivity. }
  cbv zeta in Hloop. destruct Hloop as (A1 & A2 & A3 & A4).
  apply bind_inv in H as (children & w3 & Hch & H).
  apply lift_inv in Hch as [Hch ->].
  apply bind_inv in H as ([] & w4 & Hset & H).
  inversion Hset; subst w4; clear Hset.
  apply bind_inv in H as ([] & w5 & Htv & H).
  apply time_viewer_block_ok in Htv.
  inversion H; subst; clear H.
  assert (Hfigs : w_figures w5 = w_figures w2).
  { destruct (a_time_viewer a); [destruct Htv as [? ->]|subst]; reflexivity. }
  cbn [lv_figs app] in A1. rewrite Hviews in *.
  cbn [w_figures set_shown]. rewrite Hfigs.
  split; [exact A1 | split; [exact A2|]].
  intros i view Hi. split.
  - rewrite A1. rewrite list_lookup_fmap.
    rewrite lookup_seq_lt by (eapply lookup_lt_Some; eauto). reflexivity.
  - apply A4. exact Hi.
Qed.

(** ** The rescaled data is not clipped *)

Lemma rescale_map k b data : rescale k b data = map (fun x => k * x + b) data.
Proof. reflexivity. Qed.

(** C1 fails on the code: [np.clip(data, 0, 1)] returns a new array that is
    not bound to a name, so the colour map is called on [k * data + b] as it
    is.  With [scale_pts = (1, 2, 3)] the activation 0 is handed over as
    -1/2 and the activation 4 as 3/2, in [plot_source_estimates] (the first
    overlay of the plot below shows the value in its red channel) and in
    [slider_handler] (time sample 2, values 4 and 5). *)
Theorem rescaled_data_leaves_unit_interval :
  linear_coefficients 1 3 = (1 / (3 - 1), 1 - 1 / (3 - 1) * 3) /\
  (let '(k, b) := linear_coefficients 1 3 in
   rescale k b [0; 2; 4] = [k * 0 + b; k * 2 + b; k * 4 + b] /\
   k * 0 + b < 0 /\ 1 < k * 4 + b) /\
  (let r := plot_source_estimates Demo.L Demo.a0 Demo.w0 in
   fst r = Ok [OneFig 0; OneFig 1] /\
   m_color <$> w_meshes (snd r) !! 1%nat
   = Some (ColorArray [RGBA (-2 # 4) 1 3 1]) /\
   -2 # 4 < 0) /\
  (let r := slider_handler 2 Demo.w_hot in
   fst r = Ok tt /\
   m_color <$> w_meshes (snd r) !! 1%nat
   = Some (ColorArray [RGBA (6 # 4) 1 3 1]) /\
   1 < 6 # 4).
Proof.
  vm_compute. repeat split.
Qed.

(** ** Thresholds that end at zero, with the 'mne' colour map *)

(** C7 fails on the code for the 'mne' colour map when the entered values
    are in order and [fmax] is 0: the interval [-fmax, fmax] has width
    zero, [k = 1 / (dt_max - dt_min)] raises [ZeroDivisionError] after the
    colour map was replaced, and [k], [b] and the colours of the meshes stay
    as they were. *)
Theorem on_update_mne_zero_fmax :
  let w := Demo.w_zero_fmax in
  let v := Demo.viewer_of w in
  let cb := Demo.colorbar_of w in
  let r := on_update w in
  w_viewer w = Some v /\ v_cbar v = Some cb /\
  is_str (cl_lim_cmap (v_env v)) = false /\
  (cb_fmin cb, cb_fmid cb, cb_fmax cb) = (-2, -1, 0) /\
  cb_fmin cb < cb_fmid cb /\ cb_fmid cb < cb_fmax cb /\
  fst r = Raise ZeroDivisionError /\
  (v_k <$> w_viewer (snd r)) = Some (v_k v) /\
  (v_b <$> w_viewer (snd r)) = Some (v_b v) /\
  w_meshes (snd r) = w_meshes w /\
  cm_call (v_cmap v) 0 = RGBA 0 1 3 1 /\
  ((fun v' => cm_call (v_cmap v') 0) <$> w_viewer (snd r))
  = Some (RGBA 0 (-2) 0 1).
Proof.
  vm_compute. repeat split.
Qed.

(** ** The colour bar without the time viewer *)

(** C2 fails on the code: the docstring promises the colour bar for
    [colorbar=True] ('If True, display colorbar on scene'), but lines 568-691
    build it inside the block of [time_viewer].  With [colorbar=True] and
    [time_viewer=False] the call returns its two figures without an error,
    the container holds the title and the two figures only, and no colour
    bar exists. *)
Theorem colorbar_without_time_viewer :
  let a := Demo.with_viewer false true Demo.a0 in
  let r := plot_source_estimates Demo.L a Demo.w0 in
  a_colorbar a = true /\
  a_time_viewer a = false /\
  fst r = Ok [OneFig 0; OneFig 1] /\
  (exists title, w_children (snd r) = [HTML title; FigureW 0; FigureW 1]) /\
  ~ In info_widget (w_children (snd r)) /\
  w_viewer (snd r) = None.
Proof.
  vm_compute. repeat split.
  - eexists. reflexivity.
  - intros [H|[H|[H|[]]]]; discriminate.
Qed.

(** ** A view requested twice *)

(** C6 as stated fails when a view is requested twice.  The two figures of
    the view share the keys [lh_lat] and [rh_lat] of [hemi_meshes]; line 506
    keeps the overlays of the second figure (meshes 5 and 7), and a move of
    the slider to the time sample 2 recolours these only: the overlays of
    the first figure (meshes 1 and 3) keep the colours of the initial
    time. *)
Lemma slider_skips_repeated_view :
  let a := Demo.a_twice in
  let w := Demo.w_twice in
  let r := slider_handler 2 w in
  views_of a = ["lat"; "lat"] /\
  a_time_viewer a = true /\
  fst (plot_source_estimates Demo.L a Demo.w0) = Ok [OneFig 0; OneFig 1] /\
  map f_meshes (w_figures w)
  = [[0; 1; 2; 3]; [4; 5; 6; 7]]%nat /\
  cl_hemi_meshes (v_env (Demo.viewer_of w)) !! "lh_lat" = Some (Some 5%nat) /\
  cl_hemi_meshes (v_env (Demo.viewer_of w)) !! "rh_lat" = Some (Some 7%nat) /\
  map m_color (w_meshes w)
  = [ColorGrey [1 # 2]; ColorArray [RGBA (-2 # 4) 1 3 1];
     ColorGrey [1 # 2]; ColorArray [RGBA (0 # 4) 1 3 1];
     ColorGrey [1 # 2]; ColorArray [RGBA (-2 # 4) 1 3 1];
     ColorGrey [1 # 2]; ColorArray [RGBA (0 # 4) 1 3 1]] /\
  fst r = Ok tt /\
  map m_color (w_meshes (snd r))
  = [ColorGrey [1 # 2]; ColorArray [RGBA (-2 # 4) 1 3 1];
     ColorGrey [1 # 2]; ColorArray [RGBA (0 # 4) 1 3 1];
     ColorGrey [1 # 2]; ColorArray [RGBA (6 # 4) 1 3 1];
     ColorGrey [1 # 2]; ColorArray [RGBA (8 # 4) 1 3 1]].
Proof.
  vm_compute. repeat split.
Qed.

(** ** The theorems at concrete inputs *)

Lemma hot_alpha_ramp_witness :
  exists table a,
    brain_cmap Demo.L (Pts 1 3 4) (Pts 1 3 4) (CmapName "hot")
    = ListedColormap Demo.L table /\
    table !! 2%nat = Some (RGBA 2 0 0 a) /\
    a == 1 # 2.
Proof.
  destruct (hot_alpha_ramp Demo.L "hot" (Pts 1 3 4) (Pts 1 3 4) 2)
    as (table & a & Hb & _ & Hrow & _ & _ & Hramp & _);
    [reflexivity | cbn; lia |].
  exists table, a. split; [exact Hb|]. split; [exact Hrow|].
  rewrite Hramp; [reflexivity|]. split; [discriminate | reflexivity].
Defined.


Lemma slider_meshes_complete :
  meshes_complete (v_env (Demo.viewer_of Demo.w_slider))
                  (length (w_meshes Demo.w_slider)).
Proof.
  split.
  - intros view h Hin. vm_compute in Hin.
    destruct Hin as [E|[E|[E|[E|[]]]]]; injection E as <- <-;
      [exists 1%nat | exists 3%nat | exists 5%nat | exists 7%nat];
      vm_compute; (split; [reflexivity | lia]).
  - intros view h view' h' m H1 H2 L1 L2. vm_compute in H1, H2.
    destruct H1 as [E|[E|[E|[E|[]]]]]; injection E as <- <-;
      destruct H2 as [E|[E|[E|[E|[]]]]]; injection E as <- <-;
      try reflexivity; vm_compute in L1, L2; congruence.
Defined.

Lemma slider_handler_frame_witness :
  exists w',
    slider_handler 1 Demo.w_slider = (Ok tt, w') /\
    v_label <$> w_viewer w' = Some "time=%0.2f ms" /\
    m_color <$> w_meshes w' !! 1%nat
    = Some (ColorArray [RGBA (2 # 4) 1 3 1]) /\
    length (w_meshes w') = 8%nat.
Proof.
  destruct (slider_handler_frame Demo.w_slider (Demo.viewer_of Demo.w_slider)
              1 (1 # 10) "time=%0.2f ms")
    as (w' & H1 & H2 & _ & _ & _ & _ & H5 & H3 & _).
  - vm_compute. reflexivity.
  - exact slider_meshes_complete.
  - vm_compute. lia.
  - vm_compute. reflexivity.
  - vm_compute. reflexivity.
  - exists w'. split; [exact H1|]. split; [rewrite H2; reflexivity|]. split.
    + destruct (H3 "lat" "lh" 1%nat) as (old & _ & ->).
      * vm_compute. auto.
      * vm_compute. auto.
      * vm_compute. reflexivity.
      * vm_compute. reflexivity.
    + rewrite H5. vm_compute. reflexivity.
Defined.

Lemma on_update_rejects_witness :
  on_update Demo.w_wrong_order = (Raise ValueError, Demo.w_wrong_order).
Proof.
  apply (on_update_rejects Demo.w_wrong_order
           (Demo.viewer_of Demo.w_wrong_order)
           (Demo.colorbar_of Demo.w_wrong_order)).
  - vm_compute. reflexivity.
  - vm_compute. reflexivity.
  - vm_compute. lia.
  - intros [H _]. vm_compute in H. discriminate.
Defined.

Lemma brain_mesh_split_witness :
  (exists w', plot_brain_mesh Demo.L Demo.brain_right_only Demo.w0
              = (Raise TypeError, w')) /\
  (exists rh lh, brain_act_colors Demo.L Demo.brain = Ok (Some rh, Some lh)
                 /\ length lh = 1%nat /\ length rh = 1%nat) /\
  (exists fig w', plot_brain_mesh Demo.L Demo.brain Demo.w0
                  = (Ok (fig, Some 0%nat, Some 2%nat), w') /\
                  m_color <$> w_meshes w' !! 1%nat
                  = Some (ColorArray [RGBA (16 # 16) (16 # 16) (16 # 16) (16 # 16)]) /\
                  m_color <$> w_meshes w' !! 3%nat
                  = Some (ColorArray [RGBA (0 # 16) (0 # 16) (0 # 16) (0 # 16)])).
Proof.
  assert (Hd : ~ 4 - 0 == 0) by (intros E; vm_compute in E; discriminate).
  split; [|split].
  - exact (brain_mesh_split Demo.L Demo.brain_right_only [0; 4]
             (Pts 1 2 3) (Pts 1 2 3) (CmapName "hot") (Some false) 0 4
             eq_refl eq_refl eq_refl eq_refl Demo.w0).
  - destruct (brain_mesh_split Demo.L Demo.brain [0; 4]
                (Pts 1 2 3) (Pts 1 2 3) (CmapName "hot") (Some false) 0 4
                eq_refl eq_refl eq_refl eq_refl) as [H _].
    eexists. eexists. split; [exact (H Hd)|]. split; reflexivity.
  - destruct (brain_mesh_split Demo.L Demo.brain [0; 4]
                (Pts 1 2 3) (Pts 1 2 3) (CmapName "hot") (Some false) 0 4
                eq_refl eq_refl eq_refl eq_refl) as [_ H].
    destruct (H Demo.w0) as (fig & rh_mesh & lh_mesh & w' & Hrun & Hl & Hr).
    destruct (Hl _ eq_refl) as (ml & -> & Hlc).
    destruct (Hr _ _ eq_refl eq_refl) as (mr & -> & Hrc).
    assert (E : plot_brain_mesh Demo.L Demo.brain Demo.w0
                = (Ok (0%nat, Some 0%nat, Some 2%nat),
                   snd (plot_brain_mesh Demo.L Demo.brain Demo.w0)))
      by (vm_compute; reflexivity).
    rewrite Hrun in E. injection E as -> -> ->.
    exists 0%nat, w'. split; [exact Hrun|].
    split; [rewrite (Hrc Hd) | rewrite (Hlc Hd)]; vm_compute; reflexivity.
Defined.

Lemma validation_first_failure_witness :
  plot_source_estimates Demo.L
    (Demo.with_hemi_cortex "xx" (CortexStr "classic") Demo.a0) Demo.w0
  = (Raise ValueError, Demo.w0).
Proof.
  destruct (validation_first_failure Demo.L
              (Demo.with_hemi_cortex "xx" (CortexStr "classic") Demo.a0)
              Demo.w0) as (_ & _ & _ & H).
  destruct (H Demo.stc "/subjects" "sample" eq_refl eq_refl eq_refl eq_refl)
    as [_ H1].
  destruct (H1 "hot" eq_refl) as [_ H2].
  destruct (H2 eq_refl) as [_ H3].
  apply H3; reflexivity.
Defined.

Lemma one_figure_per_view_witness :
  [OneFig 0; OneFig 1] = map OneFig (seq 0 2) /\
  length (w_figures (snd (plot_source_estimates Demo.L Demo.a0 Demo.w0)))
  = 2%nat.
Proof.
  destruct (one_figure_per_view Demo.L Demo.a0 Demo.w0
              (snd (plot_source_estimates Demo.L Demo.a0 Demo.w0))
              [OneFig 0; OneFig 1]) as (H1 & H2 & _).
  - right. right. left. reflexivity.
  - vm_compute. reflexivity.
  - split; [exact H1 | exact H2].
Defined.

(** * Further properties *)

(** ** [plot_hemisphere_mesh] and the scene of [plot_brain_mesh] *)

Lemma alter_new {A} (f : A -> A) (l : list A) (a : A) :
  alter f (length l) (l ++ [a]) = l ++ [f a].
Proof.
  rewrite alter_app_r_alt by lia. rewrite Nat.sub_diag. reflexivity.
Qed.

(** ** [plot_hemisphere_mesh] *)

(** X1: [plot_hemisphere_mesh] always adds the mesh of the cortex, with the
    given colour and no material, and returns it first; it adds the overlay,
    right after it, exactly when activation colours are given: the overlay
    has the geometry of the cortex, the activation colours and the
    transparent material.  The meshes that existed are as they were, and
    the new ones are added, in this order, to the current figure. *)
Theorem hemisphere_mesh_and_overlay (vs : vertices) (fs : faces) (c : color)
    (act_colors : option (list rgba)) (w : world) :
  let n := length (w_meshes w) in
  let x := map (fun v => fst (fst v)) vs in
  let y := map (fun v => snd (fst v)) vs in
  let z := map snd vs in
  let cortex := Mesh x y z fs c None in
  let overlay colors :=
    Mesh x y z fs (ColorArray colors) (Some overlay_material) in
  let r := plot_hemisphere_mesh vs fs c act_colors w in
  fst r = Ok (n, (fun _ => S n) <$> act_colors) /\
  w_meshes (snd r)
  = w_meshes w ++ cortex :: match act_colors with
                            | Some colors => [overlay colors]
                            | None => []
                            end /\
  (forall cur, w_current w = Some cur ->
     w_current (snd r) = Some cur /\
     length (w_figures (snd r)) = length (w_figures w) /\
     (forall j, j <> cur -> w_figures (snd r) !! j = w_figures w !! j) /\
     f_meshes <$> w_figures (snd r) !! cur
     = (fun f => f_meshes f ++ n :: match act_colors with
                                    | Some _ => [S n]
                                    | None => []
                                    end) <$> w_figures w !! cur) /\
  alphaTest overlay_material == 1 # 10 /\
  mat_transparent overlay_material = true.
Proof.
  cbv zeta.
  destruct act_colors as [colors|]; destruct (w_current w) as [cur|] eqn:Hc.
  - rewrite (plot_hemisphere_mesh_run _ _ _ _ _ _ Hc). cbn.
    split; [reflexivity|]. split; [reflexivity|].
    split; [|split; reflexivity].
    intros cur' Hc'. injection Hc' as <-.
    split; [exact Hc|]. split; [rewrite !length_alter; reflexivity|]. split.
    + intros j Hj. rewrite !list_lookup_alter_ne by congruence. reflexivity.
    + rewrite !list_lookup_alter_eq.
      destruct (w_figures w !! cur) as [f|]; [|reflexivity]. cbn.
      rewrite <- app_assoc. reflexivity.
  - unfold plot_hemisphere_mesh, ipv_plot_trisurf, bind, ipv_gcf, get_world,
      update_figure, modify, ret, set_material. rewrite Hc. cbn.
    rewrite length_app. cbn. rewrite Nat.add_1_r, alter_last.
    split; [reflexivity|]. split; [reflexivity|].
    split; [|split; reflexivity].
    intros cur' Hc'. discriminate.
  - unfold plot_hemisphere_mesh.
    rewrite (bind_ok _ _ _ _ _ (plot_trisurf_run _ _ _ _ _ _ _ Hc)). cbn.
    split; [reflexivity|]. split; [reflexivity|].
    split; [|split; reflexivity].
    intros cur' Hc'. injection Hc' as <-.
    split; [exact Hc|]. split; [rewrite !length_alter; reflexivity|]. split.
    + intros j Hj. rewrite !list_lookup_alter_ne by congruence. reflexivity.
    + rewrite !list_lookup_alter_eq.
      destruct (w_figures w !! cur) as [f|]; reflexivity.
  - unfold plot_hemisphere_mesh, ipv_plot_trisurf, bind, ipv_gcf, get_world,
      update_figure, modify, ret. rewrite Hc. cbn.
    split; [reflexivity|]. split; [reflexivity|].
    split; [|split; reflexivity].
    intros cur' Hc'. discriminate.
Qed.

(** ** [plot_brain_mesh]: the scene *)


(** X2: [plot_brain_mesh] with activation data draws on a figure of its own:
    the right hemisphere first, then the left one, each as a cortex mesh
    followed by its overlay and only when both its vertices and its faces
    are given; it returns the figure and the two cortex meshes, and leaves
    the figure without box and axes, on a black background, seen from
    ([azimuth], [elevation]) and shown.  Nothing else changes. *)
Theorem brain_mesh_scene (L : lib) (a : brain_args)
    (rh_colors lh_colors : list rgba) (w : world) :
  brain_act_colors L a = Ok (Some rh_colors, Some lh_colors) ->
  let n := length (w_figures w) in
  let m := length (w_meshes w) in
  let rh := hemisphere_meshes L (offset a) "rh" (rh_vertices a) (rh_faces a)
                              (rh_color a) rh_colors in
  let lh := hemisphere_meshes L (offset a) "lh" (lh_vertices a) (lh_faces a)
                              (lh_color a) lh_colors in
  let fig := Figure (fst (fig_size a)) (snd (fig_size a)) true None
                    (seq m (length (rh ++ lh))) false false (Some "black")
                    (Some (azimuth a, elevation a)) true in
  plot_brain_mesh L a w
  = (Ok (n,
         match rh with [] => None | _ => Some m end,
         match lh with [] => None | _ => Some (m + length rh)%nat end),
     World (w_figures w ++ [fig]) (Some n) (w_meshes w ++ rh ++ lh)
           (w_children w) true (w_viewer w)).
Proof.
  intros Hcolors. cbv zeta. destruct w as [figs cur ms ch sh vw].
  unfold plot_brain_mesh.
  erewrite bind_ok by reflexivity.
  erewrite bind_ok by (unfold lift; rewrite Hcolors; reflexivity).
  set (w1 := set_current _ _).
  assert (Hc1 : w_current w1 = Some (length figs)) by reflexivity.
  unfold hemisphere_meshes.
  destruct (rh_vertices a) as [rv|], (rh_faces a) as [rf|],
           (lh_vertices a) as [lv|], (lh_faces a) as [lf|].
  all: repeat first
      [ erewrite bind_ok by (erewrite bind_ok
          by (apply plot_hemisphere_mesh_run; reflexivity); reflexivity)
      | erewrite bind_ok by reflexivity ].
  all: unfold ipv_style_box_off, ipv_style_axes_off, ipv_style_background_color,
      ipv_view, ipv_squarelim.
  all: repeat (erewrite bind_ok by (apply gcf_update_run; reflexivity)).
  all: unfold ipv_show, modify, bind, ret.
  all: subst w1.
  all: cbv [set_figures set_meshes set_current set_shown w_figures w_current
            w_meshes w_children w_shown w_viewer].
  all: rewrite !list_alter_alter_eq.
  all: rewrite (alter_new _ figs).
  all: cbn.
  all: rewrite ?length_app.
  all: cbn.
  all: rewrite <- ?app_assoc.
  all: cbn.
  all: rewrite ?app_nil_r, ?Nat.add_0_r, ?Nat.add_1_r, <- ?plus_n_Sm,
      ?Nat.add_0_r.
  all: reflexivity.
Qed.

(** X3: without activation data (the default) [plot_brain_mesh] cannot draw
    a hemisphere: the colours of the overlay are bound only when
    [act_data] is given, so a call with the vertices and faces of a
    hemisphere raises [UnboundLocalError], after the new figure was made and
    before any mesh.  With no complete hemisphere the call returns the new,
    empty figure. *)
Theorem brain_mesh_without_data (L : lib) (a : brain_args) (w : world) :
  act_data a = None ->
  let n := length (w_figures w) in
  let complete (vs : option vertices) (fs : option faces) :=
    is_Some vs /\ is_Some fs in
  (complete (rh_vertices a) (rh_faces a)
   \/ complete (lh_vertices a) (lh_faces a) ->
   plot_brain_mesh L a w
   = (Raise UnboundLocalError,
      World (w_figures w ++ [new_figure (fst (fig_size a)) (snd (fig_size a))])
            (Some n) (w_meshes w) (w_children w) (w_shown w) (w_viewer w)))
  /\
  (~ complete (rh_vertices a) (rh_faces a) ->
   ~ complete (lh_vertices a) (lh_faces a) ->
   plot_brain_mesh L a w
   = (Ok (n, None, None),
      World (w_figures w
             ++ [Figure (fst (fig_size a)) (snd (fig_size a)) true None []
                        false false (Some "black")
                        (Some (azimuth a, elevation a)) true])
            (Some n) (w_meshes w) (w_children w) true (w_viewer w))).
Proof.
  intros Hact. cbv zeta.
  assert (Hcolors : brain_act_colors L a = Ok (None, None))
    by (unfold brain_act_colors; rewrite Hact; reflexivity).
  unfold plot_brain_mesh.
  erewrite bind_ok by reflexivity.
  erewrite bind_ok by (unfold lift; rewrite Hcolors; reflexivity).
  set (w1 := set_current _ _).
  split.
  - intros H.
    destruct (rh_vertices a) as [rv|], (rh_faces a) as [rf|].
    1: reflexivity.
    all: erewrite bind_ok by reflexivity.
    all: destruct (lh_vertices a) as [lv|], (lh_faces a) as [lf|].
    all: try (exfalso; destruct H as [[[? H1] [? H2]] | [[? H1] [? H2]]];
              discriminate).
    all: reflexivity.
  - intros Hr Hl.
    assert (E1 : match rh_vertices a, rh_faces a with
                 | Some vs, Some fs =>
                     let vs := match offset a with
                               | Some o => offset_hemi L vs "rh" (Some o)
                               | None => vs
                               end in
                     (raise UnboundLocalError : M (option nat))
                 | _, _ => ret None
                 end = ret None).
    { destruct (rh_vertices a), (rh_faces a); try reflexivity.
      exfalso. apply Hr. split; eauto. }
    assert (E2 : match lh_vertices a, lh_faces a with
                 | Some vs, Some fs =>
                     let vs := match offset a with
                               | Some o => offset_hemi L vs "lh" (Some o)
                               | None => vs
                               end in
                     (raise UnboundLocalError : M (option nat))
                 | _, _ => ret None
                 end = ret None).
    { destruct (lh_vertices a), (lh_faces a); try reflexivity.
      exfalso. apply Hl. split; eauto. }
    cbv zeta in E1, E2. rewrite E1, E2.
    erewrite bind_ok by reflexivity.
    erewrite bind_ok by reflexivity.
    unfold ipv_style_box_off, ipv_style_axes_off, ipv_style_background_color,
      ipv_view, ipv_squarelim.
    repeat (erewrite bind_ok by (apply gcf_update_run; reflexivity)).
    unfold ipv_show, modify, bind, ret. cbn.
    rewrite ?length_alter, ?alter_new. cbn. rewrite ?alter_new. reflexivity.
Qed.

(** ** The handlers, one after the other *)

(** Two passes of the loops over the same pairs leave what the second pass
    alone leaves. *)
Lemma Painted_twice v1 v2 sd1 sd2 ps ms ms1 ms12 ms2 :
  cl_hemi_meshes (v_env v1) = cl_hemi_meshes (v_env v2) ->
  (forall view h view' h' m, In (view, h) ps -> In (view', h') ps ->
     cl_hemi_meshes (v_env v2) !! mesh_key h view = Some (Some m) ->
     cl_hemi_meshes (v_env v2) !! mesh_key h' view' = Some (Some m) ->
     h = h') ->
  Painted v1 sd1 ps ms ms1 -> Painted v2 sd2 ps ms1 ms12 ->
  Painted v2 sd2 ps ms ms2 ->
  ms12 = ms2.
Proof.
  intros Hm Huniq [L1 P1] [L12 P12] [L2 P2]. apply list_eq. intros m.
  destruct (P12 m) as [(view & h & Hin & Hk & E12) | [N12 E12]];
    destruct (P2 m) as [(view' & h' & Hin' & Hk' & E2) | [N2 E2]].
  - rewrite E12, E2. rewrite (Huniq view h view' h' m Hin Hin' Hk Hk').
    destruct (P1 m) as [(? & ? & _ & _ & E1) | [_ E1]]; rewrite E1.
    + apply paint_paint.
    + reflexivity.
  - exfalso. exact (N2 view h Hin Hk).
  - exfalso. exact (N12 view' h' Hin' Hk').
  - rewrite E12, E2.
    destruct (P1 m) as [(view & h & Hin & Hk & _) | [_ E1]]; [|exact E1].
    exfalso. rewrite Hm in Hk. exact (N2 view h Hin Hk).
Qed.

Lemma slider_handler_painted (w : world) (v : viewer) (t : nat) (x : Q)
    (txt : string) :
  w_viewer w = Some v ->
  (forall view h, In view (cl_views (v_env v)) -> In h (cl_hemis (v_env v)) ->
     exists m, cl_hemi_meshes (v_env v) !! mesh_key h view = Some (Some m)) ->
  (t < length (stc_times (cl_stc (v_env v))))%nat ->
  cl_times (v_env v) !! t = Some x ->
  label_text (v_env v) x = Some txt ->
  exists ms',
    slider_handler t w
    = (Ok tt, set_viewer (Some (set_label txt v)) (set_meshes ms' w)) /\
    Painted v
      (cl_morph_mat (v_env v)
         (map (fun row => nth t row 0) (stc_data (cl_stc (v_env v)))))
      (loop_pairs (cl_views (v_env v)) (cl_hemis (v_env v)))
      (w_meshes w) ms'.
Proof.
  intros Hv Hk Ht Hx Htxt.
  pose proof (data_column_ok _ _ Ht) as Hcol.
  set (column := map (fun row => nth t row 0) (stc_data (cl_stc (v_env v))))
    in *.
  destruct (recolor_views v (cl_morph_mat (v_env v) column)
              (cl_hemis (v_env v)) (cl_views (v_env v)) w Hv Hk)
    as (ms' & Hrun & Hp).
  exists ms'. split; [|exact Hp].
  unfold slider_handler.
  erewrite bind_ok by (unfold get_viewer; rewrite Hv; reflexivity).
  erewrite bind_ok by (unfold lift; rewrite Hcol; reflexivity).
  erewrite bind_ok by exact Hrun.
  unfold label_text in Htxt. unfold time_at, lift, bind, update_viewer, modify.
  destruct (cl_time_label (v_env v)); try discriminate;
    rewrite Hx; injection Htxt as <-; destruct w; simpl in *; subst;
    reflexivity.
Qed.

Lemma complete_keys cl n view h :
  meshes_complete cl n ->
  In view (cl_views cl) -> In h (cl_hemis cl) ->
  exists m, cl_hemi_meshes cl !! mesh_key h view = Some (Some m).
Proof.
  intros [Hall _] Hv Hh.
  destruct (Hall view h) as (m & Hm & _); [apply in_loop_pairs; auto | eauto].
Qed.

(** X12: the display after a move of the slider depends on the new position
    only: a move to [t2] leaves the same colours and the same label whether
    or not the slider was at [t1] in between. *)
Theorem slider_position_decides_display (w : world) (v : viewer)
    (t1 t2 : nat) (x1 x2 : Q) (txt1 txt2 : string) :
  w_viewer w = Some v ->
  meshes_complete (v_env v) (length (w_meshes w)) ->
  (t1 < length (stc_times (cl_stc (v_env v))))%nat ->
  (t2 < length (stc_times (cl_stc (v_env v))))%nat ->
  cl_times (v_env v) !! t1 = Some x1 ->
  cl_times (v_env v) !! t2 = Some x2 ->
  label_text (v_env v) x1 = Some txt1 ->
  label_text (v_env v) x2 = Some txt2 ->
  exists w1 w2,
    slider_handler t1 w = (Ok tt, w1) /\
    slider_handler t2 w = (Ok tt, w2) /\
    slider_handler t2 w1 = (Ok tt, w2).
Proof.
  intros Hv Hc Ht1 Ht2 Hx1 Hx2 Htxt1 Htxt2.
  assert (Hk := fun view h => complete_keys _ _ view h Hc).
  destruct (slider_handler_painted w v t1 x1 txt1 Hv Hk Ht1 Hx1 Htxt1)
    as (ms1 & Hrun1 & P1).
  destruct (slider_handler_painted w v t2 x2 txt2 Hv Hk Ht2 Hx2 Htxt2)
    as (ms2 & Hrun2 & P2).
  set (w1 := set_viewer (Some (set_label txt1 v)) (set_meshes ms1 w)) in *.
  destruct (slider_handler_painted w1 (set_label txt1 v) t2 x2 txt2
              eq_refl Hk Ht2 Hx2 Htxt2) as (ms12 & Hrun12 & P12).
  exists w1, (set_viewer (Some (set_label txt2 v)) (set_meshes ms2 w)).
  split; [exact Hrun1|]. split; [exact Hrun2|].
  rewrite Hrun12. f_equal.
  assert (E : ms12 = ms2).
  { eapply (Painted_twice v (set_label txt1 v));
      [reflexivity | | exact P1 | exact P12 | exact P2].
    destruct Hc as [_ Huniq]. exact Huniq. }
  rewrite E. destruct w; reflexivity.
Qed.

Lemma on_update_painted (w : world) (v : viewer) (cb : colorbar) :
  w_viewer w = Some v ->
  v_cbar v = Some cb ->
  (v_slider v < length (stc_times (cl_stc (v_env v))))%nat ->
  (forall view h, In view (cl_views (v_env v)) -> In h (cl_hemis (v_env v)) ->
     exists m, cl_hemi_meshes (v_env v) !! mesh_key h view = Some (Some m)) ->
  cb_fmin cb < cb_fmid cb -> cb_fmid cb < cb_fmax cb ->
  (is_str (cl_lim_cmap (v_env v)) = false -> ~ cb_fmax cb == 0) ->
  exists ms',
    on_update w
    = (Ok tt, set_viewer (Some (updated_viewer v cb)) (set_meshes ms' w)) /\
    Painted (updated_viewer v cb)
      (cl_morph_mat (v_env v)
         (map (fun row => nth (v_slider v) row 0)
              (stc_data (cl_stc (v_env v)))))
      (loop_pairs (cl_views (v_env v)) (cl_hemis (v_env v)))
      (w_meshes w) ms'.
Proof.
  intros Hv Hcb Ht Hk H01 H12 Hmne.
  pose proof (data_column_ok _ _ Ht) as Hcol.
  set (column := map (fun row => nth (v_slider v) row 0)
                     (stc_data (cl_stc (v_env v)))) in *.
  unfold updated_viewer. cbv zeta.
  set (dt_min := if is_str (cl_lim_cmap (v_env v))
                 then cb_fmin cb else - cb_fmax cb).
  set (scale_pts := if is_str (cl_lim_cmap (v_env v))
                    then Pts (cb_fmin cb) (cb_fmid cb) (cb_fmax cb)
                    else Pts (- cb_fmax cb) 0 (cb_fmax cb)).
  set (cmap := _calculate_cmap _ _ _ _ scale_pts).
  assert (Hd : ~ cb_fmax cb - dt_min == 0).
  { unfold dt_min. destruct (is_str (cl_lim_cmap (v_env v))) eqn:Es.
    - intros E. lra.
    - intros E. apply Hmne; [reflexivity | lra]. }
  set (k := 1 / (cb_fmax cb - dt_min)).
  set (b := 1 - k * cb_fmax cb).
  set (v' := Viewer (v_env v) cmap k b (v_label v) (v_slider v) (v_cbar v)).
  set (heat := HeatMap (cb_ticks cb) (cb_color cb)
                 (colorbar_colors cmap (cb_data cb) (cb_bg_color cb))).
  destruct (recolor_views v' (cl_morph_mat (v_env v) column)
              (cl_hemis (v_env v)) (cl_views (v_env v))
              (set_viewer (Some v') w) eq_refl Hk)
    as (ms' & Hrun & Hp).
  exists ms'. split; [|exact Hp].
  unfold on_update.
  erewrite bind_ok by (unfold get_viewer; rewrite Hv; reflexivity).
  rewrite Hcb.
  erewrite bind_ok by (unfold lift; rewrite Hcol; reflexivity).
  cbn [pts0 pts1 pts2 pts_last].
  apply Qltb_lt in H01, H12. rewrite H01, H12. cbn [andb negb].
  assert (Hz : Qeq_bool (cb_fmax cb - dt_min) 0 = false).
  { destruct (Qeq_bool (cb_fmax cb - dt_min) 0) eqn:E; [|reflexivity].
    apply Qeq_bool_iff in E. contradiction. }
  assert (Hstep :
    (let* _ := update_viewer (set_cmap cmap) in
     if Qeq_bool (cb_fmax cb - dt_min) 0 then raise ZeroDivisionError
     else
       let k := 1 / (cb_fmax cb - dt_min) in
       let* _ := update_viewer (set_k k) in
       let b := 1 - k * cb_fmax cb in
       let* _ := update_viewer (set_b b) in
       let* _ := recolor_all (cl_morph_mat (v_env v) column)
                   (cl_views (v_env v)) (cl_hemis (v_env v)) in
       let colors := colorbar_colors cmap (cb_data cb) (cb_bg_color cb) in
       let heat := HeatMap (cb_ticks cb) (cb_color cb) colors in
       update_viewer (fun v => set_cbar (set_marks [heat] <$> v_cbar v) v)) w
    = (Ok tt,
       set_viewer
         (Some (Viewer (v_env v) cmap k b (v_label v) (v_slider v)
                       (Some (set_marks [heat] cb))))
         (set_meshes ms' w))).
  { erewrite bind_ok by (apply update_viewer_run; exact Hv).
    rewrite Hz. cbv zeta.
    erewrite bind_ok by (apply update_viewer_run; reflexivity).
    erewrite bind_ok by (apply update_viewer_run; reflexivity).
    erewrite bind_ok by exact Hrun.
    erewrite update_viewer_run by reflexivity.
    cbn [v_cbar v']. rewrite Hcb. reflexivity. }
  unfold dt_min, scale_pts, cmap in *.
  destruct (is_str (cl_lim_cmap (v_env v))); exact Hstep.
Qed.

(** X13: a second click on the update button with the same values changes
    nothing: the colour map, the coefficients, the colours of the meshes and
    the bar are those the first click left. *)
Theorem on_update_idempotent (w : world) (v : viewer) (cb : colorbar) :
  w_viewer w = Some v ->
  v_cbar v = Some cb ->
  (v_slider v < length (stc_times (cl_stc (v_env v))))%nat ->
  meshes_complete (v_env v) (length (w_meshes w)) ->
  cb_fmin cb < cb_fmid cb -> cb_fmid cb < cb_fmax cb ->
  (is_str (cl_lim_cmap (v_env v)) = false -> ~ cb_fmax cb == 0) ->
  exists w1, on_update w = (Ok tt, w1) /\ on_update w1 = (Ok tt, w1).
Proof.
  intros Hv Hcb Ht Hc H01 H12 Hmne.
  assert (Hk := fun view h => complete_keys _ _ view h Hc).
  destruct (on_update_painted w v cb Hv Hcb Ht Hk H01 H12 Hmne)
    as (ms1 & Hrun1 & P1).
  set (v1 := updated_viewer v cb) in *.
  set (w1 := set_viewer (Some v1) (set_meshes ms1 w)) in *.
  destruct (on_update_painted w1 v1 (set_marks
              [HeatMap (cb_ticks cb) (cb_color cb)
                 (colorbar_colors (v_cmap v1) (cb_data cb) (cb_bg_color cb))]
              cb) eq_refl eq_refl Ht Hk H01 H12 Hmne) as (ms12 & Hrun12 & P12).
  exists w1. split; [exact Hrun1|]. rewrite Hrun12. f_equal.
  assert (E : ms12 = ms1).
  { eapply (Painted_twice v1 v1); [reflexivity | | exact P1 | exact P12 | exact P1].
    destruct Hc as [_ Huniq]. exact Huniq. }
  rewrite E. destruct w; reflexivity.
Qed.

(** X14: moving the slider and updating the thresholds commute: the click
    after the move and the move after the click leave the same display. *)
Theorem update_commutes_with_slider (w : world) (v : viewer) (cb : colorbar)
    (t : nat) (x : Q) (txt : string) :
  w_viewer w = Some v ->
  v_cbar v = Some cb ->
  (v_slider v < length (stc_times (cl_stc (v_env v))))%nat ->
  (t < length (stc_times (cl_stc (v_env v))))%nat ->
  cl_times (v_env v) !! t = Some x ->
  label_text (v_env v) x = Some txt ->
  meshes_complete (v_env v) (length (w_meshes w)) ->
  cb_fmin cb < cb_fmid cb -> cb_fmid cb < cb_fmax cb ->
  (is_str (cl_lim_cmap (v_env v)) = false -> ~ cb_fmax cb == 0) ->
  exists w',
    (run move_slider t in on_update) w = (Ok tt, w') /\
    (run on_update in move_slider t) w = (Ok tt, w').
Proof.
  intros Hv Hcb Ht0 Ht Hx Htxt Hc H01 H12 Hmne.
  assert (Hk := fun view h => complete_keys _ _ view h Hc).
  destruct Hc as [_ Huniq].
  (* the move, then the click *)
  set (vs := set_slider t v).
  destruct (slider_handler_painted (set_viewer (Some vs) w) vs t x txt
              eq_refl Hk Ht Hx Htxt) as (ms_a & Hrun_a & P_a).
  set (va := set_label txt vs) in *.
  set (wa := set_viewer (Some va) (set_meshes ms_a (set_viewer (Some vs) w)))
    in *.
  destruct (on_update_painted wa va cb eq_refl Hcb Ht Hk H01 H12 Hmne)
    as (ms_ab & Hrun_ab & P_ab).
  (* the click, then the move *)
  destruct (on_update_painted w v cb Hv Hcb Ht0 Hk H01 H12 Hmne)
    as (ms_b & Hrun_b & P_b).
  set (vb := updated_viewer v cb) in *.
  set (wb := set_viewer (Some vb) (set_meshes ms_b w)) in *.
  set (vbs := set_slider t vb).
  destruct (slider_handler_painted (set_viewer (Some vbs) wb) vbs t x txt
              eq_refl Hk Ht Hx Htxt) as (ms_ba & Hrun_ba & P_ba).
  (* the colours of the click at [t], painted on the first meshes *)
  destruct (recolor_views (updated_viewer va cb)
              (cl_morph_mat (v_env v)
                 (map (fun row => nth t row 0) (stc_data (cl_stc (v_env v)))))
              (cl_hemis (v_env v)) (cl_views (v_env v))
              (set_viewer (Some (updated_viewer va cb)) w) eq_refl Hk)
    as (ms2 & _ & P2).
  assert (Eab : ms_ab = ms2).
  { eapply (Painted_twice vs (updated_viewer va cb));
      [reflexivity | exact Huniq | exact P_a | exact P_ab | exact P2]. }
  assert (Eba : ms_ba = ms2).
  { eapply (Painted_twice vb vbs);
      [reflexivity | exact Huniq | exact P_b | exact P_ba | exact P2]. }
  eexists. split.
  - unfold move_slider.
    erewrite bind_ok; [exact Hrun_ab|].
    erewrite bind_ok by (apply update_viewer_run; exact Hv).
    exact Hrun_a.
  - erewrite bind_ok by exact Hrun_b.
    unfold move_slider.
    erewrite bind_ok by (apply update_viewer_run; reflexivity).
    etransitivity; [exact Hrun_ba|].
    f_equal. rewrite Eab, Eba. destruct w; reflexivity.
Qed.

(** ** [plot_source_estimates]: what a call that returns went through *)

Ltac prepare_cases Hs :=
  unfold prepare in Hs;
  repeat match type of Hs with
         | match ?x with _ => _ end = Ok _ =>
             destruct x eqn:?; try discriminate
         | rbind ?x _ = Ok _ => destruct x eqn:?; try discriminate;
                                cbn [rbind] in Hs
         | (if ?x then _ else _) = Ok _ => destruct x eqn:?;
                                           try discriminate
         | (let '(_, _) := ?x in _) = Ok _ => destruct x eqn:?
         end.

(** What a successful [prepare] tells about the values it returns. *)
Lemma prepare_inv L a s :
  prepare L a = Ok s ->
  a_stc a = IsSourceEstimate (s_stc s) /\
  s_views s = views_of a /\
  check_views (views_of a) = Ok tt /\
  str_in (a_hemi a) ["lh"; "rh"; "split"; "both"] = true /\
  s_hemis s = (if str_in (a_hemi a) ["both"; "split"]
               then ["lh"; "rh"] else [a_hemi a]) /\
  s_foreground s = default "black" (a_foreground a) /\
  s_title s = capitalize L
                (if (1 <? length (s_hemis s))%nat then s_subject s
                 else s_subject s +:+ " - " +:+ hd "" (s_hemis s)) /\
  match a_initial_time a with
  | None => Ok 0%nat
  | Some initial_time =>
      argmin (map (fun t => Qabs (t - initial_time
                                      / (if String.eqb (a_time_unit a) "ms"
                                         then 1000 else 1)))
                  (stc_times (s_stc s)))
  end = Ok (s_time_idx s) /\
  _handle_time L (a_time_label a) (a_time_unit a) (stc_times (s_stc s))
  = Ok (s_time_label s, s_times s) /\
  len_opt (dict_get (s_hemi_vertices s) "lh" ≫= id) = Ok (s_n_lh s) /\
  (exists column, data_column (s_stc s) (s_time_idx s) = Ok column /\
                  s_stc_data s = s_morph_mat s column) /\
  (s_fig_w s, s_fig_h s) = match a_size a with
                           | SizeInt size => (size, size)
                           | SizePair w h => (w, h)
                           end /\
  s_cmap s = _calculate_cmap L (s_lim_cmap s) (a_alpha a) (s_ctrl_pts s)
                             (s_scale_pts s) /\
  s_dt_min s = pts0 (s_scale_pts s) /\
  s_dt_max s = pts_last (s_scale_pts s) /\
  (s_k s, s_b s) = linear_coefficients (s_dt_min s) (s_dt_max s).
Proof.
  intros Hs. prepare_cases Hs. injection Hs as <-. cbn.
  destruct a0.
  repeat match goal with
         | H : negb _ = false |- _ => apply negb_false_iff in H
         end.
  repeat split; eauto.
Qed.

(** ** The figure loop, one hemisphere at a time *)

(** What one pass of the loop over the hemispheres does when it returns: it
    draws nothing (no data, or no geometry), or it draws the cortex and the
    overlay of [h] on the current figure, a new one with 'split'. *)
Lemma hemi_body_inv E view h lv w lv' w' :
  hemi_body E view h lv w = (Ok lv', w') ->
  (String.eqb (le_hemi E) "split" = false -> is_Some (w_current w)) ->
  (lv' = lv /\ w' = w /\
   (length (hemi_data h (le_n_lh E) (le_stc_data E)) = 0%nat \/
    dict_get (le_hemi_vertices E) h = Some None \/
    dict_get (le_hemi_faces E) h = Some None))
  \/
  exists vs fs brain_color elev azim,
    (0 < length (hemi_data h (le_n_lh E) (le_stc_data E)))%nat /\
    dict_get (le_hemi_vertices E) h = Some (Some vs) /\
    dict_get (le_hemi_faces E) h = Some (Some fs) /\
    read_morph (le_lib E)
      (path_join (le_lib E) (le_subjects_dir E) (le_subject E)
                 ("surf/" +:+ h +:+ ".curv")) = Ok brain_color /\
    dict_get views_dict view = Some (elev, azim) /\
    let n := length (w_meshes w) in
    let hm := <[mesh_key h view := Some (S n)]> (lv_hemi_meshes lv) in
    let ms := w_meshes w ++ loop_meshes E h vs fs brain_color in
    let draw := drawn_figure (le_background E) azim elev n in
    if String.eqb (le_hemi E) "split" then
      let fig := length (w_figures w) in
      lv' = LoopVars (lv_figs lv) (Some fig)
                     (Some (match lv_figs_row lv with
                            | None => [fig]
                            | Some row => row ++ [fig]
                            end)) hm /\
      w' = World (w_figures w ++ [draw (loop_figure E)]) (Some fig) ms
                 (w_children w) (w_shown w) (w_viewer w)
    else
      exists c, w_current w = Some c /\
      lv' = LoopVars (lv_figs lv) (lv_fig lv) (lv_figs_row lv) hm /\
      w' = World (alter draw c (w_figures w)) (Some c) ms
                 (w_children w) (w_shown w) (w_viewer w).
Proof.
  intros H Hcur. unfold hemi_body in H.
  destruct (0 <? length (hemi_data h (le_n_lh E) (le_stc_data E)))%nat eqn:Hd.
  2:{ injection H as <- <-. left. split; [reflexivity|]. split; [reflexivity|].
      left. apply Nat.ltb_ge in Hd. lia. }
  apply Nat.ltb_lt in Hd.
  apply bind_inv in H as (bv & w1 & H1 & H).
  destruct (dict_get (le_hemi_vertices E) h) as [ov|] eqn:Hvs; [|discriminate].
  injection H1 as <- <-.
  apply bind_inv in H as (bf & w1 & H1 & H).
  destruct (dict_get (le_hemi_faces E) h) as [ofs|] eqn:Hfs; [|discriminate].
  injection H1 as <- <-.
  apply bind_inv in H as (brain_color & w1 & H1 & H).
  apply lift_inv in H1 as [Hmorph ->].
  destruct ov as [vs|]; [|injection H as <- <-; left; auto].
  destruct ofs as [fs|]; [|injection H as <- <-; left; auto].
  right.
  destruct (String.eqb (le_hemi E) "split") eqn:Hsplit.
  - apply bind_inv in H as (lv1 & w1 & H1 & H).
    apply bind_inv in H1 as (fig & w2 & Hfig & H1).
    injection Hfig as <- <-.
    apply bind_inv in H1 as ([] & w3 & Hanim & H1).
    injection Hanim as <-.
    injection H1 as <- <-.
    erewrite bind_ok in H by (apply plot_hemisphere_mesh_run; reflexivity).
    unfold ipv_style_box_off, ipv_style_axes_off, ipv_style_background_color
      in H.
    do 3 (erewrite bind_ok in H by (apply gcf_update_run; reflexivity)).
    apply bind_inv in H as ([elev azim] & w1 & H1 & H).
    destruct (dict_get views_dict view) as [[elev' azim']|] eqn:Hview;
      [|discriminate].
    injection H1 as <- <- <-.
    unfold ipv_view, ipv_squarelim in H.
    do 2 (erewrite bind_ok in H by (apply gcf_update_run; reflexivity)).
    injection H as <- <-.
    exists vs, fs, brain_color, elev', azim'.
    repeat (split; [first [assumption | reflexivity]|]).
    destruct w as [figs cur ms ch sh vw].
    cbv [set_figures set_meshes set_current w_figures w_current w_meshes
         w_children w_shown w_viewer]. cbn.
    rewrite !list_alter_alter_eq, alter_new. reflexivity.
  - destruct (Hcur eq_refl) as [c Hc].
    apply bind_inv in H as (lv1 & w1 & H1 & H).
    injection H1 as <- <-.
    erewrite bind_ok in H by (apply plot_hemisphere_mesh_run; exact Hc).
    unfold ipv_style_box_off, ipv_style_axes_off, ipv_style_background_color
      in H.
    destruct w as [figs cur ms ch sh vw]. cbn in Hc. subst cur.
    do 3 (erewrite bind_ok in H by (apply gcf_update_run; reflexivity)).
    apply bind_inv in H as ([elev azim] & w1 & H1 & H).
    destruct (dict_get views_dict view) as [[elev' azim']|] eqn:Hview;
      [|discriminate].
    injection H1 as <- <- <-.
    unfold ipv_view, ipv_squarelim in H.
    do 2 (erewrite bind_ok in H by (apply gcf_update_run; reflexivity)).
    injection H as <- <-.
    exists vs, fs, brain_color, elev', azim'.
    repeat (split; [first [assumption | reflexivity]|]).
    cbv zeta. exists c. split; [reflexivity|]. split; [reflexivity|].
    cbv [set_figures set_meshes set_current w_figures w_current w_meshes
         w_children w_shown w_viewer]. cbn. rewrite !list_alter_alter_eq.
    f_equal. apply list_alter_ext; [|reflexivity].
    intros f _. unfold drawn_figure, add_mesh. cbn.
    rewrite <- app_assoc. reflexivity.
Qed.

Lemma booked_empty E ms : booked E ∅ ms.
Proof.
  split.
  - intros key om H. rewrite lookup_empty in H. discriminate.
  - intros key key' m H. rewrite lookup_empty in H. discriminate.
Qed.

Lemma fmap_lookup_app_l {A B} (f : A -> B) (l k : list A) i y :
  f <$> l !! i = Some y -> f <$> (l ++ k) !! i = Some y.
Proof.
  intros H. destruct (l !! i) as [x|] eqn:E; [|discriminate].
  rewrite (lookup_app_l_Some _ _ _ _ E). exact H.
Qed.

Lemma hemi_body_book E view h lv w lv' w' :
  hemi_body E view h lv w = (Ok lv', w') ->
  In h (le_hemis E) ->
  (String.eqb (le_hemi E) "split" = false -> is_Some (w_current w)) ->
  booked E (lv_hemi_meshes lv) (w_meshes w) ->
  booked E (lv_hemi_meshes lv') (w_meshes w') /\
  (String.eqb (le_hemi E) "split" = false -> is_Some (w_current w')) /\
  (exists new, w_meshes w' = w_meshes w ++ new /\
               (drawable E h -> length new = 2%nat)) /\
  (forall key, is_Some (lv_hemi_meshes lv !! key) ->
     is_Some (lv_hemi_meshes lv' !! key)) /\
  (drawable E h -> is_Some (lv_hemi_meshes lv' !! mesh_key h view)) /\
  w_children w' = w_children w /\ w_viewer w' = w_viewer w.
Proof.
  intros H Hh Hcur [B1 B2].
  destruct (hemi_body_inv _ _ _ _ _ _ _ H Hcur)
    as [(-> & -> & Hskip)
       | (vs & fs & bc & elev & azim & Hd & Hvs & Hfs & Hmorph & Hview & Hrest)].
  - split; [split; assumption|]. split; [exact Hcur|].
    split.
    { exists []. rewrite app_nil_r. split; [reflexivity|].
      intros (Hd & [vs Hvs] & [fs Hfs]).
      destruct Hskip as [Hs|[Hs|Hs]]; [lia | congruence | congruence]. }
    split; [auto|]. split; [|auto].
    intros (Hd & [vs Hvs] & [fs Hfs]).
    destruct Hskip as [Hs|[Hs|Hs]]; [lia | congruence | congruence].
  - cbv zeta in Hrest.
    set (n := length (w_meshes w)) in *.
    set (hm := <[mesh_key h view := Some (S n)]> (lv_hemi_meshes lv)) in *.
    assert (Hhm : lv_hemi_meshes lv' = hm /\
                  w_meshes w' = w_meshes w ++ loop_meshes E h vs fs bc /\
                  is_Some (w_current w') /\
                  w_children w' = w_children w /\ w_viewer w' = w_viewer w).
    { destruct (String.eqb (le_hemi E) "split").
      - destruct Hrest as [-> ->]. cbn. eauto 10.
      - destruct Hrest as (c & Hc & -> & ->). cbn. eauto 10. }
    destruct Hhm as (Ehm & Ems & Hcur' & Ech & Evw). rewrite Ehm, Ems.
    assert (Hold : forall key m, lv_hemi_meshes lv !! key = Some (Some m) ->
                     (m < n)%nat).
    { intros key m Hk. destruct (B1 _ _ Hk) as (h0 & v0 & m0 & _ & _ & Em & Hc).
      injection Em as <-. destruct (w_meshes w !! m) eqn:El; [|discriminate].
      apply lookup_lt_Some in El. exact El. }
    split; [split|].
    + intros key om Hk. unfold hm in Hk.
      destruct (decide (key = mesh_key h view)) as [->|Hne].
      * rewrite lookup_insert_eq in Hk. injection Hk as <-.
        exists h, view, (S n). repeat split; try assumption; try reflexivity.
        unfold loop_meshes, n. cbv zeta. rewrite lookup_overlay. reflexivity.
      * rewrite lookup_insert_ne in Hk by congruence.
        destruct (B1 _ _ Hk) as (h0 & v0 & m0 & E1 & E2 & E3 & E4).
        exists h0, v0, m0. repeat split; try assumption.
        apply fmap_lookup_app_l. exact E4.
    + intros key key' m Hk Hk'. unfold hm in Hk, Hk'.
      destruct (decide (key = mesh_key h view)) as [->|Hne];
        destruct (decide (key' = mesh_key h view)) as [->|Hne'];
        try reflexivity.
      * rewrite lookup_insert_eq in Hk. injection Hk as <-.
        rewrite lookup_insert_ne in Hk' by congruence.
        apply Hold in Hk'. lia.
      * rewrite lookup_insert_eq in Hk'. injection Hk' as <-.
        rewrite lookup_insert_ne in Hk by congruence.
        apply Hold in Hk. lia.
      * rewrite lookup_insert_ne in Hk, Hk' by congruence. eauto.
    + split; [intros _; exact Hcur'|].
      split; [exists (loop_meshes E h vs fs bc); split; [reflexivity|];
              intros _; reflexivity|].
      split; [|split; [|split; assumption]].
      * intros key [om Hk]. unfold hm.
        destruct (decide (key = mesh_key h view)) as [->|Hne].
        -- rewrite lookup_insert_eq. eauto.
        -- rewrite lookup_insert_ne by congruence. eauto.
      * intros _. unfold hm. rewrite lookup_insert_eq. eauto.
Qed.

Lemma hemis_loop_book E view : forall hs lv w lv' w',
  for_each hs (hemi_body E view) lv w = (Ok lv', w') ->
  (forall h, In h hs -> In h (le_hemis E)) ->
  (String.eqb (le_hemi E) "split" = false -> is_Some (w_current w)) ->
  booked E (lv_hemi_meshes lv) (w_meshes w) ->
  booked E (lv_hemi_meshes lv') (w_meshes w') /\
  (exists new, w_meshes w' = w_meshes w ++ new /\
               ((forall h, In h hs -> drawable E h) ->
                length new = (2 * length hs)%nat)) /\
  (forall key, is_Some (lv_hemi_meshes lv !! key) ->
     is_Some (lv_hemi_meshes lv' !! key)) /\
  (forall h, In h hs -> drawable E h ->
     is_Some (lv_hemi_meshes lv' !! mesh_key h view)) /\
  w_children w' = w_children w /\ w_viewer w' = w_viewer w.
Proof.
  induction hs as [|h hs IH]; intros lv w lv' w' H Hin Hcur Hb.
  - injection H as <- <-. split; [exact Hb|].
    split; [exists []; rewrite app_nil_r; auto|].
    split; [auto|]. split; [intros h []|auto].
  - cbn [for_each] in H. apply bind_inv in H as (lv1 & w1 & H1 & H).
    destruct (hemi_body_book _ _ _ _ _ _ _ H1 (Hin h (or_introl eq_refl))
                Hcur Hb)
      as (Hb1 & Hcur1 & (new1 & Hm1 & Hl1) & Hk1 & Hd1 & Hc1 & Hv1).
    destruct (IH _ _ _ _ H (fun h0 Hh0 => Hin h0 (or_intror Hh0)) Hcur1 Hb1)
      as (Hb2 & (new2 & Hm2 & Hl2) & Hk2 & Hd2 & Hc2 & Hv2).
    split; [exact Hb2|].
    split.
    { exists (new1 ++ new2). rewrite Hm2, Hm1, app_assoc.
      split; [reflexivity|]. intros Hall. rewrite length_app.
      rewrite Hl1 by (apply Hall; left; reflexivity).
      rewrite Hl2 by (intros; apply Hall; right; assumption).
      cbn [length]. lia. }
    split; [auto|].
    split; [|split; congruence].
    intros h0 [<-|Hh0] Hdr; [apply Hk2, Hd1, Hdr | apply Hd2; assumption].
Qed.

Lemma view_body_book E view lv w lv' w' :
  view_body E view lv w = (Ok lv', w') ->
  booked E (lv_hemi_meshes lv) (w_meshes w) ->
  booked E (lv_hemi_meshes lv') (w_meshes w') /\
  (exists new, w_meshes w' = w_meshes w ++ new /\
               ((forall h, In h (le_hemis E) -> drawable E h) ->
                length new = (2 * length (le_hemis E))%nat)) /\
  (forall key, is_Some (lv_hemi_meshes lv !! key) ->
     is_Some (lv_hemi_meshes lv' !! key)) /\
  (forall h, In h (le_hemis E) -> drawable E h ->
     is_Some (lv_hemi_meshes lv' !! mesh_key h view)) /\
  w_children w' = w_children w /\ w_viewer w' = w_viewer w.
Proof.
  intros H Hb. unfold view_body in H.
  apply bind_inv in H as (lv1 & w1 & H1 & H).
  apply bind_inv in H as (lv2 & w2 & Hloop & H).
  assert (Hpre : lv_hemi_meshes lv1 = lv_hemi_meshes lv /\
                 w_meshes w1 = w_meshes w /\
                 w_children w1 = w_children w /\ w_viewer w1 = w_viewer w /\
                 (String.eqb (le_hemi E) "split" = false ->
                  is_Some (w_current w1))).
  { destruct (String.eqb (le_hemi E) "split"); cbn [negb] in H1.
    - injection H1 as <- <-. cbn. repeat split; discriminate.
    - apply bind_inv in H1 as (fig & w3 & Hfig & H1).
      injection Hfig as <- <-.
      apply bind_inv in H1 as ([] & w4 & Hanim & H1).
      injection Hanim as <-. injection H1 as <- <-. cbn.
      repeat split; eauto. }
  destruct Hpre as (Ehm & Ems & Ech & Evw & Hcur).
  rewrite <- Ehm, <- Ems in Hb.
  destruct (hemis_loop_book _ _ _ _ _ _ _ Hloop (fun h Hh => Hh) Hcur Hb)
    as (Hb2 & Hnew & Hk & Hd & Hc & Hv).
  assert (Hpost : lv_hemi_meshes lv' = lv_hemi_meshes lv2 /\ w' = w2).
  { destruct (lv_figs_row lv2); [injection H as <- <-; auto|].
    destruct (lv_fig lv2); [injection H as <- <-; auto | discriminate]. }
  destruct Hpost as [-> ->]. rewrite <- Ehm, <- Ems, <- Ech, <- Evw.
  split; [exact Hb2|]. split; [exact Hnew|]. split; [exact Hk|].
  split; [exact Hd|]. split; assumption.
Qed.

Lemma views_loop_book E : forall views lv w lv' w',
  for_each views (view_body E) lv w = (Ok lv', w') ->
  booked E (lv_hemi_meshes lv) (w_meshes w) ->
  booked E (lv_hemi_meshes lv') (w_meshes w') /\
  (exists new, w_meshes w' = w_meshes w ++ new /\
               ((forall h, In h (le_hemis E) -> drawable E h) ->
                length new
                = (2 * (length views * length (le_hemis E)))%nat)) /\
  (forall key, is_Some (lv_hemi_meshes lv !! key) ->
     is_Some (lv_hemi_meshes lv' !! key)) /\
  (forall view h, In view views -> In h (le_hemis E) -> drawable E h ->
     is_Some (lv_hemi_meshes lv' !! mesh_key h view)) /\
  w_children w' = w_children w /\ w_viewer w' = w_viewer w.
Proof.
  induction views as [|view views IH]; intros lv w lv' w' H Hb.
  - injection H as <- <-. split; [exact Hb|].
    split; [exists []; rewrite app_nil_r; auto|].
    split; [auto|]. split; [intros view h []|auto].
  - cbn [for_each] in H. apply bind_inv in H as (lv1 & w1 & H1 & H).
    destruct (view_body_book _ _ _ _ _ _ H1 Hb)
      as (Hb1 & (new1 & Hm1 & Hl1) & Hk1 & Hd1 & Hc1 & Hv1).
    destruct (IH _ _ _ _ H Hb1)
      as (Hb2 & (new2 & Hm2 & Hl2) & Hk2 & Hd2 & Hc2 & Hv2).
    split; [exact Hb2|].
    split.
    { exists (new1 ++ new2). rewrite Hm2, Hm1, app_assoc.
      split; [reflexivity|]. intros Hall. rewrite length_app.
      rewrite Hl1, Hl2 by exact Hall. cbn [length]. lia. }
    split; [auto|].
    split; [|split; congruence].
    intros v0 h [<-|Hv0] Hh Hdr; [apply Hk2, Hd1; assumption | auto].
Qed.

(** ** [plot_source_estimates], step by step *)

Lemma plot_inv L a w figs w' :
  plot_source_estimates L a w = (Ok figs, w') ->
  exists s lv w2 children w4,
    prepare L a = Ok s /\
    for_each (s_views s) (view_body (loop_env_of L a s))
             (LoopVars [] None None ∅) w = (Ok lv, w2) /\
    figs = lv_figs lv /\
    scene_children (a_hemi a) (s_title s) (s_foreground s) figs = Ok children /\
    time_viewer_block L a s (lv_hemi_meshes lv) (set_children children w2)
    = (Ok tt, w4) /\
    w' = set_shown true w4.
Proof.
  intros H. unfold plot_source_estimates in H.
  apply bind_inv in H as (s & w1 & Hs & H).
  apply lift_inv in Hs as [Hs ->].
  apply bind_inv in H as (lv & w2 & Hloop & H).
  apply bind_inv in H as (children & w3 & Hch & H).
  apply lift_inv in Hch as [Hch ->].
  apply bind_inv in H as ([] & w4 & Hset & H).
  injection Hset as <-.
  apply bind_inv in H as ([] & w5 & Htv & H).
  injection H as <- <-.
  exists s, lv, w2, children, w5. auto 10.
Qed.

Lemma time_viewer_block_inv L a s hm w w' :
  a_time_viewer a = true ->
  time_viewer_block L a s hm w = (Ok tt, w') ->
  exists x label,
    s_times s !! s_time_idx s = Some x /\
    label_text (closure_of L a s hm) x = Some label /\
    w' = set_children
           (w_children w
            ++ [if a_colorbar a then info_widget else control_widget])
           (set_viewer
              (Some (Viewer (closure_of L a s hm) (s_cmap s) (s_k s) (s_b s)
                       label (s_time_idx s)
                       (if a_colorbar a
                        then Some (new_colorbar (s_cmap s) (s_dt_min s)
                                     (s_dt_max s) (s_ctrl_pts s))
                        else None))) w).
Proof.
  intros Htv H. unfold time_viewer_block in H. rewrite Htv in H.
  apply bind_inv in H as (label & w1 & Hl & H).
  unfold label_text, closure_of. cbn [cl_time_label cl_lib].
  unfold time_at, lift in Hl.
  destruct (s_time_label s) as [fmt|f|].
  - apply bind_inv in Hl as (t & w2 & Ht & Hl).
    destruct (s_times s !! s_time_idx s) as [x|] eqn:Hx; [|discriminate].
    injection Ht as <- <-. injection Hl as <- <-.
    exists x, (str_mod L fmt x). split; [reflexivity|]. split; [reflexivity|].
    destruct (a_colorbar a); injection H as <-; reflexivity.
  - apply bind_inv in Hl as (t & w2 & Ht & Hl).
    destruct (s_times s !! s_time_idx s) as [x|] eqn:Hx; [|discriminate].
    injection Ht as <- <-. injection Hl as <- <-.
    exists x, (f x). split; [reflexivity|]. split; [reflexivity|].
    destruct (a_colorbar a); injection H as <-; reflexivity.
  - injection Hl as <- <-. discriminate.
Qed.

Lemma hemis_lh_rh L a s h :
  prepare L a = Ok s -> In h (s_hemis s) -> h = "lh" \/ h = "rh".
Proof.
  intros Hs Hh.
  destruct (prepare_inv _ _ _ Hs) as (_ & _ & _ & Hin & Hhemis & _).
  rewrite Hhemis in Hh.
  destruct (str_in (a_hemi a) ["both"; "split"]) eqn:Eb.
  - destruct Hh as [<-|[<-|[]]]; auto.
  - destruct Hh as [<-|[]]. unfold str_in in Hin, Eb. cbn [existsb] in Hin, Eb.
    destruct (String.eqb_spec (a_hemi a) "lh"); [auto|].
    destruct (String.eqb_spec (a_hemi a) "rh"); [auto|].
    destruct (String.eqb_spec (a_hemi a) "split");
      destruct (String.eqb_spec (a_hemi a) "both"); discriminate.
Qed.

Lemma mesh_key_hemi h h' view view' :
  h = "lh" \/ h = "rh" -> h' = "lh" \/ h' = "rh" ->
  mesh_key h view = mesh_key h' view' -> h = h'.
Proof.
  intros [->| ->] [->| ->] H; try reflexivity; discriminate.
Qed.

(** ** The viewer that [plot_source_estimates] leaves *)

Lemma plot_viewer_inv L a s w figs w' :
  prepare L a = Ok s ->
  a_time_viewer a = true ->
  (forall h, In h (s_hemis s) -> drawable (loop_env_of L a s) h) ->
  plot_source_estimates L a w = (Ok figs, w') ->
  exists hm x label,
    w_viewer w'
    = Some (Viewer (closure_of L a s hm) (s_cmap s) (s_k s) (s_b s) label
                   (s_time_idx s)
                   (if a_colorbar a
                    then Some (new_colorbar (s_cmap s) (s_dt_min s)
                                 (s_dt_max s) (s_ctrl_pts s))
                    else None)) /\
    s_times s !! s_time_idx s = Some x /\
    label_text (closure_of L a s hm) x = Some label /\
    (exists new, w_meshes w' = w_meshes w ++ new /\
       length new = (2 * (length (s_views s) * length (s_hemis s)))%nat) /\
    booked (loop_env_of L a s) hm (w_meshes w') /\
    (forall view h, In view (s_views s) -> In h (s_hemis s) ->
       is_Some (hm !! mesh_key h view)).
Proof.
  intros Hs Htv Hdr H.
  apply plot_inv in H
    as (s' & lv & w2 & children & w4 & Hs' & Hloop & -> & Hch & Hblock & ->).
  rewrite Hs in Hs'. injection Hs' as <-.
  destruct (views_loop_book _ _ _ _ _ _ Hloop (booked_empty _ _))
    as (Hb & (new & Hm & Hl) & _ & Hkeys & _ & _).
  apply (time_viewer_block_inv _ _ _ _ _ _ Htv) in Hblock
    as (x & label & Hx & Hlabel & ->).
  exists (lv_hemi_meshes lv), x, label. cbn.
  split; [reflexivity|]. split; [exact Hx|]. split; [exact Hlabel|].
  split; [exists new; split; [exact Hm | apply Hl, Hdr]|].
  split; [exact Hb|].
  intros view h Hv Hh. apply Hkeys; auto.
Qed.

Lemma booked_complete L a s hm (ms : list mesh) :
  prepare L a = Ok s ->
  booked (loop_env_of L a s) hm ms ->
  (forall view h, In view (s_views s) -> In h (s_hemis s) ->
     is_Some (hm !! mesh_key h view)) ->
  meshes_complete (closure_of L a s hm) (length ms) /\
  (forall view h m, In h (s_hemis s) ->
     hm !! mesh_key h view = Some (Some m) ->
     m_color <$> ms !! m
     = Some (ColorArray (loop_colors (loop_env_of L a s) h))).
Proof.
  intros Hs [B1 B2] Hkeys.
  assert (Hcol : forall view h m, In h (s_hemis s) ->
            hm !! mesh_key h view = Some (Some m) ->
            m_color <$> ms !! m
            = Some (ColorArray (loop_colors (loop_env_of L a s) h))).
  { intros view h m Hh Hk.
    destruct (B1 _ _ Hk) as (h0 & v0 & m0 & Ek & Hh0 & Em & Hc).
    injection Em as <-.
    rewrite (mesh_key_hemi h h0 view v0); eauto using hemis_lh_rh. }
  split; [split|exact Hcol].
  - intros view h Hin. apply in_loop_pairs in Hin as [Hv Hh].
    destruct (Hkeys view h Hv Hh) as [om Hk].
    destruct (B1 _ _ Hk) as (h0 & v0 & m & _ & _ & -> & Hc).
    exists m. split; [exact Hk|].
    destruct (ms !! m) eqn:El; [|discriminate].
    eapply lookup_lt_Some; eauto.
  - intros view h view' h' m Hin Hin' Hk Hk'.
    apply in_loop_pairs in Hin as [_ Hh], Hin' as [_ Hh'].
    cbn in Hk, Hk', Hh, Hh'.
    eapply mesh_key_hemi; eauto using hemis_lh_rh.
Qed.

(** X10: after a call with [time_viewer=True] that returns, when every
    hemisphere of the plot has data and geometry, the handlers find what
    they need: the colour map and the coefficients of the plot, the slider
    at the initial time index, the label of that time, and in
    [hemi_meshes], for every view and hemisphere, an overlay of the scene
    that shows the colours of this hemisphere; no overlay stands for two
    hemispheres.  Two meshes were added per view and hemisphere. *)
Theorem plot_sets_up_viewer (L : lib) (a : args) (s : setup) (w w' : world)
    (figs : list fig_entry) :
  prepare L a = Ok s ->
  a_time_viewer a = true ->
  (forall h, In h (s_hemis s) -> drawable (loop_env_of L a s) h) ->
  plot_source_estimates L a w = (Ok figs, w') ->
  exists v x,
    w_viewer w' = Some v /\
    v_cmap v = s_cmap s /\ v_k v = s_k s /\ v_b v = s_b s /\
    v_slider v = s_time_idx s /\
    s_times s !! s_time_idx s = Some x /\
    label_text (v_env v) x = Some (v_label v) /\
    cl_views (v_env v) = views_of a /\ cl_hemis (v_env v) = s_hemis s /\
    (is_Some (v_cbar v) <-> a_colorbar a = true) /\
    length (w_meshes w')
    = (length (w_meshes w)
       + 2 * (length (views_of a) * length (s_hemis s)))%nat /\
    meshes_complete (v_env v) (length (w_meshes w')) /\
    (forall view h m,
       In view (views_of a) -> In h (s_hemis s) ->
       cl_hemi_meshes (v_env v) !! mesh_key h view = Some (Some m) ->
       m_color <$> w_meshes w' !! m = Some (hemi_colors v (s_stc_data s) h)).
Proof.
  intros Hs Htv Hdr H.
  destruct (plot_viewer_inv _ _ _ _ _ _ Hs Htv Hdr H)
    as (hm & x & label & Hv & Hx & Hlabel & (new & Hm & Hl) & Hb & Hkeys).
  destruct (booked_complete _ _ _ _ _ Hs Hb Hkeys) as [Hc Hcol].
  destruct (prepare_inv _ _ _ Hs) as (_ & Hviews & _).
  eexists. exists x. split; [exact Hv|]. cbn.
  repeat (split; [first [reflexivity | assumption]|]).
  split.
  { destruct (a_colorbar a); split; intros H'; try reflexivity; eauto;
      try discriminate. destruct H' as [? H']. discriminate. }
  split; [rewrite Hm, length_app, Hl, Hviews; reflexivity|].
  split; [exact Hc|].
  intros view h m _ Hh Hk. apply (Hcol view h m Hh Hk).
Qed.

(** X11: the first display is the one of the initial time index: after such a
    call, a move of the slider to [time_idx] changes nothing, neither the
    colours of the meshes nor the label. *)
Theorem slider_at_initial_time_changes_nothing (L : lib) (a : args)
    (s : setup) (w w' : world) (figs : list fig_entry) :
  prepare L a = Ok s ->
  a_time_viewer a = true ->
  (forall h, In h (s_hemis s) -> drawable (loop_env_of L a s) h) ->
  plot_source_estimates L a w = (Ok figs, w') ->
  slider_handler (s_time_idx s) w' = (Ok tt, w').
Proof.
  intros Hs Htv Hdr H.
  destruct (plot_viewer_inv _ _ _ _ _ _ Hs Htv Hdr H)
    as (hm & x & label & Hv & Hx & Hlabel & _ & Hb & Hkeys).
  destruct (booked_complete _ _ _ _ _ Hs Hb Hkeys) as [Hc Hcol].
  destruct (prepare_inv _ _ _ Hs)
    as (_ & _ & _ & _ & _ & _ & _ & _ & _ & _ & (column & Hcol0 & Hsd) & _).
  set (v := Viewer _ _ _ _ _ _ _) in Hv.
  assert (Ht : (s_time_idx s < length (stc_times (s_stc s)))%nat).
  { unfold data_column in Hcol0.
    destruct (Nat.ltb_spec (s_time_idx s) (length (stc_times (s_stc s))));
      [assumption | discriminate]. }
  rewrite (data_column_ok _ _ Ht) in Hcol0. injection Hcol0 as Hcolumn.
  destruct (slider_handler_painted w' v (s_time_idx s) x label Hv
              (fun view h => complete_keys _ _ view h Hc) Ht Hx Hlabel)
    as (ms' & Hrun & [Hlen Hp]).
  rewrite Hrun. f_equal.
  assert (E : ms' = w_meshes w').
  { apply list_eq. intros m.
    destruct (Hp m) as [(view & h & Hin & Hk & E) | [_ E]]; [|exact E].
    rewrite E. apply in_loop_pairs in Hin as [_ Hh]. cbn in Hk, Hh.
    pose proof (Hcol view h m Hh Hk) as Hc0.
    destruct (w_meshes w' !! m) as [msh|]; [|reflexivity].
    cbn in Hc0 |- *. injection Hc0 as Hc0. f_equal.
    destruct msh as [mx my mz mt mc mm]. unfold paint. cbn in Hc0 |- *.
    rewrite Hc0. unfold hemi_colors, loop_colors. cbn.
    rewrite Hcolumn, <- Hsd. reflexivity. }
  rewrite E. destruct w'. cbn in Hv |- *. rewrite Hv. reflexivity.
Qed.

(** ** [plot_source_estimates]: the container *)

Lemma mapM_Some_fmap {A B} (f : A -> option B) (g : A -> B) l k :
  mapM f l = Some k ->
  (forall x y, f x = Some y -> y = g x) ->
  k = map g l.
Proof.
  intros H Hfg. apply mapM_Some in H.
  induction H as [|x y l k Hxy _ IH]; [reflexivity|].
  cbn. rewrite (Hfg _ _ Hxy), IH. reflexivity.
Qed.

Lemma scene_children_inv hemi title foreground figs children :
  scene_children hemi title foreground figs = Ok children ->
  children
  = HTML ("<p style=" +:+ dq +:+ "color: " +:+ foreground +:+ dq +:+ ">"
          +:+ "<b>" +:+ title +:+ "</b></p>")
    :: map entry_widget figs.
Proof.
  unfold scene_children. intros H.
  destruct (String.eqb hemi "split");
    match type of H with
    | match mapM ?f figs with _ => _ end = _ =>
        destruct (mapM f figs) as [l|] eqn:E; [|discriminate]
    end;
    injection H as <-; f_equal;
    apply (mapM_Some_fmap _ entry_widget _ _ E);
    intros [fig|row] y Hy; inversion Hy; reflexivity.
Qed.

(** X8: when [plot_source_estimates] returns, the container holds the title,
    then one widget per entry of the returned list, in its order (a figure,
    or with 'split' the row of the figures of a view), then, with
    [time_viewer], the box of the controls, and nothing else: what the
    container held before is replaced.  The title is the capitalised
    subject, followed by ' - ' and the hemisphere when one hemisphere is
    plotted, in the foreground colour, black by default; the scene is
    shown. *)
Theorem scene_layout (L : lib) (a : args) (s : setup) (w w' : world)
    (figs : list fig_entry) :
  prepare L a = Ok s ->
  plot_source_estimates L a w = (Ok figs, w') ->
  let title :=
    capitalize L (if str_in (a_hemi a) ["both"; "split"] then s_subject s
                  else s_subject s +:+ " - " +:+ a_hemi a) in
  let title_w :=
    HTML ("<p style=" +:+ dq +:+ "color: "
          +:+ default "black" (a_foreground a) +:+ dq +:+ ">"
          +:+ "<b>" +:+ title +:+ "</b></p>") in
  w_children w'
  = title_w :: map entry_widget figs
    ++ (if a_time_viewer a
        then [if a_colorbar a then info_widget else control_widget]
        else []) /\
  w_shown w' = true.
Proof.
  intros Hs H. cbv zeta.
  apply plot_inv in H
    as (s' & lv & w2 & children & w4 & Hs' & Hloop & -> & Hch & Hblock & ->).
  rewrite Hs in Hs'. injection Hs' as <-.
  apply scene_children_inv in Hch.
  destruct (prepare_inv _ _ _ Hs)
    as (_ & _ & _ & _ & Hhemis & Hfg & Htitle & _).
  assert (Et : s_title s
               = capitalize L (if str_in (a_hemi a) ["both"; "split"]
                               then s_subject s
                               else s_subject s +:+ " - " +:+ a_hemi a)).
  { rewrite Htitle, Hhemis.
    destruct (str_in (a_hemi a) ["both"; "split"]); reflexivity. }
  rewrite Et, Hfg in Hch.
  apply time_viewer_block_ok in Hblock.
  destruct (a_time_viewer a).
  - destruct Hblock as [label ->]. cbn. rewrite Hch. auto.
  - subst w4. cbn. rewrite Hch, app_nil_r. auto.
Qed.


(** ** [plot_source_estimates]: the figures of the views *)



Section SceneLoop.
Variable E : loop_env.
Hypothesis not_split : String.eqb (le_hemi E) "split" = false.




End SceneLoop.


(** ** [plot_source_estimates]: the meshes of the views *)

Lemma hemi_body_meshes E view h lv w lv' w' :
  hemi_body E view h lv w = (Ok lv', w') ->
  (String.eqb (le_hemi E) "split" = false -> is_Some (w_current w)) ->
  drawable E h ->
  w_meshes w' = w_meshes w ++ hemi_scene E h /\
  (String.eqb (le_hemi E) "split" = false -> is_Some (w_current w')).
Proof.
  intros H Hcur (Hd & [vs Hvs] & [fs Hfs]).
  destruct (hemi_body_inv _ _ _ _ _ _ _ H Hcur)
    as [(_ & _ & Hskip)
       | (vs' & fs' & bc & elev & azim & _ & Hvs' & Hfs' & Hmorph & _ & Hrest)].
  { destruct Hskip as [Hs|[Hs|Hs]]; [lia | congruence | congruence]. }
  unfold hemi_scene. rewrite Hvs', Hfs', Hmorph.
  cbv zeta in Hrest. destruct (String.eqb (le_hemi E) "split").
  - destruct Hrest as [_ ->]. cbn. split; [reflexivity | discriminate].
  - destruct Hrest as (c & _ & _ & ->). cbn. eauto.
Qed.

Lemma hemis_loop_meshes E view : forall hs lv w lv' w',
  for_each hs (hemi_body E view) lv w = (Ok lv', w') ->
  (String.eqb (le_hemi E) "split" = false -> is_Some (w_current w)) ->
  (forall h, In h hs -> drawable E h) ->
  w_meshes w' = w_meshes w ++ flat_map (hemi_scene E) hs.
Proof.
  induction hs as [|h hs IH]; intros lv w lv' w' H Hcur Hdr.
  - injection H as <- <-. cbn. rewrite app_nil_r. reflexivity.
  - cbn [for_each] in H. apply bind_inv in H as (lv1 & w1 & H1 & H).
    destruct (hemi_body_meshes _ _ _ _ _ _ _ H1 Hcur
                (Hdr h (or_introl eq_refl))) as [Hm1 Hcur1].
    rewrite (IH _ _ _ _ H Hcur1 (fun h0 Hh0 => Hdr h0 (or_intror Hh0))).
    rewrite Hm1. cbn. rewrite app_assoc. reflexivity.
Qed.

Lemma view_body_meshes E view lv w lv' w' :
  view_body E view lv w = (Ok lv', w') ->
  (forall h, In h (le_hemis E) -> drawable E h) ->
  w_meshes w' = w_meshes w ++ flat_map (hemi_scene E) (le_hemis E).
Proof.
  intros H Hdr. unfold view_body in H.
  apply bind_inv in H as (lv1 & w1 & H1 & H).
  apply bind_inv in H as (lv2 & w2 & Hloop & H).
  assert (Hpre : w_meshes w1 = w_meshes w /\
                 (String.eqb (le_hemi E) "split" = false ->
                  is_Some (w_current w1))).
  { destruct (String.eqb (le_hemi E) "split"); cbn [negb] in H1.
    - injection H1 as <- <-. split; [reflexivity | discriminate].
    - apply bind_inv in H1 as (fig & w3 & Hfig & H1).
      injection Hfig as <- <-.
      apply bind_inv in H1 as ([] & w4 & Hanim & H1).
      injection Hanim as <-. injection H1 as <- <-. cbn. eauto. }
  destruct Hpre as [Ems Hcur].
  rewrite <- Ems.
  rewrite <- (hemis_loop_meshes _ _ _ _ _ _ _ Hloop Hcur Hdr).
  destruct (lv_figs_row lv2); [injection H as <- <-; reflexivity|].
  destruct (lv_fig lv2); [injection H as <- <-; reflexivity | discriminate].
Qed.

Lemma views_loop_meshes E : forall views lv w lv' w',
  for_each views (view_body E) lv w = (Ok lv', w') ->
  (forall h, In h (le_hemis E) -> drawable E h) ->
  w_meshes w'
  = w_meshes w
    ++ mjoin (replicate (length views) (flat_map (hemi_scene E) (le_hemis E))).
Proof.
  induction views as [|view views IH]; intros lv w lv' w' H Hdr.
  - injection H as <- <-. cbn. rewrite app_nil_r. reflexivity.
  - cbn [for_each] in H. apply bind_inv in H as (lv1 & w1 & H1 & H).
    rewrite (IH _ _ _ _ H Hdr), (view_body_meshes _ _ _ _ _ _ H1 Hdr).
    cbn. rewrite app_assoc. reflexivity.
Qed.

(** X5: every view gets its own copy of the same meshes.  When every
    hemisphere of the plot has data and geometry, a call that returns has
    added, for each view in turn and for each hemisphere of the plot, two
    meshes: the cortex, with the vertices moved by [offset_hemi],
    the faces of the surface and the curvature read from 'surf/h.curv' as
    its colour, then the overlay, with the same geometry, the colours of the
    activation at the initial time and the transparent material.  The
    meshes that existed are as they were. *)
Theorem every_view_gets_the_same_meshes (L : lib) (a : args) (s : setup)
    (w w' : world) (figs : list fig_entry) :
  prepare L a = Ok s ->
  (forall h, In h (s_hemis s) -> drawable (loop_env_of L a s) h) ->
  plot_source_estimates L a w = (Ok figs, w') ->
  let E := loop_env_of L a s in
  w_meshes w'
  = w_meshes w
    ++ mjoin (replicate (length (views_of a))
                        (flat_map (hemi_scene E) (s_hemis s))) /\
  (views_of a <> [] ->
   forall h, In h (s_hemis s) ->
     exists vs fs brain_color,
       dict_get (s_hemi_vertices s) h = Some (Some vs) /\
       dict_get (s_hemi_faces s) h = Some (Some fs) /\
       read_morph L (path_join L (s_subjects_dir s) (s_subject s)
                               ("surf/" +:+ h +:+ ".curv"))
       = Ok brain_color /\
       let vs := offset_hemi_default L vs h in
       let x := map (fun v => fst (fst v)) vs in
       let y := map (fun v => snd (fst v)) vs in
       let z := map snd vs in
       let data := hemi_data h (s_n_lh s) (s_stc_data s) in
       hemi_scene E h
       = [Mesh x y z fs brain_color None;
          Mesh x y z fs
               (ColorArray (cmap_apply (s_cmap s)
                              (map (fun v => s_k s * v + s_b s) data)))
               (Some overlay_material)]).
Proof.
  intros Hs Hdr H. cbv zeta.
  apply plot_inv in H
    as (s' & lv & w2 & children & w4 & Hs' & Hloop & -> & Hch & Hblock & ->).
  rewrite Hs in Hs'. injection Hs' as <-.
  destruct (prepare_inv _ _ _ Hs) as (_ & Hviews & _).
  assert (Hw4 : w_meshes w4 = w_meshes w2).
  { apply time_viewer_block_ok in Hblock.
    destruct (a_time_viewer a); [destruct Hblock as [? ->]|subst]; auto. }
  cbn [w_meshes set_shown]. rewrite Hw4.
  split.
  { rewrite (views_loop_meshes _ _ _ _ _ _ Hloop Hdr), Hviews. reflexivity. }
  intros Hne h Hh.
  (* the loop ran at least once for [h], so the curvature was read *)
  destruct (views_of a) as [|view views] eqn:Ev; [congruence|].
  rewrite Hviews in Hloop. cbn [for_each] in Hloop.
  apply bind_inv in Hloop as (lv1 & w1 & H1 & _).
  unfold view_body in H1.
  apply bind_inv in H1 as (lv0 & w0 & H0 & H1).
  apply bind_inv in H1 as (lv2 & w3 & Hhs & _).
  assert (Hcur : String.eqb (le_hemi (loop_env_of L a s)) "split" = false ->
                 is_Some (w_current w0)).
  { destruct (String.eqb (le_hemi (loop_env_of L a s)) "split");
      cbn [negb] in H0; [discriminate|].
    apply bind_inv in H0 as (fig & w5 & Hfig & H0).
    injection Hfig as <- <-.
    apply bind_inv in H0 as ([] & w6 & Hanim & H0).
    injection Hanim as <-. injection H0 as <- <-. cbn. eauto. }
  clear H0.
  assert (Hread : forall hs lv w lv' w',
            for_each hs (hemi_body (loop_env_of L a s) view) lv w
            = (Ok lv', w') ->
            (String.eqb (le_hemi (loop_env_of L a s)) "split" = false ->
             is_Some (w_current w)) ->
            (forall h0, In h0 hs -> drawable (loop_env_of L a s) h0) ->
            In h hs ->
            exists vs fs bc,
              dict_get (s_hemi_vertices s) h = Some (Some vs) /\
              dict_get (s_hemi_faces s) h = Some (Some fs) /\
              read_morph L (path_join L (s_subjects_dir s) (s_subject s)
                                      ("surf/" +:+ h +:+ ".curv")) = Ok bc).
  { induction hs as [|h0 hs IH]; intros lva wa lvb wb Hrun Hc Hd Hin;
      [destruct Hin|].
    cbn [for_each] in Hrun. apply bind_inv in Hrun as (lvc & wc & Hb & Hrun).
    destruct Hin as [->|Hin].
    - destruct (hemi_body_inv _ _ _ _ _ _ _ Hb Hc)
        as [(_ & _ & Hskip)
           | (vs & fs & bc & _ & _ & _ & Hvs & Hfs & Hmorph & _)].
      + destruct (Hd h (or_introl eq_refl)) as (Hd' & [vs Hvs] & [fs Hfs]).
        destruct Hskip as [Hk|[Hk|Hk]]; [lia | congruence | congruence].
      + exists vs, fs, bc. auto.
    - destruct (hemi_body_meshes _ _ _ _ _ _ _ Hb Hc
                  (Hd h0 (or_introl eq_refl))) as [_ Hc'].
      eapply IH; eauto. intros; apply Hd; right; assumption. }
  destruct (Hread _ _ _ _ _ Hhs Hcur Hdr Hh) as (vs & fs & bc & Hvs & Hfs & Hm).
  exists vs, fs, bc. split; [exact Hvs|]. split; [exact Hfs|].
  split; [exact Hm|].
  unfold hemi_scene. cbn [le_hemi_vertices le_hemi_faces le_lib
    le_subjects_dir le_subject loop_env_of].
  rewrite Hvs, Hfs, Hm. reflexivity.
Qed.

(** ** The figure loop with 'split' *)

Section SplitLoop.
Variable E : loop_env.
Hypothesis is_split : String.eqb (le_hemi E) "split" = true.




End SplitLoop.


(** ** The colours of the bar *)

Lemma string_length_app (s t : string) :
  String.length (s +:+ t) = (String.length s + String.length t)%nat.
Proof.
  induction s as [|c s IH]; [reflexivity|].
  change (String c s +:+ t) with (String c (s +:+ t)).
  cbn [String.length Nat.add]. f_equal. exact IH.
Qed.

Lemma format_02x_byte (n : Z) :
  (0 <= n <= 255)%Z -> String.length (format_02x n) = 2%nat.
Proof.
  intros Hn.
  assert (Hall : forallb (fun i => Nat.eqb (String.length
                                              (format_02x (Z.of_nat i))) 2)
                         (seq 0 256) = true) by (vm_compute; reflexivity).
  rewrite forallb_forall in Hall.
  specialize (Hall (Z.to_nat n)).
  rewrite Z2Nat.id in Hall by lia.
  apply Nat.eqb_eq, Hall, in_seq. lia.
Qed.

Lemma blend_byte (a c bg : Q) :
  0 <= a <= 1 -> 0 <= c <= 1 -> 0 <= bg <= 1 ->
  (0 <= blend a c bg <= 255)%Z.
Proof.
  intros [Ha0 Ha1] [Hc0 Hc1] [Hb0 Hb1]. unfold blend, Qtrunc.
  set (q := 255 * (a * c + (1 - a) * bg)).
  assert (H1 : 0 <= a * c) by (apply Qmult_le_0_compat; assumption).
  assert (H2 : 0 <= (1 - a) * bg) by (apply Qmult_le_0_compat; lra).
  assert (H3 : 0 <= a * (1 - c)) by (apply Qmult_le_0_compat; lra).
  assert (H4 : 0 <= (1 - a) * (1 - bg)) by (apply Qmult_le_0_compat; lra).
  assert (Hq : 0 <= q <= 255).
  { unfold q. split; [lra|].
    assert (E : a * c + (1 - a) * bg
                == 1 - (a * (1 - c) + (1 - a) * (1 - bg))) by ring.
    rewrite E. lra. }
  destruct (Qltb q 0) eqn:E; [apply Qltb_lt in E; lra|].
  split.
  - change 0%Z with (Qfloor (inject_Z 0)) at 1.
    rewrite Qfloor_Z. change 0%Z with (Qfloor 0).
    apply Qfloor_resp_le. apply Hq.
  - change 255%Z with (Qfloor (inject_Z 255)).
    apply Qfloor_resp_le. apply Hq.
Qed.

Lemma linspace_length start stop num : length (linspace start stop num) = num.
Proof.
  destruct num as [|[|num]]; [reflexivity | reflexivity |].
  unfold linspace. rewrite length_map, length_seq. reflexivity.
Qed.

(** X15: the colours of the bar are proper '#rrggbb' strings.  The bar is
    built with one entry per colour of the colour map, over a grey
    background; whenever its colours are computed, at the plot and at every
    update of the thresholds, from a colour map that gives channels and
    alphas within [0, 1], every colour is a hash sign followed, for each
    channel, by the two hexadecimal digits of a value between 0 and 255. *)
Theorem colorbar_colors_are_hex (cmap cmap' : colormap) (dt_min dt_max : Q)
    (ctrl_pts : pts) :
  (forall x, 0 <= c_r (cm_call cmap' x) <= 1 /\
             0 <= c_g (cm_call cmap' x) <= 1 /\
             0 <= c_b (cm_call cmap' x) <= 1 /\
             0 <= c_a (cm_call cmap' x) <= 1) ->
  let cb := new_colorbar cmap dt_min dt_max ctrl_pts in
  let colors := colorbar_colors cmap' (cb_data cb) (cb_bg_color cb) in
  cb_marks cb
  = [HeatMap (cb_ticks cb) (cb_color cb)
             (colorbar_colors cmap (cb_data cb) (cb_bg_color cb))] /\
  length (cb_data cb) = cm_N cmap /\
  length (cb_ticks cb) = cm_N cmap /\
  length colors = cm_N cmap /\
  forall i s, colors !! i = Some s ->
    String.length s = 7%nat /\
    exists r g b : Z,
      (0 <= r <= 255)%Z /\ (0 <= g <= 255)%Z /\ (0 <= b <= 255)%Z /\
      String.length (format_02x r) = 2%nat /\
      String.length (format_02x g) = 2%nat /\
      String.length (format_02x b) = 2%nat /\
      s = "#" +:+ format_02x r +:+ format_02x g +:+ format_02x b.
Proof.
  intros Hcm. cbv zeta. unfold new_colorbar. cbv zeta.
  cbn [cb_marks cb_data cb_ticks cb_color cb_bg_color].
  set (cbar_data := linspace 0 1 (cm_N cmap)).
  assert (Hlen : length cbar_data = cm_N cmap) by apply linspace_length.
  split; [reflexivity|]. split; [exact Hlen|].
  split; [apply linspace_length|].
  unfold colorbar_colors, cmap_apply. rewrite !length_map.
  split.
  { rewrite length_zip_with, length_map, repeat_length. lia. }
  intros i s Hs. rewrite lookup_zip_with in Hs.
  rewrite list_lookup_fmap in Hs.
  destruct (cbar_data !! i) as [x|] eqn:Hx; [|discriminate].
  cbn in Hs.
  rewrite repeat_lookup in Hs by (eapply lookup_lt_Some; eauto).
  cbn in Hs. injection Hs as <-.
  destruct (Hcm x) as (Hr & Hg & Hb & Ha).
  assert (Hh : 0 <= 1 # 2 <= 1) by (split; discriminate).
  pose proof (blend_byte _ _ _ Ha Hr Hh) as Br.
  pose proof (blend_byte _ _ _ Ha Hg Hh) as Bg.
  pose proof (blend_byte _ _ _ Ha Hb Hh) as Bb.
  split.
  - rewrite !string_length_app, !format_02x_byte by assumption. reflexivity.
  - eexists _, _, _. split; [exact Br|]. split; [exact Bg|].
    split; [exact Bb|].
    rewrite !format_02x_byte by assumption. auto.
Qed.

(** ** The surfaces *)

(** X4: whatever [hemi] is, the surfaces of both hemispheres are read, the
    left one first, from 'surf/lh.<surface>' and 'surf/rh.<surface>' under
    the directory of the subject, and both must have vertices: a plot of one
    hemisphere needs the surface of the other one as well.  [hemi_vertices]
    and [hemi_faces] give back, under 'lh' and 'rh', what was read, and the
    morphing matrix is computed for the sizes of the two surfaces. *)
Theorem both_surfaces_are_read (L : lib) (a : args) (s : setup) :
  prepare L a = Ok s ->
  let path h :=
    path_join L (s_subjects_dir s) (s_subject s)
              ("surf/" +:+ h +:+ "." +:+ a_surface a) in
  exists lh_v lh_f rh_v rh_f,
    read_brain_mesh L (path "lh") = Ok (Some lh_v, lh_f) /\
    read_brain_mesh L (path "rh") = Ok (Some rh_v, rh_f) /\
    dict_get (s_hemi_vertices s) "lh" = Some (Some lh_v) /\
    dict_get (s_hemi_vertices s) "rh" = Some (Some rh_v) /\
    dict_get (s_hemi_faces s) "lh" = Some lh_f /\
    dict_get (s_hemi_faces s) "rh" = Some rh_f /\
    s_n_lh s = length lh_v /\
    compute_morph_matrix L (s_subject s) (stc_vertices (s_stc s))
      (length lh_v) (length rh_v) (a_smoothing_steps a) (s_subjects_dir s)
    = Ok (s_morph_mat s).
Proof.
  intros Hs. cbv zeta. prepare_cases Hs. injection Hs as <-. cbn.
  unfold read_hemispheres in Heqr4. cbn [rbind fst snd] in Heqr4.
  destruct (read_brain_mesh L (path_join L a1 a2
              ("surf/" +:+ "lh" +:+ "." +:+ a_surface a)))
    as [[lh_v lh_f]|] eqn:Elh; [|discriminate].
  cbn [rbind fst snd] in Heqr4.
  destruct (read_brain_mesh L (path_join L a1 a2
              ("surf/" +:+ "rh" +:+ "." +:+ a_surface a)))
    as [[rh_v rh_f]|] eqn:Erh; [|discriminate].
  cbn [rbind fst snd] in Heqr4. injection Heqr4 as <- <-.
  cbn in Heqr5, Heqr6.
  destruct lh_v as [lh_v|]; [|discriminate].
  destruct rh_v as [rh_v|]; [|discriminate].
  cbn in Heqr5, Heqr6. injection Heqr5 as <-. injection Heqr6 as <-.
  exists lh_v, lh_f, rh_v, rh_f. repeat split; try reflexivity. exact Heqr7.
Qed.

(** ** The further properties at concrete inputs *)

Lemma demo_drawable (a : args) :
  s_hemis (Scenes.setup_of a) = ["lh"; "rh"] \/
  s_hemis (Scenes.setup_of a) = ["lh"] ->
  s_n_lh (Scenes.setup_of a) = 1%nat ->
  s_stc_data (Scenes.setup_of a) = [0; 1] ->
  s_hemi_vertices (Scenes.setup_of a)
  = [("rh", Some Demo.triangle); ("lh", Some Demo.triangle)] ->
  s_hemi_faces (Scenes.setup_of a)
  = [("rh", Some [(0, 0, 0)%nat]); ("lh", Some [(0, 0, 0)%nat])] ->
  forall h, In h (s_hemis (Scenes.setup_of a)) ->
    drawable (loop_env_of Demo.L a (Scenes.setup_of a)) h.
Proof.
  intros Hh Hn Hd Hv Hf h Hin. unfold drawable.
  cbn [le_n_lh le_stc_data le_hemi_vertices le_hemi_faces loop_env_of].
  rewrite Hn, Hd, Hv, Hf.
  destruct Hh as [Hh|Hh]; rewrite Hh in Hin.
  - destruct Hin as [<-|[<-|[]]]; cbn; (split; [lia|]); split; eauto.
  - destruct Hin as [<-|[]]; cbn; (split; [lia|]); split; eauto.
Defined.

Lemma brain_mesh_scene_witness :
  fst (plot_brain_mesh Demo.L Demo.brain Demo.w0)
  = Ok (0, Some 0, Some 2)%nat /\
  w_figures (snd (plot_brain_mesh Demo.L Demo.brain Demo.w0))
  = [Figure 500 500 true None [0; 1; 2; 3]%nat false false (Some "black")
            (Some (90, 90)%Z) true] /\
  length (w_meshes (snd (plot_brain_mesh Demo.L Demo.brain Demo.w0)))
  = 4%nat.
Proof.
  eassert (Hcolors : brain_act_colors Demo.L Demo.brain
                     = Ok (Some _, Some _)) by (vm_compute; reflexivity).
  rewrite (brain_mesh_scene Demo.L Demo.brain _ _ Demo.w0 Hcolors).
  vm_compute. repeat split.
Defined.

Lemma brain_mesh_without_data_witness :
  plot_brain_mesh Demo.L Scenes.brain_no_data Demo.w0
  = (Raise UnboundLocalError,
     World [new_figure 500 500] (Some 0%nat) [] [] false None).
Proof.
  destruct (brain_mesh_without_data Demo.L Scenes.brain_no_data Demo.w0
              eq_refl) as [H _].
  apply H. left. split; eexists; reflexivity.
Defined.

Lemma colorbar_colors_are_hex_witness :
  colorbar_colors Scenes.flat_cmap
    (cb_data (new_colorbar Demo.probe_cmap 1 3 (Pts 1 2 3)))
    (cb_bg_color (new_colorbar Demo.probe_cmap 1 3 (Pts 1 2 3)))
  !! 0%nat = Some "#bf7f3f" /\
  String.length "#bf7f3f" = 7%nat.
Proof.
  destruct (colorbar_colors_are_hex Demo.probe_cmap Scenes.flat_cmap 1 3
              (Pts 1 2 3)) as (_ & _ & _ & _ & H).
  { intros x. cbn. repeat split; discriminate. }
  assert (E : colorbar_colors Scenes.flat_cmap
                (cb_data (new_colorbar Demo.probe_cmap 1 3 (Pts 1 2 3)))
                (cb_bg_color (new_colorbar Demo.probe_cmap 1 3 (Pts 1 2 3)))
              !! 0%nat = Some "#bf7f3f") by (vm_compute; reflexivity).
  split; [exact E|]. exact (proj1 (H _ _ E)).
Defined.

Lemma slider_position_decides_display_witness :
  exists w1 w2,
    slider_handler 1 Demo.w_slider = (Ok tt, w1) /\
    slider_handler 2 Demo.w_slider = (Ok tt, w2) /\
    slider_handler 2 w1 = (Ok tt, w2).
Proof.
  apply (slider_position_decides_display Demo.w_slider
           (Demo.viewer_of Demo.w_slider) 1 2 (1 # 10) (2 # 10)
           "time=%0.2f ms" "time=%0.2f ms").
  - vm_compute. reflexivity.
  - exact slider_meshes_complete.
  - vm_compute. lia.
  - vm_compute. lia.
  - vm_compute. reflexivity.
  - vm_compute. reflexivity.
  - vm_compute. reflexivity.
  - vm_compute. reflexivity.
Defined.

Lemma bar_meshes_complete :
  meshes_complete (v_env (Demo.viewer_of Scenes.w_bar))
                  (length (w_meshes Scenes.w_bar)).
Proof.
  split.
  - intros view h Hin. vm_compute in Hin.
    destruct Hin as [E|[E|[E|[E|[]]]]]; injection E as <- <-;
      [exists 1%nat | exists 3%nat | exists 5%nat | exists 7%nat];
      vm_compute; (split; [reflexivity | lia]).
  - intros view h view' h' m H1 H2 L1 L2. vm_compute in H1, H2.
    destruct H1 as [E|[E|[E|[E|[]]]]]; injection E as <- <-;
      destruct H2 as [E|[E|[E|[E|[]]]]]; injection E as <- <-;
      try reflexivity; vm_compute in L1, L2; congruence.
Defined.

Lemma on_update_idempotent_witness :
  exists w1, on_update Scenes.w_bar = (Ok tt, w1) /\ on_update w1 = (Ok tt, w1).
Proof.
  apply (on_update_idempotent Scenes.w_bar (Demo.viewer_of Scenes.w_bar)
           (Demo.colorbar_of Scenes.w_bar)).
  - vm_compute. reflexivity.
  - vm_compute. reflexivity.
  - vm_compute. lia.
  - exact bar_meshes_complete.
  - vm_compute. reflexivity.
  - vm_compute. reflexivity.
  - assert (E : is_str (cl_lim_cmap (v_env (Demo.viewer_of Scenes.w_bar)))
                 = true) by (vm_compute; reflexivity).
    intros H. congruence.
Defined.

Lemma update_commutes_with_slider_witness :
  exists w',
    (run move_slider 2 in on_update) Scenes.w_bar = (Ok tt, w') /\
    (run on_update in move_slider 2) Scenes.w_bar = (Ok tt, w').
Proof.
  apply (update_commutes_with_slider Scenes.w_bar (Demo.viewer_of Scenes.w_bar)
           (Demo.colorbar_of Scenes.w_bar) 2 (2 # 10) "time=%0.2f ms").
  - vm_compute. reflexivity.
  - vm_compute. reflexivity.
  - vm_compute. lia.
  - vm_compute. lia.
  - vm_compute. reflexivity.
  - vm_compute. reflexivity.
  - exact bar_meshes_complete.
  - vm_compute. reflexivity.
  - vm_compute. reflexivity.
  - assert (E : is_str (cl_lim_cmap (v_env (Demo.viewer_of Scenes.w_bar)))
                 = true) by (vm_compute; reflexivity).
    intros H. congruence.
Defined.

Lemma viewer_drawable :
  forall h, In h (s_hemis (Scenes.setup_of Scenes.a_viewer)) ->
    drawable (loop_env_of Demo.L Scenes.a_viewer
                          (Scenes.setup_of Scenes.a_viewer)) h.
Proof.
  apply demo_drawable.
  - left. vm_compute. reflexivity.
  - vm_compute. reflexivity.
  - vm_compute. reflexivity.
  - vm_compute. reflexivity.
  - vm_compute. reflexivity.
Defined.

Lemma plot_sets_up_viewer_witness :
  exists v,
    w_viewer Demo.w_slider = Some v /\
    v_slider v = 0%nat /\
    length (w_meshes Demo.w_slider) = 8%nat /\
    meshes_complete (v_env v) (length (w_meshes Demo.w_slider)).
Proof.
  destruct (plot_sets_up_viewer Demo.L Scenes.a_viewer
              (Scenes.setup_of Scenes.a_viewer) Demo.w0 Demo.w_slider
              [OneFig 0; OneFig 1])
    as (v & x & Hv & _ & _ & _ & Hs & _ & _ & _ & _ & _ & Hlen & Hc & _).
  - vm_compute. reflexivity.
  - reflexivity.
  - exact viewer_drawable.
  - vm_compute. reflexivity.
  - exists v. split; [exact Hv|]. split; [rewrite Hs; vm_compute; reflexivity|].
    split; [rewrite Hlen; vm_compute; reflexivity | exact Hc].
Defined.

Lemma slider_at_initial_time_changes_nothing_witness :
  slider_handler 0 Demo.w_slider = (Ok tt, Demo.w_slider).
Proof.
  apply (slider_at_initial_time_changes_nothing Demo.L Scenes.a_viewer
           (Scenes.setup_of Scenes.a_viewer) Demo.w0 Demo.w_slider
           [OneFig 0; OneFig 1]).
  - vm_compute. reflexivity.
  - reflexivity.
  - exact viewer_drawable.
  - vm_compute. reflexivity.
Defined.

Lemma scene_layout_witness :
  w_children Demo.w_slider
  = [HTML ("<p style=" +:+ dq +:+ "color: black" +:+ dq
           +:+ "><b>sample</b></p>");
     FigureW 0; FigureW 1; control_widget] /\
  w_shown Demo.w_slider = true.
Proof.
  destruct (scene_layout Demo.L Scenes.a_viewer
              (Scenes.setup_of Scenes.a_viewer) Demo.w0 Demo.w_slider
              [OneFig 0; OneFig 1]) as [Hch Hsh].
  - vm_compute. reflexivity.
  - vm_compute. reflexivity.
  - split; [|exact Hsh]. rewrite Hch. vm_compute. reflexivity.
Defined.


Lemma plain_drawable :
  forall h, In h (s_hemis (Scenes.setup_of Demo.a0)) ->
    drawable (loop_env_of Demo.L Demo.a0 (Scenes.setup_of Demo.a0)) h.
Proof.
  apply demo_drawable.
  - left. vm_compute. reflexivity.
  - vm_compute. reflexivity.
  - vm_compute. reflexivity.
  - vm_compute. reflexivity.
  - vm_compute. reflexivity.
Defined.



Lemma every_view_gets_the_same_meshes_witness :
  exists block,
    w_meshes (snd (plot_source_estimates Demo.L Demo.a0 Demo.w0))
    = block ++ block /\ length block = 4%nat.
Proof.
  destruct (every_view_gets_the_same_meshes Demo.L Demo.a0
              (Scenes.setup_of Demo.a0) Demo.w0
              (snd (plot_source_estimates Demo.L Demo.a0 Demo.w0))
              [OneFig 0; OneFig 1]) as [H _].
  - vm_compute. reflexivity.
  - exact plain_drawable.
  - vm_compute. reflexivity.
  - exists (flat_map
              (hemi_scene (loop_env_of Demo.L Demo.a0
                                       (Scenes.setup_of Demo.a0)))
              (s_hemis (Scenes.setup_of Demo.a0))).
    split.
    + rewrite H. change (w_meshes Demo.w0) with (@nil mesh).
      change (length (views_of Demo.a0)) with 2%nat.
      cbn [replicate mjoin list_join app]. rewrite app_nil_r. reflexivity.
    + vm_compute. reflexivity.
Defined.


Lemma both_surfaces_are_read_witness :
  exists lh_v rh_v,
    dict_get (s_hemi_vertices (Scenes.setup_of Scenes.a_left)) "lh"
    = Some (Some lh_v) /\
    dict_get (s_hemi_vertices (Scenes.setup_of Scenes.a_left)) "rh"
    = Some (Some rh_v) /\
    s_hemis (Scenes.setup_of Scenes.a_left) = ["lh"].
Proof.
  destruct (both_surfaces_are_read Demo.L Scenes.a_left
              (Scenes.setup_of Scenes.a_left))
    as (lh_v & lh_f & rh_v & rh_f & _ & _ & Hl & Hr & _).
  - vm_compute. reflexivity.
  - exists lh_v, rh_v. split; [exact Hl|]. split; [exact Hr|].
    vm_compute. reflexivity.
Defined.
